(** * The child-process IPC channel of [src/js/internal/child_process.ts]

    A shallow embedding of [setupChannel]: the [send]/[_send] pair, the
    handle-passing handshake driven by the ["internalMessage"] listener, the
    [disconnect]/[_disconnect] lifecycle, the inbound dispatch of
    [channel.onread], the buffer of messages that arrive before a listener, and
    the reference-counting [Control] object.

    JavaScript values are an inductive type, the mutable objects of the module
    (the target, the closure variables of [setupChannel], the channel, the
    [Control] instance, the socket wrappers) are the fields of one [state]
    record, and every function of the source is a computation in a state and
    exception monad.  What the module does to its collaborators (the transport,
    the event emitter's user listeners, [process]) is recorded in a trace.

    Three parameters stand for what the source leaves to its environment:
    whether [$assert] is compiled in, whether the platform is win32, and what
    the transport answers to each write.  The user's listeners and callbacks
    are inert: a call of [target.emit] or of a callback is an event of the
    trace.  The emitter is the one of [node:events]: it calls the listeners
    an event had when its emit began, and it throws the error of an
    ["error"] event that has no listener.  Strings are sequences of code
    units. *)

From Stdlib Require Import ZArith List String Bool Arith Lia.
Set Warnings "-register-all".
Import ListNotations.
Open Scope string_scope.
Open Scope Z_scope.

(** ** JavaScript values *)

(** The errors the module constructs, and those the runtime raises on its
    behalf: a [TypeError] (a property read on [null]/[undefined], a builtin
    called on no object), the failure of a [$assert], and the error the
    emitter throws for an ["error"] event that carries no error and has no
    listener. *)
Inductive error : Type :=
| ERR_IPC_CHANNEL_CLOSED
| ERR_INVALID_HANDLE_TYPE
| ERR_IPC_DISCONNECTED
| ERR_MISSING_ARGS (name : string)
| ERR_INVALID_ARG_TYPE (name : string)
| ErrnoException (errno : Z) (syscall : string)
| TypeError
| AssertionError
| ERR_UNHANDLED_ERROR.

(** Numbers are integers here: no claim of the module depends on fractions or
    NaN.  Functions and host objects are identified by a number.  [VSocket],
    [VServer] and [VDgram] are the instances of [net.Socket], [net.Server] and
    [dgram.Socket] (what the [instanceof] chain of [_send] recognises);
    [VNative] is every other host object, a raw OS handle in particular. *)
Inductive value : Type :=
| VUndefined
| VNull
| VBool (b : bool)
| VNum (n : Z)
| VStr (s : string)
| VBigInt (n : Z)
| VSymbol (id : nat)
| VFun (id : nat)
| VError (e : error)
| VArr (elems : list value)
| VObj (props : list (string * value))
| VSocket (r : nat)
| VServer (r : nat)
| VDgram (r : nat)
| VNative (r : nat).

Inductive jstype : Type :=
| TUndefined | TObject | TBoolean | TNumber | TString | TBigint | TSymbol | TFunction.

Definition typeof (v : value) : jstype :=
  match v with
  | VUndefined => TUndefined
  | VBool _ => TBoolean
  | VNum _ => TNumber
  | VStr _ => TString
  | VBigInt _ => TBigint
  | VSymbol _ => TSymbol
  | VFun _ => TFunction
  | VNull | VError _ | VArr _ | VObj _
  | VSocket _ | VServer _ | VDgram _ | VNative _ => TObject
  end.

Definition jstype_eqb (a b : jstype) : bool :=
  match a, b with
  | TUndefined, TUndefined | TObject, TObject | TBoolean, TBoolean
  | TNumber, TNumber | TString, TString | TBigint, TBigint
  | TSymbol, TSymbol | TFunction, TFunction => true
  | _, _ => false
  end.

(** [if (v)] *)
Definition truthy (v : value) : bool :=
  match v with
  | VUndefined | VNull => false
  | VBool b => b
  | VNum n => negb (n =? 0)
  | VStr s => negb (String.eqb s "")
  | VBigInt n => negb (n =? 0)
  | _ => true
  end.

Definition is_undefined (v : value) : bool :=
  match v with VUndefined => true | _ => false end.

Definition is_null (v : value) : bool :=
  match v with VNull => true | _ => false end.

Definition is_function (v : value) : bool :=
  jstype_eqb (typeof v) TFunction.

(** [v === "s"] *)
Definition is_str (v : value) (s : string) : bool :=
  match v with VStr t => String.eqb t s | _ => false end.

Fixpoint lookup (k : string) (props : list (string * value)) : value :=
  match props with
  | [] => VUndefined
  | (k', v) :: rest => if String.eqb k k' then v else lookup k rest
  end.

Fixpoint assign (k : string) (v : value) (props : list (string * value))
  : list (string * value) :=
  match props with
  | [] => [(k, v)]
  | (k', v') :: rest =>
      if String.eqb k k' then (k, v) :: rest else (k', v') :: assign k v rest
  end.

(** [v.k] on a value that is neither [null] nor [undefined]: plain objects
    carry their properties, anything else has none of the names read here. *)
Definition get_prop (v : value) (k : string) : value :=
  match v with
  | VObj props => lookup k props
  | _ => VUndefined
  end.

(** [o.k = v] on an object literal. *)
Definition set_prop (o : value) (k : string) (v : value) : value :=
  match o with
  | VObj props => VObj (assign k v props)
  | _ => o
  end.

(** ** [isInternal] *)

Definition INTERNAL_PREFIX : string := "NODE_".

Definition isInternal (message : value) : bool :=
  negb (is_null message)
  && jstype_eqb (typeof message) TObject
  && jstype_eqb (typeof (get_prop message "cmd")) TString
  && match get_prop message "cmd" with
     | VStr cmd =>
         (String.length INTERNAL_PREFIX <? String.length cmd)%nat
         && String.eqb (substring 0 (String.length INTERNAL_PREFIX) cmd)
                       INTERNAL_PREFIX
     | _ => false
     end.

(** ** The records of the protocol state *)

Module QueuedSend.
Record t : Type := Build
  { callback : value; handle : value; options : value; message : value }.
End QueuedSend.

Module PendingMessage.
Record t : Type := Build
  { callback : value; message : value; handle : value; options : value;
    retransmissions : Z }.
End PendingMessage.

(** The fields of a [net.Socket], [net.Server] or [dgram.Socket] the module
    reads or writes: [_handle] ([socket[kStateSymbol].handle] for a datagram
    socket), [server] (a reference to the owning [net.Server], if any),
    [_connectionKey] and [_connections] of a server, [type] of a datagram
    socket. *)
Record wrapper : Type := Wrapper
  { _handle : value;
    server : option nat;
    _connectionKey : string;
    _connections : Z;
    type : value }.

(** What the transport answers to one [writeChannelMessage]: the error code it
    returns, [streamBaseState[kLastWriteWasAsync]], and the
    [channel.writeQueueSize] read afterwards. *)
Record WriteResult : Type := WriteRes
  { err : Z; kLastWriteWasAsync : bool; queueSize : Z }.

(** Deferred work: the callbacks handed to [process.nextTick]. *)
Inductive task : Type :=
| TCall (callback : value) (arg : value)        (* nextTick(callback, arg) *)
| TEmitError (ex : value)                       (* nextTick(() => this.emit("error", ex)) *)
| TEmit (eventName : string) (message handle : value)  (* nextTick(emit, eventName, message, handle) *)
| TFlush                                        (* the closure of the "newListener" listener *)
| TFinish (id : nat).                           (* nextTick(finish) *)

(** What the module does to the outside. *)
Inductive event : Type :=
| EWrite (message handle : value)     (* writeChannelMessage(channel, req, message, handle) *)
| EReadStart                          (* channel.readStart() *)
| EChannelClose                       (* channel.close() *)
| EChannelRef                         (* channel.ref() *)
| EChannelUnref                       (* channel.unref() *)
| EControlEmit (name : string)        (* control.emit(name) *)
| EEmit (name : string) (args : list value)  (* target.emit(name, ...args) *)
| ECall (callback : value) (arg : value)     (* callback(arg) *)
| EHandleClose (handle : value)       (* handle.close() *)
| EHandleDetach (handle : value)      (* handle.onread = nop *)
| ESetSimultaneousAccepts (handle : value) (on : bool)
| ESetTimeout (socket : nat)          (* socket.setTimeout(0) *)
| ESetupWorker (server : nat) (key : string) (* server._setupWorker(socketList) *)
| ESocketListAdd (key : string) (socket : nat) (* socketList.add({socket}) *)
| EListen (server : nat) (handle : value)    (* server.listen(handle, cb) *)
| EBind (socket : nat) (handle : value)      (* socket.bind(handle, cb) *)
| EWarning (message name : string).   (* process.emitWarning(message, name) *)
(** ** The state

    One record for every mutable object [setupChannel] works on: the target,
    the closure variables, the channel, the [Control] instance, the wrappers
    passed as handles, the [process.nextTick] queue and the trace. *)

Record state : Type := State
  { connected : bool  (* target.connected *);
    channel : bool  (* target.channel: the Control (true) or null (false) *);
    kChannelHandle : bool  (* target[kChannelHandle]: the channel (true) or null (false) *);
    _handleQueue : option (list QueuedSend.t)  (* target._handleQueue, None for null *);
    _pendingMessage : option PendingMessage.t  (* target._pendingMessage, None for null *);
    _closesGot : Z  (* target._closesGot *);
    _closesNeeded : Z  (* target._closesNeeded *);
    exitCode : value  (* target.exitCode *);
    signalCode : value  (* target.signalCode *);
    messageListeners : nat  (* the user's listeners of target on "message" *);
    errorListeners : nat  (* the user's listeners of target on "error" *);
    onceMessage : list nat  (* finish closures registered by once("message", finish) *);
    onceInternalMessage : list nat  (* finish closures registered by once("internalMessage", finish) *);
    pendingHandle : value  (* the closure variable pendingHandle of setupChannel *);
    fired : list nat  (* the finish closures whose fired flag is set *);
    finishCount : nat  (* the number of finish closures created so far *);
    onread_live : bool  (* channel.onread: the read callback (true) or nop (false) *);
    buffering : bool  (* channel.buffering *);
    writeQueueSize : Z  (* channel.writeQueueSize *);
    writes : nat  (* the number of writeChannelMessage calls so far *);
    refed : bool  (* whether the channel keeps the event loop alive *);
    sockets_send : list string  (* the keys of channel.sockets.send *);
    sockets_got : list string  (* the keys of channel.sockets.got *);
    refs : Z  (* Control.#refs *);
    refExplicitlySet : bool  (* Control.#refExplicitlySet *);
    kPendingMessages : list (string * value * value)  (* control[kPendingMessages]: [event, message, handle] triples *);
    objs : nat -> wrapper  (* the socket, server and datagram wrappers, by reference *);
    objCount : nat  (* the next fresh wrapper reference *);
    ticks : list task  (* the process.nextTick queue, oldest first *);
    oncomplete : list (nat * value)  (* req.oncomplete of the writes in flight: write number, callback *);
    trace : list event  (* the effects on the outside so far, oldest first *) }.

(** Field updates. *)

Definition set_connected (x : bool) (s : state) : state :=
  State x (channel s) (kChannelHandle s) (_handleQueue s) (_pendingMessage s)
    (_closesGot s) (_closesNeeded s) (exitCode s) (signalCode s)
    (messageListeners s) (errorListeners s) (onceMessage s) (onceInternalMessage s)
    (pendingHandle s) (fired s) (finishCount s) (onread_live s) (buffering s)
    (writeQueueSize s) (writes s) (refed s) (sockets_send s) (sockets_got s)
    (refs s) (refExplicitlySet s) (kPendingMessages s) (objs s) (objCount s)
    (ticks s) (oncomplete s) (trace s).

Definition set_channel (x : bool) (s : state) : state :=
  State (connected s) x (kChannelHandle s) (_handleQueue s)
    (_pendingMessage s) (_closesGot s) (_closesNeeded s) (exitCode s) (signalCode s)
    (messageListeners s) (errorListeners s) (onceMessage s) (onceInternalMessage s)
    (pendingHandle s) (fired s) (finishCount s) (onread_live s) (buffering s)
    (writeQueueSize s) (writes s) (refed s) (sockets_send s) (sockets_got s)
    (refs s) (refExplicitlySet s) (kPendingMessages s) (objs s) (objCount s)
    (ticks s) (oncomplete s) (trace s).

Definition set_kChannelHandle (x : bool) (s : state) : state :=
  State (connected s) (channel s) x (_handleQueue s) (_pendingMessage s)
    (_closesGot s) (_closesNeeded s) (exitCode s) (signalCode s)
    (messageListeners s) (errorListeners s) (onceMessage s) (onceInternalMessage s)
    (pendingHandle s) (fired s) (finishCount s) (onread_live s) (buffering s)
    (writeQueueSize s) (writes s) (refed s) (sockets_send s) (sockets_got s)
    (refs s) (refExplicitlySet s) (kPendingMessages s) (objs s) (objCount s)
    (ticks s) (oncomplete s) (trace s).

Definition set_handleQueue (x : option (list QueuedSend.t)) (s : state) : state :=
  State (connected s) (channel s) (kChannelHandle s) x (_pendingMessage s)
    (_closesGot s) (_closesNeeded s) (exitCode s) (signalCode s)
    (messageListeners s) (errorListeners s) (onceMessage s) (onceInternalMessage s)
    (pendingHandle s) (fired s) (finishCount s) (onread_live s) (buffering s)
    (writeQueueSize s) (writes s) (refed s) (sockets_send s) (sockets_got s)
    (refs s) (refExplicitlySet s) (kPendingMessages s) (objs s) (objCount s)
    (ticks s) (oncomplete s) (trace s).

Definition set_pendingMessage (x : option PendingMessage.t) (s : state) : state :=
  State (connected s) (channel s) (kChannelHandle s) (_handleQueue s) x
    (_closesGot s) (_closesNeeded s) (exitCode s) (signalCode s)
    (messageListeners s) (errorListeners s) (onceMessage s) (onceInternalMessage s)
    (pendingHandle s) (fired s) (finishCount s) (onread_live s) (buffering s)
    (writeQueueSize s) (writes s) (refed s) (sockets_send s) (sockets_got s)
    (refs s) (refExplicitlySet s) (kPendingMessages s) (objs s) (objCount s)
    (ticks s) (oncomplete s) (trace s).

Definition set_closesGot (x : Z) (s : state) : state :=
  State (connected s) (channel s) (kChannelHandle s) (_handleQueue s)
    (_pendingMessage s) x (_closesNeeded s) (exitCode s) (signalCode s)
    (messageListeners s) (errorListeners s) (onceMessage s) (onceInternalMessage s)
    (pendingHandle s) (fired s) (finishCount s) (onread_live s) (buffering s)
    (writeQueueSize s) (writes s) (refed s) (sockets_send s) (sockets_got s)
    (refs s) (refExplicitlySet s) (kPendingMessages s) (objs s) (objCount s)
    (ticks s) (oncomplete s) (trace s).

Definition set_closesNeeded (x : Z) (s : state) : state :=
  State (connected s) (channel s) (kChannelHandle s) (_handleQueue s)
    (_pendingMessage s) (_closesGot s) x (exitCode s) (signalCode s)
    (messageListeners s) (errorListeners s) (onceMessage s) (onceInternalMessage s)
    (pendingHandle s) (fired s) (finishCount s) (onread_live s) (buffering s)
    (writeQueueSize s) (writes s) (refed s) (sockets_send s) (sockets_got s)
    (refs s) (refExplicitlySet s) (kPendingMessages s) (objs s) (objCount s)
    (ticks s) (oncomplete s) (trace s).

Definition set_exitCode (x : value) (s : state) : state :=
  State (connected s) (channel s) (kChannelHandle s) (_handleQueue s)
    (_pendingMessage s) (_closesGot s) (_closesNeeded s) x (signalCode s)
    (messageListeners s) (errorListeners s) (onceMessage s) (onceInternalMessage s)
    (pendingHandle s) (fired s) (finishCount s) (onread_live s) (buffering s)
    (writeQueueSize s) (writes s) (refed s) (sockets_send s) (sockets_got s)
    (refs s) (refExplicitlySet s) (kPendingMessages s) (objs s) (objCount s)
    (ticks s) (oncomplete s) (trace s).

Definition set_signalCode (x : value) (s : state) : state :=
  State (connected s) (channel s) (kChannelHandle s) (_handleQueue s)
    (_pendingMessage s) (_closesGot s) (_closesNeeded s) (exitCode s) x
    (messageListeners s) (errorListeners s) (onceMessage s) (onceInternalMessage s)
    (pendingHandle s) (fired s) (finishCount s) (onread_live s) (buffering s)
    (writeQueueSize s) (writes s) (refed s) (sockets_send s) (sockets_got s)
    (refs s) (refExplicitlySet s) (kPendingMessages s) (objs s) (objCount s)
    (ticks s) (oncomplete s) (trace s).

Definition set_messageListeners (x : nat) (s : state) : state :=
  State (connected s) (channel s) (kChannelHandle s) (_handleQueue s)
    (_pendingMessage s) (_closesGot s) (_closesNeeded s) (exitCode s)
    (signalCode s) x (errorListeners s) (onceMessage s) (onceInternalMessage s) (pendingHandle s)
    (fired s) (finishCount s) (onread_live s) (buffering s) (writeQueueSize s)
    (writes s) (refed s) (sockets_send s) (sockets_got s) (refs s)
    (refExplicitlySet s) (kPendingMessages s) (objs s) (objCount s) (ticks s)
    (oncomplete s) (trace s).

Definition set_errorListeners (x : nat) (s : state) : state :=
  State (connected s) (channel s) (kChannelHandle s) (_handleQueue s)
    (_pendingMessage s) (_closesGot s) (_closesNeeded s) (exitCode s)
    (signalCode s) (messageListeners s) x (onceMessage s) (onceInternalMessage s) (pendingHandle s)
    (fired s) (finishCount s) (onread_live s) (buffering s) (writeQueueSize s)
    (writes s) (refed s) (sockets_send s) (sockets_got s) (refs s)
    (refExplicitlySet s) (kPendingMessages s) (objs s) (objCount s) (ticks s)
    (oncomplete s) (trace s).

Definition set_onceMessage (x : list nat) (s : state) : state :=
  State (connected s) (channel s) (kChannelHandle s) (_handleQueue s)
    (_pendingMessage s) (_closesGot s) (_closesNeeded s) (exitCode s)
    (signalCode s) (messageListeners s) (errorListeners s) x (onceInternalMessage s)
    (pendingHandle s) (fired s) (finishCount s) (onread_live s) (buffering s)
    (writeQueueSize s) (writes s) (refed s) (sockets_send s) (sockets_got s)
    (refs s) (refExplicitlySet s) (kPendingMessages s) (objs s) (objCount s)
    (ticks s) (oncomplete s) (trace s).

Definition set_onceInternalMessage (x : list nat) (s : state) : state :=
  State (connected s) (channel s) (kChannelHandle s) (_handleQueue s)
    (_pendingMessage s) (_closesGot s) (_closesNeeded s) (exitCode s)
    (signalCode s) (messageListeners s) (errorListeners s) (onceMessage s) x (pendingHandle s)
    (fired s) (finishCount s) (onread_live s) (buffering s) (writeQueueSize s)
    (writes s) (refed s) (sockets_send s) (sockets_got s) (refs s)
    (refExplicitlySet s) (kPendingMessages s) (objs s) (objCount s) (ticks s)
    (oncomplete s) (trace s).

Definition set_pendingHandle (x : value) (s : state) : state :=
  State (connected s) (channel s) (kChannelHandle s) (_handleQueue s)
    (_pendingMessage s) (_closesGot s) (_closesNeeded s) (exitCode s)
    (signalCode s) (messageListeners s) (errorListeners s) (onceMessage s)
    (onceInternalMessage s) x (fired s) (finishCount s) (onread_live s) (buffering s)
    (writeQueueSize s) (writes s) (refed s) (sockets_send s) (sockets_got s)
    (refs s) (refExplicitlySet s) (kPendingMessages s) (objs s) (objCount s)
    (ticks s) (oncomplete s) (trace s).

Definition set_fired (x : list nat) (s : state) : state :=
  State (connected s) (channel s) (kChannelHandle s) (_handleQueue s)
    (_pendingMessage s) (_closesGot s) (_closesNeeded s) (exitCode s)
    (signalCode s) (messageListeners s) (errorListeners s) (onceMessage s)
    (onceInternalMessage s) (pendingHandle s) x (finishCount s) (onread_live s) (buffering s)
    (writeQueueSize s) (writes s) (refed s) (sockets_send s) (sockets_got s)
    (refs s) (refExplicitlySet s) (kPendingMessages s) (objs s) (objCount s)
    (ticks s) (oncomplete s) (trace s).

Definition set_finishCount (x : nat) (s : state) : state :=
  State (connected s) (channel s) (kChannelHandle s) (_handleQueue s)
    (_pendingMessage s) (_closesGot s) (_closesNeeded s) (exitCode s)
    (signalCode s) (messageListeners s) (errorListeners s) (onceMessage s)
    (onceInternalMessage s) (pendingHandle s) (fired s) x (onread_live s) (buffering s)
    (writeQueueSize s) (writes s) (refed s) (sockets_send s) (sockets_got s)
    (refs s) (refExplicitlySet s) (kPendingMessages s) (objs s) (objCount s)
    (ticks s) (oncomplete s) (trace s).

Definition set_onread_live (x : bool) (s : state) : state :=
  State (connected s) (channel s) (kChannelHandle s) (_handleQueue s)
    (_pendingMessage s) (_closesGot s) (_closesNeeded s) (exitCode s)
    (signalCode s) (messageListeners s) (errorListeners s) (onceMessage s)
    (onceInternalMessage s) (pendingHandle s) (fired s) (finishCount s) x (buffering s)
    (writeQueueSize s) (writes s) (refed s) (sockets_send s) (sockets_got s)
    (refs s) (refExplicitlySet s) (kPendingMessages s) (objs s) (objCount s)
    (ticks s) (oncomplete s) (trace s).

Definition set_buffering (x : bool) (s : state) : state :=
  State (connected s) (channel s) (kChannelHandle s) (_handleQueue s)
    (_pendingMessage s) (_closesGot s) (_closesNeeded s) (exitCode s)
    (signalCode s) (messageListeners s) (errorListeners s) (onceMessage s)
    (onceInternalMessage s) (pendingHandle s) (fired s) (finishCount s) (onread_live s) x
    (writeQueueSize s) (writes s) (refed s) (sockets_send s) (sockets_got s)
    (refs s) (refExplicitlySet s) (kPendingMessages s) (objs s) (objCount s)
    (ticks s) (oncomplete s) (trace s).

Definition set_writeQueueSize (x : Z) (s : state) : state :=
  State (connected s) (channel s) (kChannelHandle s) (_handleQueue s)
    (_pendingMessage s) (_closesGot s) (_closesNeeded s) (exitCode s)
    (signalCode s) (messageListeners s) (errorListeners s) (onceMessage s)
    (onceInternalMessage s) (pendingHandle s) (fired s) (finishCount s) (onread_live s)
    (buffering s) x (writes s) (refed s) (sockets_send s) (sockets_got s) (refs s)
    (refExplicitlySet s) (kPendingMessages s) (objs s) (objCount s) (ticks s)
    (oncomplete s) (trace s).

Definition set_writes (x : nat) (s : state) : state :=
  State (connected s) (channel s) (kChannelHandle s) (_handleQueue s)
    (_pendingMessage s) (_closesGot s) (_closesNeeded s) (exitCode s)
    (signalCode s) (messageListeners s) (errorListeners s) (onceMessage s)
    (onceInternalMessage s) (pendingHandle s) (fired s) (finishCount s) (onread_live s)
    (buffering s) (writeQueueSize s) x (refed s) (sockets_send s) (sockets_got s)
    (refs s) (refExplicitlySet s) (kPendingMessages s) (objs s) (objCount s)
    (ticks s) (oncomplete s) (trace s).

Definition set_refed (x : bool) (s : state) : state :=
  State (connected s) (channel s) (kChannelHandle s) (_handleQueue s)
    (_pendingMessage s) (_closesGot s) (_closesNeeded s) (exitCode s)
    (signalCode s) (messageListeners s) (errorListeners s) (onceMessage s)
    (onceInternalMessage s) (pendingHandle s) (fired s) (finishCount s) (onread_live s)
    (buffering s) (writeQueueSize s) (writes s) x (sockets_send s) (sockets_got s)
    (refs s) (refExplicitlySet s) (kPendingMessages s) (objs s) (objCount s)
    (ticks s) (oncomplete s) (trace s).

Definition set_sockets_send (x : list string) (s : state) : state :=
  State (connected s) (channel s) (kChannelHandle s) (_handleQueue s)
    (_pendingMessage s) (_closesGot s) (_closesNeeded s) (exitCode s)
    (signalCode s) (messageListeners s) (errorListeners s) (onceMessage s)
    (onceInternalMessage s) (pendingHandle s) (fired s) (finishCount s) (onread_live s)
    (buffering s) (writeQueueSize s) (writes s) (refed s) x (sockets_got s) (refs s)
    (refExplicitlySet s) (kPendingMessages s) (objs s) (objCount s) (ticks s)
    (oncomplete s) (trace s).

Definition set_sockets_got (x : list string) (s : state) : state :=
  State (connected s) (channel s) (kChannelHandle s) (_handleQueue s)
    (_pendingMessage s) (_closesGot s) (_closesNeeded s) (exitCode s)
    (signalCode s) (messageListeners s) (errorListeners s) (onceMessage s)
    (onceInternalMessage s) (pendingHandle s) (fired s) (finishCount s) (onread_live s)
    (buffering s) (writeQueueSize s) (writes s) (refed s) (sockets_send s) x (refs s)
    (refExplicitlySet s) (kPendingMessages s) (objs s) (objCount s) (ticks s)
    (oncomplete s) (trace s).

Definition set_refs (x : Z) (s : state) : state :=
  State (connected s) (channel s) (kChannelHandle s) (_handleQueue s)
    (_pendingMessage s) (_closesGot s) (_closesNeeded s) (exitCode s)
    (signalCode s) (messageListeners s) (errorListeners s) (onceMessage s)
    (onceInternalMessage s) (pendingHandle s) (fired s) (finishCount s) (onread_live s)
    (buffering s) (writeQueueSize s) (writes s) (refed s) (sockets_send s)
    (sockets_got s) x (refExplicitlySet s) (kPendingMessages s) (objs s) (objCount s)
    (ticks s) (oncomplete s) (trace s).

Definition set_refExplicitlySet (x : bool) (s : state) : state :=
  State (connected s) (channel s) (kChannelHandle s) (_handleQueue s)
    (_pendingMessage s) (_closesGot s) (_closesNeeded s) (exitCode s)
    (signalCode s) (messageListeners s) (errorListeners s) (onceMessage s)
    (onceInternalMessage s) (pendingHandle s) (fired s) (finishCount s) (onread_live s)
    (buffering s) (writeQueueSize s) (writes s) (refed s) (sockets_send s)
    (sockets_got s) (refs s) x (kPendingMessages s) (objs s) (objCount s) (ticks s)
    (oncomplete s) (trace s).

Definition set_kPendingMessages (x : list (string * value * value)) (s : state) : state :=
  State (connected s) (channel s) (kChannelHandle s) (_handleQueue s)
    (_pendingMessage s) (_closesGot s) (_closesNeeded s) (exitCode s)
    (signalCode s) (messageListeners s) (errorListeners s) (onceMessage s)
    (onceInternalMessage s) (pendingHandle s) (fired s) (finishCount s) (onread_live s)
    (buffering s) (writeQueueSize s) (writes s) (refed s) (sockets_send s)
    (sockets_got s) (refs s) (refExplicitlySet s) x (objs s) (objCount s) (ticks s)
    (oncomplete s) (trace s).

Definition set_objs (x : nat -> wrapper) (s : state) : state :=
  State (connected s) (channel s) (kChannelHandle s) (_handleQueue s)
    (_pendingMessage s) (_closesGot s) (_closesNeeded s) (exitCode s)
    (signalCode s) (messageListeners s) (errorListeners s) (onceMessage s)
    (onceInternalMessage s) (pendingHandle s) (fired s) (finishCount s) (onread_live s)
    (buffering s) (writeQueueSize s) (writes s) (refed s) (sockets_send s)
    (sockets_got s) (refs s) (refExplicitlySet s) (kPendingMessages s) x (objCount s)
    (ticks s) (oncomplete s) (trace s).

Definition set_objCount (x : nat) (s : state) : state :=
  State (connected s) (channel s) (kChannelHandle s) (_handleQueue s)
    (_pendingMessage s) (_closesGot s) (_closesNeeded s) (exitCode s)
    (signalCode s) (messageListeners s) (errorListeners s) (onceMessage s)
    (onceInternalMessage s) (pendingHandle s) (fired s) (finishCount s) (onread_live s)
    (buffering s) (writeQueueSize s) (writes s) (refed s) (sockets_send s)
    (sockets_got s) (refs s) (refExplicitlySet s) (kPendingMessages s) (objs s) x (ticks s)
    (oncomplete s) (trace s).

Definition set_ticks (x : list task) (s : state) : state :=
  State (connected s) (channel s) (kChannelHandle s) (_handleQueue s)
    (_pendingMessage s) (_closesGot s) (_closesNeeded s) (exitCode s)
    (signalCode s) (messageListeners s) (errorListeners s) (onceMessage s)
    (onceInternalMessage s) (pendingHandle s) (fired s) (finishCount s) (onread_live s)
    (buffering s) (writeQueueSize s) (writes s) (refed s) (sockets_send s)
    (sockets_got s) (refs s) (refExplicitlySet s) (kPendingMessages s) (objs s)
    (objCount s) x (oncomplete s) (trace s).

Definition set_oncomplete (x : list (nat * value)) (s : state) : state :=
  State (connected s) (channel s) (kChannelHandle s) (_handleQueue s)
    (_pendingMessage s) (_closesGot s) (_closesNeeded s) (exitCode s)
    (signalCode s) (messageListeners s) (errorListeners s) (onceMessage s)
    (onceInternalMessage s) (pendingHandle s) (fired s) (finishCount s) (onread_live s)
    (buffering s) (writeQueueSize s) (writes s) (refed s) (sockets_send s)
    (sockets_got s) (refs s) (refExplicitlySet s) (kPendingMessages s) (objs s)
    (objCount s) (ticks s) x (trace s).

Definition set_trace (x : list event) (s : state) : state :=
  State (connected s) (channel s) (kChannelHandle s) (_handleQueue s)
    (_pendingMessage s) (_closesGot s) (_closesNeeded s) (exitCode s)
    (signalCode s) (messageListeners s) (errorListeners s) (onceMessage s)
    (onceInternalMessage s) (pendingHandle s) (fired s) (finishCount s) (onread_live s)
    (buffering s) (writeQueueSize s) (writes s) (refed s) (sockets_send s)
    (sockets_got s) (refs s) (refExplicitlySet s) (kPendingMessages s) (objs s)
    (objCount s) (ticks s) (oncomplete s) x.

(** ** The state and exception monad

    A JavaScript function that throws keeps the mutations it made before the
    throw, so a computation returns its outcome together with the state. *)

Inductive outcome (A : Type) : Type :=
| Ret (a : A)
| Throw (e : error).
Arguments Ret {A} a.
Arguments Throw {A} e.

Definition M (A : Type) : Type := state -> outcome A * state.

Definition ret {A : Type} (a : A) : M A := fun s => (Ret a, s).

Definition throw {A : Type} (e : error) : M A := fun s => (Throw e, s).

Definition bind {A B : Type} (m : M A) (k : A -> M B) : M B :=
  fun s =>
    match m s with
    | (Ret a, s') => k a s'
    | (Throw e, s') => (Throw e, s')
    end.

Definition get : M state := fun s => (Ret s, s).

Definition modify (f : state -> state) : M unit := fun s => (Ret tt, f s).

Declare Scope js_scope.
Delimit Scope js_scope with js.
Notation "x <- m ;; k" := (bind m (fun x => k))
  (at level 61, m at next level, right associativity) : js_scope.
Notation "' pat <- m ;; k" := (bind m (fun x => match x with pat => k end))
  (at level 61, pat pattern, m at next level, right associativity) : js_scope.
Notation "m ;; k" := (bind m (fun _ => k))
  (at level 61, right associativity) : js_scope.
Open Scope js_scope.

Definition when (b : bool) (m : M unit) : M unit := if b then m else ret tt.

Fixpoint forEach {A : Type} (f : A -> M unit) (l : list A) : M unit :=
  match l with
  | [] => ret tt
  | x :: rest => f x ;; forEach f rest
  end.

(** The outcome and the final state of a run. *)
Definition result {A : Type} (r : outcome A * state) : outcome A := fst r.
Definition after {A : Type} (r : outcome A * state) : state := snd r.

Definition tell (e : event) : M unit :=
  modify (fun s => set_trace (trace s ++ [e]) s).

(** [process.nextTick]: first in, first out. *)
Definition nextTick (t : task) : M unit :=
  modify (fun s => set_ticks (ticks s ++ [t]) s).

(** [v.k] where [v] may be [null] or [undefined]. *)
Definition getM (v : value) (k : string) : M value :=
  match v with
  | VUndefined | VNull => throw TypeError
  | _ => ret (get_prop v k)
  end.

(** A method call [h.m(...)] on a handle: the call reaches the handle when
    [h] is truthy (handles are host objects), and is a [TypeError] on
    [undefined], [null] and the other falsy values. *)
Definition method_call (h : value) (e : event) : M unit :=
  if truthy h then tell e else throw TypeError.

(** What the emitter does after the listeners of an ["error"] event: with no
    listener it throws the error the event carries. *)
Definition unheard (args : list value) : M unit :=
  s <- get ;;
  if (0 <? errorListeners s)%nat then ret tt
  else match nth 0 args VUndefined with
       | VError e => throw e
       | _ => throw ERR_UNHANDLED_ERROR
       end.

(** [target.emit("error", ex)] *)
Definition emit_error (ex : value) : M unit :=
  tell (EEmit "error" [ex]) ;; unheard [ex].

Definition is_some {A : Type} (o : option A) : bool :=
  match o with Some _ => true | None => false end.

Fixpoint mem (k : string) (l : list string) : bool :=
  match l with
  | [] => false
  | k' :: rest => String.eqb k k' || mem k rest
  end.

(** The string a value names as a property key ([ToPropertyKey]).  Digits
    stand for numbers: only equality with the names of the registry and of
    the socket lists is ever asked. *)
Fixpoint property_key (v : value) : string :=
  match v with
  | VStr s => s
  | VUndefined => "undefined"
  | VNull => "null"
  | VBool true => "true"
  | VBool false => "false"
  | VNum _ | VBigInt _ => "0"
  | VArr elems =>
      (fix join (l : list value) : string :=
         match l with
         | [] => ""
         | x :: rest =>
             (match x with
              | VUndefined | VNull => ""
              | _ => property_key x
              end)
             ++ (match rest with [] => "" | _ => "," ++ join rest end)
         end) elems
  | _ => "[object Object]"
  end.

(** [{ swallowErrors: false, ...options }]: the own enumerable properties of
    a plain object are copied in order; other values contribute none. *)
Definition spread (base : list (string * value)) (v : value)
  : list (string * value) :=
  match v with
  | VObj props => fold_left (fun acc kv => assign (fst kv) (snd kv) acc) props base
  | _ => base
  end.

(** The keys of [handleConversion]. *)
Inductive handleType : Type := net_Server | net_Socket | dgram_Socket.

Definition type_name (t : handleType) : string :=
  match t with
  | net_Server => "net.Server"
  | net_Socket => "net.Socket"
  | dgram_Socket => "dgram.Socket"
  end.

(** [handleConversion[key]] *)
Definition handleConversion (key : value) : option handleType :=
  let k := property_key key in
  if String.eqb k "net.Server" then Some net_Server
  else if String.eqb k "net.Socket" then Some net_Socket
  else if String.eqb k "dgram.Socket" then Some dgram_Socket
  else None.

Definition simultaneousAccepts (t : handleType) : bool :=
  match t with
  | net_Server => true
  | net_Socket => false       (* absent, hence falsy *)
  | dgram_Socket => false
  end.

Definition has_postSend (t : handleType) : bool :=
  match t with net_Socket => true | _ => false end.

(** The [instanceof] chain of [_send]. *)
Definition instanceOf (handle : value) : option (handleType * nat) :=
  match handle with
  | VSocket r => Some (net_Socket, r)
  | VServer r => Some (net_Server, r)
  | VDgram r => Some (dgram_Socket, r)
  | _ => None
  end.

Definition update (r : nat) (w : wrapper) (h : nat -> wrapper) : nat -> wrapper :=
  fun r' => if Nat.eqb r' r then w else h r'.

Inductive listType : Type := send_list | got_list.

Definition MAX_HANDLE_RETRANSMISSIONS : Z := 3.

Definition NODE_HANDLE : string := "NODE_HANDLE".
Definition NODE_HANDLE_ACK : string := "NODE_HANDLE_ACK".
Definition NODE_HANDLE_NACK : string := "NODE_HANDLE_NACK".

(** [message && (message.cmd === "NODE_HANDLE_ACK" || message.cmd === "NODE_HANDLE_NACK")] *)
Definition is_reply (message : value) : bool :=
  truthy message
  && (is_str (get_prop message "cmd") NODE_HANDLE_ACK
      || is_str (get_prop message "cmd") NODE_HANDLE_NACK).

(** The four [typeof] tests of [_send] on the message. *)
Definition sendable (message : value) : bool :=
  match typeof message with
  | TString | TObject | TNumber | TBoolean => true
  | _ => false
  end.

Definition is_array (v : value) : bool :=
  match v with VArr _ => true | _ => false end.

(** ** [setupChannel] *)

Section SetupChannel.

(** Whether [$assert] is compiled in: a failed assertion throws in a debug
    build and is skipped in a release build. *)
Variable assertions : bool.

(** [process.platform === "win32"] *)
Variable win32 : bool.

(** The transport and the serialization codec behind it: what the [n]-th
    call of [writeChannelMessage] answers for a message and a handle. *)
Variable writeChannelMessage : nat -> value -> value -> WriteResult.

Definition js_assert (c : bool) : M unit :=
  if c then ret tt else if assertions then throw AssertionError else ret tt.

(** *** [class Control] *)

Definition channel_ref : M unit :=
  tell EChannelRef ;; modify (set_refed true).

Definition channel_unref : M unit :=
  tell EChannelUnref ;; modify (set_refed false).

Definition refCounted : M unit :=
  modify (fun s => set_refs (refs s + 1) s) ;;
  s <- get ;;
  when ((refs s =? 1) && negb (refExplicitlySet s)) channel_ref.

Definition unrefCounted : M unit :=
  modify (fun s => set_refs (refs s - 1) s) ;;
  s <- get ;;
  when ((refs s =? 0) && negb (refExplicitlySet s))
    (channel_unref ;; tell (EControlEmit "unref")).

Definition ref : M unit :=
  modify (set_refExplicitlySet true) ;; channel_ref.

Definition unref : M unit :=
  modify (set_refExplicitlySet true) ;; channel_unref.

(** *** [closePendingHandle] *)

Definition closePendingHandle : M unit :=
  s <- get ;;
  match _pendingMessage s with
  | None => throw TypeError
  | Some p =>
      method_call (PendingMessage.handle p) (EHandleClose (PendingMessage.handle p)) ;;
      modify (set_pendingMessage None)
  end.

(** *** [validateObject] *)

Definition validateObject (v : value) (name : string)
           (allowArray allowFunction nullable : bool) : M unit :=
  if (negb nullable && is_null v)
     || (negb allowArray && is_array v)
     || (negb (jstype_eqb (typeof v) TObject)
         && (negb allowFunction || negb (jstype_eqb (typeof v) TFunction)))
  then throw (ERR_INVALID_ARG_TYPE name)
  else ret tt.

(** *** [getSocketList] *)

Definition getSocketList (type : listType) (key : string) : M unit :=
  s <- get ;;
  if negb (kChannelHandle s) then throw TypeError
  else
    match type with
    | send_list =>
        when (negb (mem key (sockets_send s)))
          (modify (set_sockets_send (sockets_send s ++ [key])))
    | got_list =>
        when (negb (mem key (sockets_got s)))
          (modify (set_sockets_got (sockets_got s ++ [key])))
    end.

(** *** [handleConversion]: the [send] strategies

    Each returns the envelope, which it may have extended, and the raw
    handle. *)

Definition server_send (message : value) (r : nat) (options : value)
  : M (value * value) :=
  s <- get ;;
  ret (message, _handle (objs s r)).

Definition socket_send (message : value) (r : nat) (options : value)
  : M (value * value) :=
  s <- get ;;
  let socket := objs s r in
  if negb (truthy (_handle socket)) then ret (message, VUndefined)
  else
    message <-
      match server socket with
      | Some sv =>
          let key := _connectionKey (objs s sv) in
          let message := set_prop message "key" (VStr key) in
          (if negb (kChannelHandle s) then throw TypeError else ret tt) ;;
          let firstTime := negb (mem key (sockets_send s)) in
          getSocketList send_list key ;;
          when firstTime (tell (ESetupWorker sv key)) ;;
          keepOpen <- getM options "keepOpen" ;;
          when (negb (truthy keepOpen))
            (modify (fun s =>
               let w := objs s sv in
               set_objs (update sv (Wrapper (_handle w) (server w) (_connectionKey w)
                                            (_connections w - 1) (type w))
                                (objs s)) s)) ;;
          ret message
      | None => ret message
      end ;;
    s <- get ;;
    let handle := _handle (objs s r) in
    keepOpen <- getM options "keepOpen" ;;
    when (negb (truthy keepOpen))
      (tell (EHandleDetach handle) ;;
       modify (fun s =>
         let w := objs s r in
         set_objs (update r (Wrapper VNull (server w) (_connectionKey w)
                                     (_connections w) (type w))
                          (objs s)) s) ;;
       tell (ESetTimeout r)) ;;
    ret (message, handle).

Definition dgram_send (message : value) (r : nat) (options : value)
  : M (value * value) :=
  s <- get ;;
  ret (set_prop message "dgramType" (type (objs s r)), _handle (objs s r)).

Definition conversion_send (t : handleType) (message : value) (r : nat)
           (options : value) : M (value * value) :=
  match t with
  | net_Server => server_send message r options
  | net_Socket => socket_send message r options
  | dgram_Socket => dgram_send message r options
  end.

(** *** [handleConversion["net.Socket"].postSend]

    [owner] tells whether the [target] argument was passed. *)

Definition postSend (message handle options callback : value) (owner : bool)
  : M unit :=
  if truthy handle then
    keepOpen <- getM options "keepOpen" ;;
    if negb (truthy keepOpen) then
      if owner then
        s <- get ;;
        js_assert (negb (is_some (_pendingMessage s))) ;;
        modify (set_pendingMessage
                  (Some (PendingMessage.Build callback message handle options 0)))
      else method_call handle (EHandleClose handle)
    else ret tt
  else ret tt.

(** *** [target._send]

    [package] is the part of [_send] that wraps a message with its handle
    and decides between the backlog and the channel; [transmit] is the
    write, from [new WriteWrap()] on, and [settle] what follows it. *)

Inductive packaged : Type :=
| Queued (first : bool)
| Proceed (message handle : value) (obj : option handleType).

(** [ArrayPrototypePush(queue, entry)].  [ArrayPrototypePush] is
    [Array.prototype.push] itself, and [_send] calls it as a plain function:
    [push] runs with no [this], and throws a [TypeError] before it looks at
    its arguments.  (The inner [emit] calls it through [$apply], with the
    array as [this]: there it appends.) *)
Definition ArrayPrototypePush (queue : list QueuedSend.t) (entry : QueuedSend.t)
  : M unit :=
  throw TypeError.

(** The two places where [_send] queues: the push, then
    [return this._handleQueue.length === 1]. *)
Definition enqueue (q : list QueuedSend.t) (entry : QueuedSend.t) : M packaged :=
  ArrayPrototypePush q entry ;;
  s <- get ;;
  ret (Queued (match _handleQueue s with
               | Some q => (List.length q =? 1)%nat
               | None => false
               end)).

Definition package (message handle options callback : value) : M packaged :=
  if truthy handle then
    match instanceOf handle with
    | None => throw ERR_INVALID_HANDLE_TYPE
    | Some (t, r) =>
        let envelope :=
          VObj [("cmd", VStr NODE_HANDLE); ("type", VStr (type_name t));
                ("msg", message)] in
        s <- get ;;
        match _handleQueue s with
        | Some q =>
            enqueue q (QueuedSend.Build callback handle options
                                        (get_prop envelope "msg"))
        | None =>
            let obj := handleConversion (get_prop envelope "type") in
            ' (envelope, raw) <- conversion_send t envelope r options ;;
            let message := if truthy raw then envelope else get_prop envelope "msg" in
            when (match obj with Some o => simultaneousAccepts o | None => false end
                  && win32)
              (method_call raw (ESetSimultaneousAccepts raw true)) ;;
            ret (Proceed message raw obj)
        end
    end
  else
    s <- get ;;
    match _handleQueue s with
    | Some q =>
        if negb (is_reply message)
        then enqueue q (QueuedSend.Build callback VNull options message)
        else ret (Proceed message handle None)
    | None => ret (Proceed message handle None)
    end.

Definition obj_postSend (obj : option handleType) : bool :=
  match obj with Some o => has_postSend o | None => false end.

(** What [_send] does with the answer of the transport. *)
Definition settle (w : WriteResult) (req : nat)
           (message handle options callback : value)
           (obj : option handleType) : M bool :=
  (if err w =? 0 then
     (if truthy handle then
        s <- get ;;
        when (negb (is_some (_handleQueue s))) (modify (set_handleQueue (Some []))) ;;
        when (obj_postSend obj) (postSend message handle options callback true)
      else ret tt) ;;
     (if kLastWriteWasAsync w then
        modify (fun s => set_oncomplete (oncomplete s ++ [(req, callback)]) s) ;;
        refCounted
      else when (is_function callback) (nextTick (TCall callback VNull)))
   else
     when (obj_postSend obj) (postSend message handle options callback false) ;;
     swallowErrors <- getM options "swallowErrors" ;;
     when (negb (truthy swallowErrors))
       (let ex := VError (ErrnoException (err w) "write") in
        if is_function callback then nextTick (TCall callback ex)
        else nextTick (TEmitError ex))) ;;
  s <- get ;;
  ret (writeQueueSize s <? 65536 * 2).

Definition transmit (message handle options callback : value)
           (obj : option handleType) : M bool :=
  s <- get ;;
  let req := writes s in
  let w := writeChannelMessage req message handle in
  tell (EWrite message handle) ;;
  modify (fun s => set_writeQueueSize (queueSize w) (set_writes (S req) s)) ;;
  settle w req message handle options callback obj.

Definition _send (message handle options callback : value) : M bool :=
  s <- get ;;
  js_assert (connected s || channel s) ;;
  if is_undefined message then throw (ERR_MISSING_ARGS "message")
  else if negb (sendable message) then throw (ERR_INVALID_ARG_TYPE "message")
  else
    let options :=
      match options with
      | VBool _ => VObj [("swallowErrors", options)]
      | _ => options
      end in
    p <- package message handle options callback ;;
    match p with
    | Queued first => ret first
    | Proceed message handle obj => transmit message handle options callback obj
    end.

(** [req.oncomplete] of the write numbered [req]. *)
Definition req_oncomplete (req : nat) : M unit :=
  s <- get ;;
  match find (fun x => Nat.eqb (fst x) req) (oncomplete s) with
  | None => ret tt
  | Some (_, callback) =>
      modify (set_oncomplete
                (filter (fun x => negb (Nat.eqb (fst x) req)) (oncomplete s))) ;;
      unrefCounted ;;
      when (is_function callback) (tell (ECall callback VNull))
  end.

(** *** [target.send] *)

Definition send (message handle options callback : value) : M bool :=
  ' (handle, options, callback) <-
    (if is_function handle then ret (VUndefined, VUndefined, handle)
     else if is_function options then ret (handle, VUndefined, options)
     else if negb (is_undefined options) then
       validateObject options "options" false false false ;;
       ret (handle, options, callback)
     else ret (handle, options, callback)) ;;
  let options := VObj (spread [("swallowErrors", VBool false)] options) in
  s <- get ;;
  if connected s then _send message handle options callback
  else
    let ex := VError ERR_IPC_CHANNEL_CLOSED in
    (if is_function callback then nextTick (TCall callback ex)
     else nextTick (TEmitError ex)) ;;
    ret false.

(** *** [target._disconnect] and its [finish] closure *)

(** [target.once(name, finish)]: the emitter first emits ["newListener"],
    whose listener defers a flush, and then registers the closure. *)
Definition once (name : string) (id : nat) : M unit :=
  nextTick TFlush ;;
  if String.eqb name "message"
  then modify (fun s => set_onceMessage (onceMessage s ++ [id]) s)
  else if String.eqb name "internalMessage"
  then modify (fun s => set_onceInternalMessage (onceInternalMessage s ++ [id]) s)
  else ret tt.

Definition _disconnect : M unit :=
  s <- get ;;
  js_assert (channel s) ;;
  modify (set_channel false) ;;
  modify (set_kChannelHandle false) ;;
  s <- get ;;
  when (is_some (_pendingMessage s)) closePendingHandle ;;
  s <- get ;;
  let id := finishCount s in
  modify (set_finishCount (S id)) ;;
  if buffering s then
    once "message" id ;;
    once "internalMessage" id
  else nextTick (TFinish id).

Definition finish (id : nat) : M unit :=
  s <- get ;;
  if existsb (Nat.eqb id) (fired s) then ret tt
  else
    modify (set_fired (id :: fired s)) ;;
    tell EChannelClose ;;
    tell (EEmit "disconnect" []).

(** *** [handleMessage] *)

Definition handleMessage (message handle : value) (internal : bool) : M unit :=
  s <- get ;;
  if negb (channel s) then ret tt
  else
    let eventName := if internal then "internalMessage" else "message" in
    nextTick (TEmit eventName message handle).

(** *** [handleConversion]: the [got] strategies

    [net.Socket] delivers its wrapper at once; a server and a datagram
    socket deliver theirs from the callback of [listen] and [bind], which
    is [got_ready]. *)

Definition new_wrapper (w : wrapper) : M nat :=
  s <- get ;;
  let r := objCount s in
  modify (fun s => set_objCount (S r) (set_objs (update r w (objs s)) s)) ;;
  ret r.

Definition got_ready (message : value) (obj : value) : M unit :=
  handleMessage (get_prop message "msg") obj (isInternal (get_prop message "msg")).

Definition got (t : handleType) (message handle : value) : M unit :=
  match t with
  | net_Server =>
      r <- new_wrapper (Wrapper VUndefined None "" 0 VUndefined) ;;
      tell (EListen r handle)
  | net_Socket =>
      r <- new_wrapper (Wrapper handle None "" 0 VUndefined) ;;
      (if truthy (get_prop message "key") then
         let key := property_key (get_prop message "key") in
         getSocketList got_list key ;;
         tell (ESocketListAdd key r)
       else ret tt) ;;
      got_ready message (VSocket r)
  | dgram_Socket =>
      r <- new_wrapper (Wrapper VUndefined None "" 0 (get_prop message "dgramType")) ;;
      tell (EBind r handle)
  end.

(** *** The ["internalMessage"] listener *)

Definition resend (message handle options callback : value) : M unit :=
  _send message handle options callback ;; ret tt.

Definition onInternalMessage (message handle : value) : M unit :=
  cmd <- getM message "cmd" ;;
  if is_str cmd NODE_HANDLE_ACK || is_str cmd NODE_HANDLE_NACK then
    s <- get ;;
    match _pendingMessage s with
    | Some p =>
        if is_str cmd NODE_HANDLE_ACK then closePendingHandle
        else
          let n := PendingMessage.retransmissions p in
          modify (set_pendingMessage
                    (Some (PendingMessage.Build
                             (PendingMessage.callback p) (PendingMessage.message p)
                             (PendingMessage.handle p) (PendingMessage.options p)
                             (n + 1)))) ;;
          if n =? MAX_HANDLE_RETRANSMISSIONS then
            closePendingHandle ;;
            tell (EWarning "Handle did not reach the receiving process correctly"
                           "SentHandleNotReceivedWarning")
          else ret tt
    | None => ret tt
    end ;;
    s <- get ;;
    js_assert (is_some (_handleQueue s)) ;;
    let queue := _handleQueue s in
    modify (set_handleQueue None) ;;
    s <- get ;;
    match _pendingMessage s with
    | Some p =>
        resend (PendingMessage.message p) (PendingMessage.handle p)
               (PendingMessage.options p) (PendingMessage.callback p)
    | None => ret tt
    end ;;
    match queue with
    | None => throw TypeError
    | Some queue =>
        forEach (fun args =>
                   resend (QueuedSend.message args) (QueuedSend.handle args)
                          (QueuedSend.options args) (QueuedSend.callback args))
                queue
    end ;;
    s <- get ;;
    when (negb (connected s) && channel s && negb (is_some (_handleQueue s)))
      _disconnect
  else if negb (is_str cmd NODE_HANDLE) then ret tt
  else if negb (truthy handle) then
    resend (VObj [("cmd", VStr NODE_HANDLE_NACK)]) VNull (VBool true) VUndefined
  else
    resend (VObj [("cmd", VStr NODE_HANDLE_ACK)]) VNull (VBool true) VUndefined ;;
    let obj := handleConversion (get_prop message "type") in
    when win32 (method_call handle (ESetSimultaneousAccepts handle false)) ;;
    match obj with
    | None => throw TypeError
    | Some t => got t message handle
    end.

(** *** [target.emit], the inner [emit] and the deferred flush *)

Definition listenerCount_message (s : state) : nat :=
  (messageListeners s + List.length (onceMessage s))%nat.

(** [target.emit(name, ...args)]: the call is recorded for the user's
    listeners, then the listeners this module registered run.  The emitter
    calls the listeners the event had when the emit began: a [finish]
    closure that the ["internalMessage"] listener registers (through
    [_disconnect]) waits for the next emit.  A [once] listener is removed
    when it is called. *)
Definition target_emit (name : string) (args : list value) : M unit :=
  tell (EEmit name args) ;;
  if String.eqb name "internalMessage" then
    s <- get ;;
    let listeners := onceInternalMessage s in
    onInternalMessage (nth 0 args VUndefined) (nth 1 args VUndefined) ;;
    modify (fun s =>
              set_onceInternalMessage
                (filter (fun id => negb (existsb (Nat.eqb id) listeners))
                        (onceInternalMessage s)) s) ;;
    forEach finish listeners
  else if String.eqb name "message" then
    s <- get ;;
    modify (set_onceMessage []) ;;
    forEach finish (onceMessage s)
  else if String.eqb name "error" then unheard args
  else ret tt.

Definition emit (event : string) (message handle : value) : M unit :=
  s <- get ;;
  if String.eqb "internalMessage" event || (0 <? listenerCount_message s)%nat
  then target_emit event [message; handle]
  else if negb (channel s) then throw TypeError
  else modify (set_kPendingMessages (kPendingMessages s ++ [(event, message, handle)])).

(** The closure the ["newListener"] listener hands to [process.nextTick]. *)
Definition flush : M unit :=
  s <- get ;;
  if negb (channel s) || (listenerCount_message s =? 0)%nat then ret tt
  else
    let messages := kPendingMessages s in
    if (List.length messages =? 0)%nat then ret tt
    else
      forEach (fun m => target_emit (fst (fst m)) [snd (fst m); snd m]) messages ;;
      s <- get ;;
      if negb (channel s) then throw TypeError
      else modify (set_kPendingMessages []).

(** *** [target.disconnect] *)

Definition disconnect : M unit :=
  s <- get ;;
  if negb (connected s) then emit_error (VError ERR_IPC_DISCONNECTED)
  else
    modify (set_connected false) ;;
    s <- get ;;
    when (negb (is_some (_handleQueue s))) _disconnect.

(** *** [maybeClose] and [channel.onread] *)

Definition maybeClose : M unit :=
  modify (fun s => set_closesGot (_closesGot s + 1) s) ;;
  s <- get ;;
  when (_closesGot s =? _closesNeeded s)
    (tell (EEmit "close" [exitCode s; signalCode s])).

(** [recvHandle] is [channel.pendingHandle] as the transport left it;
    [chunk] is the list [parseChannelMessages] decodes, or [None] when
    [arrayBuffer] is falsy. *)
Definition onread (recvHandle : value) (chunk : option (list value)) : M unit :=
  match chunk with
  | Some messages =>
      when (truthy recvHandle) (modify (set_pendingHandle recvHandle)) ;;
      forEach (fun message =>
                 if isInternal message then
                   if is_str (get_prop message "cmd") NODE_HANDLE then
                     s <- get ;;
                     handleMessage message (pendingHandle s) true ;;
                     modify (set_pendingHandle VNull)
                   else handleMessage message VUndefined true
                 else handleMessage message VUndefined false)
              messages
  | None =>
      modify (set_buffering false) ;;
      disconnect ;;
      modify (set_onread_live false) ;;
      tell EChannelClose ;;
      modify (set_channel false) ;;
      maybeClose
  end.

(** *** The body of [setupChannel] *)

Definition setupChannel : M unit :=
  modify (set_refs 0) ;;
  modify (set_refExplicitlySet false) ;;
  modify (set_kPendingMessages []) ;;
  modify (set_channel true) ;;
  modify (set_kChannelHandle true) ;;
  modify (set_handleQueue None) ;;
  modify (set_pendingMessage None) ;;
  modify (set_pendingHandle VNull) ;;
  modify (set_onread_live true) ;;
  modify (set_sockets_got []) ;;
  modify (set_sockets_send []) ;;
  modify (set_connected true) ;;
  tell EReadStart.

(** ** The event loop

    What can happen to a channel once it is set up: a call of the public
    surface, a read of the transport, a tick of [process.nextTick], the
    completion of a write, a listener added or removed, the callback of a
    [listen] or [bind] started by [got], the codec toggling
    [channel.buffering]. *)

Inductive op : Type :=
| Send (message handle options callback : value)
| Disconnect
| Read (recvHandle : value) (chunk : option (list value))
| Tick
| Complete (req : nat)
| AddListener (name : string)
| RemoveListener (name : string)
| Ready (message obj : value)
| Ref
| Unref
| Buffering (b : bool).

Definition run_task (t : task) : M unit :=
  match t with
  | TCall callback arg => tell (ECall callback arg)
  | TEmitError ex => emit_error ex
  | TEmit eventName message handle => emit eventName message handle
  | TFlush => flush
  | TFinish id => finish id
  end.

Definition tick : M unit :=
  s <- get ;;
  match ticks s with
  | [] => ret tt
  | t :: rest => modify (set_ticks rest) ;; run_task t
  end.

Definition addListener (name : string) : M unit :=
  nextTick TFlush ;;
  when (String.eqb name "message")
    (modify (fun s => set_messageListeners (S (messageListeners s)) s)) ;;
  when (String.eqb name "error")
    (modify (fun s => set_errorListeners (S (errorListeners s)) s)).

Definition removeListener (name : string) : M unit :=
  when (String.eqb name "message")
    (modify (fun s => set_messageListeners (pred (messageListeners s)) s)) ;;
  when (String.eqb name "error")
    (modify (fun s => set_errorListeners (pred (errorListeners s)) s)).

Definition step (o : op) : M unit :=
  match o with
  | Send message handle options callback =>
      send message handle options callback ;; ret tt
  | Disconnect => disconnect
  | Read recvHandle chunk =>
      s <- get ;;
      when (onread_live s) (onread recvHandle chunk)
  | Tick => tick
  | Complete req => req_oncomplete req
  | AddListener name => addListener name
  | RemoveListener name => removeListener name
  | Ready message obj => got_ready message obj
  | Ref => ref
  | Unref => unref
  | Buffering b => modify (set_buffering b)
  end.

(** A run of the loop stops at the first uncaught exception. *)
Fixpoint steps (l : list op) : M unit :=
  match l with
  | [] => ret tt
  | o :: rest => step o ;; steps rest
  end.

End SetupChannel.

(** * Properties *)

(** ** Vocabulary of the statements *)

(** A relation between the state before and the state after holds of a
    computation when it holds of every run, thrown or returned. *)
Definition keeps (R : state -> state -> Prop) {A : Type} (m : M A) : Prop :=
  forall s, R s (after (m s)).

(** [connected] is never set again once it is cleared. *)
Definition stays_disconnected (s s' : state) : Prop :=
  connected s = false -> connected s' = false.

(** [target.channel] is never set again once it is null. *)
Definition channel_stays_down (s s' : state) : Prop :=
  channel s = false -> channel s' = false.

(** The trace only grows, and by events that satisfy [P]. *)
Definition appends (P : event -> Prop) (s s' : state) : Prop :=
  exists l, trace s' = (trace s ++ l)%list /\ Forall P l.

(** An event that hands something to the user's ["message"] listeners. *)
Definition is_message_event (e : event) : Prop :=
  exists args, e = EEmit "message" args.

(** An event that puts a handle on the channel. *)
Definition writes_handle (e : event) : Prop :=
  exists message handle, e = EWrite message handle /\ truthy handle = true.

(** The automatic entry points of [Control]. *)
Inductive automatic : Type := RefCounted | UnrefCounted.

Definition run_automatic (a : automatic) : M unit :=
  match a with
  | RefCounted => refCounted
  | UnrefCounted => unrefCounted
  end.

(** [send] rejects its [options] argument: it is looked at only when neither
    [handle] nor [options] is a function and [options] is not [undefined]. *)
Definition options_rejected (handle options : value) : bool :=
  negb (is_function handle) && negb (is_function options)
  && negb (is_undefined options)
  && (is_null options || is_array options
      || negb (jstype_eqb (typeof options) TObject)).

(** The callback [send] ends up with after it has shifted its arguments. *)
Definition callback_of (handle options callback : value) : value :=
  if is_function handle then handle
  else if is_function options then options
  else callback.

(** The deferred report of [ERR_IPC_CHANNEL_CLOSED]. *)
Definition closed_task (callback : value) : task :=
  if is_function callback then TCall callback (VError ERR_IPC_CHANNEL_CLOSED)
  else TEmitError (VError ERR_IPC_CHANNEL_CLOSED).

(** The event name [channel.onread] picks for a decoded message. *)
Definition event_name (message : value) : string :=
  if isInternal message then "internalMessage" else "message".

(** The event name and the message a deferred [emit] carries. *)
Definition envelope_of (t : task) : option (string * value) :=
  match t with
  | TEmit eventName message _ => Some (eventName, message)
  | _ => None
  end.

(** The condition of a [$assert] is met, or assertions are compiled out. *)
Definition asserted (assertions c : bool) : Prop :=
  assertions = false \/ c = true.

(** A computation returns only values that satisfy [Q]. *)
Definition returns {A : Type} (Q : A -> Prop) (m : M A) : Prop :=
  forall s a s', m s = (Ret a, s') -> Q a.

(** The legacy signature of [_send]: a boolean third argument stands for
    [{ swallowErrors: options }]. *)
Definition legacy (options : value) : value :=
  match options with
  | VBool _ => VObj [("swallowErrors", options)]
  | _ => options
  end.

(** The handle and the options [send] passes on to [_send]. *)
Definition handle_of (handle : value) : value :=
  if is_function handle then VUndefined else handle.

Definition options_of (handle options : value) : value :=
  VObj (spread [("swallowErrors", VBool false)]
               (if is_function handle || is_function options
                then VUndefined else options)).

(** *** Concrete channels *)

Definition no_wrapper : wrapper := Wrapper VNull None "" 0 VUndefined.

(** A target before [setupChannel]. *)
Definition blank : state :=
  State false false false None None 0 1 VNull VNull 0%nat 0%nat [] [] VUndefined
        [] 0%nat false false 0 0%nat true [] [] 0 false [] (fun _ => no_wrapper)
        0%nat [] [] [].

(** A channel right after [setupChannel]. *)
Definition fresh : state := after (setupChannel blank).

(** The same, with a connected [net.Socket] at reference 0 whose raw handle
    is the host object 7. *)
Definition with_socket : state :=
  set_objs (update 0%nat (Wrapper (VNative 7) None "" 0 VUndefined) (objs fresh))
           fresh.

(** A transport that accepts every write at once and keeps nothing queued. *)
Definition quiet : nat -> value -> value -> WriteResult :=
  fun _ _ _ => WriteRes 0 false 0.

(** [with_socket] after [send("hi", socket)]: the handle is on the channel
    and its acknowledgment is awaited. *)
Definition awaiting : state :=
  after (send false false quiet (VStr "hi") (VSocket 0) VUndefined VUndefined
              with_socket).

(** [awaiting] after [disconnect()]: disconnected, the channel still up. *)
Definition draining : state := after (disconnect false awaiting).

(** [fresh] after [disconnect()]: disconnected, the channel gone. *)
Definition closed : state := after (disconnect false fresh).

(** A [NODE_HANDLE] message for a socket, as the peer sends it. *)
Definition handle_message : value :=
  VObj [("cmd", VStr NODE_HANDLE); ("type", VStr "net.Socket"); ("msg", VNum 1)].

(** *** Vocabulary of the further properties *)

(** A computation throws only errors that satisfy [Q]. *)
Definition raises {A : Type} (Q : error -> Prop) (m : M A) : Prop :=
  forall s e s', m s = (Throw e, s') -> Q e.

(** The errors [send] throws at its caller: the rejections of its arguments,
    and the two the runtime raises (a method called on a missing handle, a
    failed [$assert]). *)
Definition thrown_by_send (e : error) : Prop :=
  In e [ERR_MISSING_ARGS "message"; ERR_INVALID_ARG_TYPE "message";
        ERR_INVALID_ARG_TYPE "options"; ERR_INVALID_HANDLE_TYPE;
        TypeError; AssertionError].

(** The deferred report of a failed write. *)
Definition write_error_task (callback : value) (errno : Z) : task :=
  if is_function callback
  then TCall callback (VError (ErrnoException errno "write"))
  else TEmitError (VError (ErrnoException errno "write")).

(** The envelope [_send] builds around a message that carries a handle. *)
Definition envelope (t : handleType) (message : value) : value :=
  VObj [("cmd", VStr NODE_HANDLE); ("type", VStr (type_name t)); ("msg", message)].

(** The raw handle a [send] strategy hands back for a wrapper that has
    none left: [net.Socket] returns nothing, the other two return the
    falsy [_handle] itself. *)
Definition missing_handle (t : handleType) (w : wrapper) : value :=
  match t with
  | net_Socket => VUndefined
  | _ => _handle w
  end.

(** A transport on which every write fails at once with [EPIPE]. *)
Definition broken : nat -> value -> value -> WriteResult :=
  fun _ _ _ => WriteRes (-32) false 0.

(** [fresh] with a listening [net.Server] at reference 1, whose raw handle
    is the host object 8, and a socket it accepted at reference 2, whose raw
    handle is the host object 9. *)
Definition with_server : state :=
  set_objs (update 2%nat (Wrapper (VNative 9) (Some 1%nat) "" 0 VUndefined)
              (update 1%nat (Wrapper (VNative 8) None "4:0.0.0.0:80" 1 VUndefined)
                      (objs fresh)))
           fresh.

(** The messages and handles put on the channel, in order. *)
Fixpoint writes_of (l : list event) : list (value * value) :=
  match l with
  | [] => []
  | EWrite message handle :: rest => (message, handle) :: writes_of rest
  | _ :: rest => writes_of rest
  end.

(** A backlog entry without a handle, as [_send] builds it: a message that
    passed the checks of [_send], and an options object. *)
Definition plain_entry (e : QueuedSend.t) : Prop :=
  truthy (QueuedSend.handle e) = false
  /\ is_undefined (QueuedSend.message e) = false
  /\ sendable (QueuedSend.message e) = true
  /\ exists props, QueuedSend.options e = VObj props.

(** Nothing is put on the channel. *)
Definition writes_nothing (s s' : state) : Prop :=
  writes_of (trace s') = writes_of (trace s).

(** What the receiving side needs of a message that comes with a handle of
    the class [t]: its dispatch takes it for an internal [NODE_HANDLE]
    message, its [type] names the conversion of [t], and its [msg] is the
    message that was sent. *)
Definition carries (wire : value) (t : handleType) (message : value) : Prop :=
  isInternal wire = true
  /\ is_str (get_prop wire "cmd") NODE_HANDLE = true
  /\ handleConversion (get_prop wire "type") = Some t
  /\ get_prop wire "msg" = message.

(** The acknowledgment the receiving side writes. *)
Definition ACK : value := VObj [("cmd", VStr NODE_HANDLE_ACK)].

(** The event by which [got] starts a server or a datagram socket on a
    received handle. *)
Definition starts (t : handleType) (r : nat) (handle : value) : event :=
  match t with
  | dgram_Socket => EBind r handle
  | _ => EListen r handle
  end.

(** The wrapper [got] builds around a received handle. *)
Definition rebuilt (t : handleType) (r : nat) : value :=
  match t with
  | net_Server => VServer r
  | net_Socket => VSocket r
  | dgram_Socket => VDgram r
  end.

(** What a sequence of counted calls adds to the counter. *)
Fixpoint balance (calls : list automatic) : Z :=
  match calls with
  | [] => 0
  | RefCounted :: rest => 1 + balance rest
  | UnrefCounted :: rest => balance rest - 1
  end.

(** The counter of [Control] against the writes in flight: the counter is
    the number of completions awaited, every one of them belongs to a write
    numbered below [n], no two to the same write, and the channel is
    referenced while one is awaited unless the user chose otherwise. *)
Definition in_flight (n : nat) (s : state) : Prop :=
  refs s = Z.of_nat (List.length (oncomplete s))
  /\ NoDup (map fst (oncomplete s))
  /\ Forall (fun x => (fst x < n)%nat) (oncomplete s)
  /\ (refExplicitlySet s = false -> oncomplete s <> [] -> refed s = true).

(** The books balance for the writes made so far. *)
Definition accounted (s : state) : Prop := in_flight (writes s) s.

(** [accounted] is kept. *)
Definition stays_accounted (s s' : state) : Prop := accounted s -> accounted s'.

(** The books of the writes below [n] become those of the writes below
    [m], and no write is made. *)
Definition settles (n m : nat) (s s' : state) : Prop :=
  (in_flight n s -> in_flight m s') /\ writes s' = writes s.

(** A transport that completes every write later. *)
Definition slow : nat -> value -> value -> WriteResult :=
  fun _ _ _ => WriteRes 0 true 0.

(** A target that reads the rest of a message: [fresh] with
    [channel.buffering] set. *)
Definition reading : state := set_buffering true fresh.

(** The state [disconnect] leaves on a target that reads the rest of a
    message: the channel is dropped and the [finish] closure waits for both
    events. *)
Definition waiting (s : state) : state :=
  set_onceInternalMessage [finishCount s]
    (set_ticks (ticks s ++ [TFlush; TFlush])
       (set_onceMessage [finishCount s]
          (set_finishCount (S (finishCount s))
             (set_kChannelHandle false
                (set_channel false (set_connected false s)))))).

(** An event that runs code of the user: a callback that is called, or an
    event emitted on the target. *)
Definition runs_user_code (e : event) : Prop :=
  match e with
  | ECall _ _ | EEmit _ _ => True
  | _ => False
  end.

(** [send(message)], with no handle, options or callback. *)
Definition plain (message : value) : op :=
  Send message VUndefined VUndefined VUndefined.

(** The acknowledgment of the peer is read and its tick runs. *)
Definition acknowledged : list op := [Read VUndefined (Some [ACK]); Tick].

(** A message [_send] accepts. *)
Definition accepted (message : value) : Prop :=
  is_undefined message = false /\ sendable message = true.

(** ** Tactics *)

(** Unfold the monad and compute. *)
Ltac run :=
  unfold js_assert, method_call, getM, tell, nextTick, when;
  unfold bind, get, modify, ret, throw; cbn.

(** Rewrite with every equation of the context while the goal computes. *)
Ltac known :=
  repeat (progress (cbn;
    repeat match goal with
           | H : _ = _ |- _ => progress (rewrite H)
           end)).

(** Close a goal about a state that was computed: its conjuncts hold by
    computation, its trace is the old one and a list to be found. *)
Ltac written :=
  cbn; rewrite <- ?app_assoc; cbn;
  repeat match goal with
         | |- _ /\ _ => split
         | |- exists _, _ => eexists
         | |- _ = _ => reflexivity
         | |- _ \/ _ => first [left; reflexivity | right; reflexivity]
         end.

(** ** Relations kept by every computation *)

Section Keeps.
Variable R : state -> state -> Prop.
Hypothesis R_refl : forall s, R s s.
Hypothesis R_trans : forall a b c, R a b -> R b c -> R a c.

Lemma keeps_ret {A : Type} (a : A) : keeps R (ret a).
Proof. intros s. apply R_refl. Qed.

Lemma keeps_throw {A : Type} (e : error) : keeps R (@throw A e).
Proof. intros s. apply R_refl. Qed.

Lemma keeps_get : keeps R get.
Proof. intros s. apply R_refl. Qed.

Lemma keeps_modify (f : state -> state) :
  (forall s, R s (f s)) -> keeps R (modify f).
Proof. intros H s. apply H. Qed.

Lemma keeps_bind {A B : Type} (m : M A) (k : A -> M B) :
  keeps R m -> (forall a, keeps R (k a)) -> keeps R (bind m k).
Proof.
  intros Hm Hk s. unfold bind, after. specialize (Hm s). unfold after in Hm.
  destruct (m s) as [[a|e] s1]; cbn in *.
  - eapply R_trans; [exact Hm|]. apply Hk.
  - exact Hm.
Qed.

Lemma keeps_when (b : bool) (m : M unit) : keeps R m -> keeps R (when b m).
Proof. intros H. destruct b; cbn; [exact H|apply keeps_ret]. Qed.

Lemma keeps_forEach {A : Type} (f : A -> M unit) (l : list A) :
  (forall a, keeps R (f a)) -> keeps R (forEach f l).
Proof.
  intros H. induction l; cbn.
  - apply keeps_ret.
  - apply keeps_bind; auto.
Qed.
End Keeps.

(** ** Runs that return *)

Lemma bind_inv {A B : Type} (m : M A) (k : A -> M B) s b s' :
  bind m k s = (Ret b, s') ->
  exists a s1, m s = (Ret a, s1) /\ k a s1 = (Ret b, s').
Proof.
  unfold bind. destruct (m s) as [[a|e] s1]; intros H.
  - exists a, s1. auto.
  - discriminate.
Qed.

Lemma bind_returned {A B : Type} (m : M A) (k : A -> M B) s a :
  result (m s) = Ret a -> bind m k s = k a (after (m s)).
Proof.
  unfold bind, result, after. destruct (m s) as [[a'|e] s1]; cbn; intros H.
  - injection H as ->. reflexivity.
  - discriminate.
Qed.

Lemma bind_get_result {A B : Type} (m : M A) (f : state -> B) s b :
  result ((m ;; s' <- get ;; ret (f s')) s) = Ret b ->
  b = f (after ((m ;; s' <- get ;; ret (f s')) s)).
Proof.
  unfold bind, get, ret, result, after. destruct (m s) as [[a|e] s1]; cbn; congruence.
Qed.

Lemma returns_ret {A : Type} (Q : A -> Prop) (a : A) : Q a -> returns Q (ret a).
Proof. intros H s a' s' E. injection E as <- _. exact H. Qed.

Lemma returns_throw {A : Type} (Q : A -> Prop) e : returns Q (@throw A e).
Proof. intros s a s' E. discriminate. Qed.

Lemma returns_bind {A B : Type} (P : A -> Prop) (Q : B -> Prop)
      (m : M A) (k : A -> M B) :
  returns P m -> (forall a, P a -> returns Q (k a)) -> returns Q (bind m k).
Proof.
  intros Hm Hk s b s' E. apply bind_inv in E as (a & s1 & Ea & Eb).
  exact (Hk a (Hm _ _ _ Ea) _ _ _ Eb).
Qed.

Lemma returns_then {A B : Type} (Q : B -> Prop) (m : M A) (k : A -> M B) :
  (forall a, returns Q (k a)) -> returns Q (bind m k).
Proof.
  intros Hk. apply (returns_bind (fun _ => True)); [intros ? ? ? ?; exact I | auto].
Qed.

(** Walk through a computation, leaving to [tac] the reflexivity and
    transitivity of the relation, its field updates and the calls already
    proved. *)
Ltac keeps_with tac :=
  repeat first
    [ solve [tac]
    | apply keeps_ret; tac
    | apply keeps_throw; tac
    | apply keeps_get; tac
    | apply keeps_when; try tac
    | apply keeps_forEach; [tac | tac | intros]
    | apply keeps_bind; [tac | | intros]
    | apply keeps_modify; tac
    | match goal with
      | |- keeps _ (match ?x with _ => _ end) => destruct x
      end
    | progress cbv zeta ].

Lemma stays_refl s : stays_disconnected s s.
Proof. intros H; exact H. Qed.

Lemma stays_trans a b c :
  stays_disconnected a b -> stays_disconnected b c -> stays_disconnected a c.
Proof. unfold stays_disconnected; auto. Qed.

Lemma appends_refl P s : appends P s s.
Proof. exists []. split; [symmetry; apply app_nil_r | constructor]. Qed.

Lemma appends_trans P a b c : appends P a b -> appends P b c -> appends P a c.
Proof.
  intros (l1 & H1 & F1) (l2 & H2 & F2). exists (l1 ++ l2)%list. split.
  - rewrite H2, H1. symmetry. apply app_assoc.
  - apply Forall_app; auto.
Qed.

Lemma appends_one (P : event -> Prop) s s' e :
  trace s' = (trace s ++ [e])%list -> P e -> appends P s s'.
Proof. intros H He. exists [e]. split; [exact H | repeat constructor; exact He]. Qed.

Lemma appends_none (P : event -> Prop) s s' :
  trace s' = trace s -> appends P s s'.
Proof. intros H. exists []. split; [rewrite H; symmetry; apply app_nil_r | constructor]. Qed.

Lemma down_refl s : channel_stays_down s s.
Proof. intros H; exact H. Qed.

Lemma down_trans a b c :
  channel_stays_down a b -> channel_stays_down b c -> channel_stays_down a c.
Proof. unfold channel_stays_down; auto. Qed.

Create HintDb lifecycle.
Create HintDb teardown.
Create HintDb tracing.

Ltac teardown :=
  keeps_with ltac:(first [ exact down_refl | exact down_trans
                          | solve [intros ? H; first [exact H | reflexivity]]
                          | solve [auto with teardown] ]).

Ltac lifecycle :=
  keeps_with ltac:(first [ exact stays_refl | exact stays_trans
                          | solve [intros ? H; first [exact H | reflexivity]]
                          | solve [auto with lifecycle] ]).

(** ** [Control]: explicit [ref]/[unref] against the counted ones *)

Lemma refCounted_inert s :
  refExplicitlySet s = true ->
  refCounted s = (Ret tt, set_refs (refs s + 1) s).
Proof.
  intros H. unfold refCounted. run. rewrite H, andb_false_r. reflexivity.
Qed.

Lemma unrefCounted_inert s :
  refExplicitlySet s = true ->
  unrefCounted s = (Ret tt, set_refs (refs s - 1) s).
Proof.
  intros H. unfold unrefCounted. run. rewrite H, andb_false_r. reflexivity.
Qed.

Lemma automatic_inert calls : forall s,
  refExplicitlySet s = true ->
  result (forEach run_automatic calls s) = Ret tt
  /\ refExplicitlySet (after (forEach run_automatic calls s)) = true
  /\ refed (after (forEach run_automatic calls s)) = refed s
  /\ trace (after (forEach run_automatic calls s)) = trace s.
Proof.
  induction calls as [|a calls IH]; intros s H.
  - cbn. auto.
  - cbn [forEach]. unfold bind.
    destruct a; cbn [run_automatic].
    + rewrite (refCounted_inert s H).
      destruct (IH (set_refs (refs s + 1) s) H) as (? & ? & ? & ?). auto.
    + rewrite (unrefCounted_inert s H).
      destruct (IH (set_refs (refs s - 1) s) H) as (? & ? & ? & ?). auto.
Qed.

(** C9.  After an explicit [ref()] the channel is referenced, after an
    explicit [unref()] it is not, and no sequence of [refCounted] and
    [unrefCounted] calls that follows changes that or reaches the channel at
    all: the calls all return, the flag stays set, the channel's reference
    state is the one the explicit call left and the trace gains no
    [channel.ref()], [channel.unref()] or ["unref"] event. *)
Theorem explicit_ref_silences_counted (calls : list automatic) (s : state) :
  let s1 := after (ref s) in
  let s2 := after (unref s) in
  (refed s1 = true
   /\ result (forEach run_automatic calls s1) = Ret tt
   /\ refExplicitlySet (after (forEach run_automatic calls s1)) = true
   /\ refed (after (forEach run_automatic calls s1)) = true
   /\ trace (after (forEach run_automatic calls s1)) = trace s1)
  /\ (refed s2 = false
      /\ result (forEach run_automatic calls s2) = Ret tt
      /\ refExplicitlySet (after (forEach run_automatic calls s2)) = true
      /\ refed (after (forEach run_automatic calls s2)) = false
      /\ trace (after (forEach run_automatic calls s2)) = trace s2).
Proof.
  cbn zeta. split.
  - destruct (automatic_inert calls (after (ref s)) eq_refl) as (Hres & Hf & Hr & Ht).
    rewrite Hr. auto.
  - destruct (automatic_inert calls (after (unref s)) eq_refl) as (Hres & Hf & Hr & Ht).
    rewrite Hr. auto.
Qed.

(** ** The lifecycle of [connected] *)

Section Lifecycle.
Variables assertions win32 : bool.
Variable W : nat -> value -> value -> WriteResult.

Local Abbreviation K := (keeps stays_disconnected).

Lemma K_tell e : K (tell e).
Proof. unfold tell. lifecycle. Qed.

Lemma K_nextTick t : K (nextTick t).
Proof. unfold nextTick. lifecycle. Qed.

Lemma K_getM v k : K (getM v k).
Proof. unfold getM. lifecycle. Qed.

Lemma K_assert c : K (js_assert assertions c).
Proof. unfold js_assert. lifecycle. Qed.

Hint Resolve K_tell K_nextTick K_getM K_assert : lifecycle.

Lemma K_method_call h e : K (method_call h e).
Proof. unfold method_call. lifecycle. Qed.

Hint Resolve K_method_call : lifecycle.

Lemma K_refCounted : K refCounted.
Proof. unfold refCounted, channel_ref. lifecycle. Qed.

Lemma K_unrefCounted : K unrefCounted.
Proof. unfold unrefCounted, channel_unref. lifecycle. Qed.

Lemma K_ref : K ref.
Proof. unfold ref, channel_ref. lifecycle. Qed.

Lemma K_unref : K unref.
Proof. unfold unref, channel_unref. lifecycle. Qed.

Lemma K_closePendingHandle : K closePendingHandle.
Proof. unfold closePendingHandle. lifecycle. Qed.

Hint Resolve K_refCounted K_unrefCounted K_ref K_unref K_closePendingHandle
  : lifecycle.

Lemma K_getSocketList t k : K (getSocketList t k).
Proof. unfold getSocketList. lifecycle. Qed.

Hint Resolve K_getSocketList : lifecycle.

Lemma K_conversion_send t m r o : K (conversion_send t m r o).
Proof. unfold conversion_send, server_send, socket_send, dgram_send. lifecycle. Qed.

Lemma K_postSend m h o c b : K (postSend assertions m h o c b).
Proof. unfold postSend. lifecycle. Qed.

Hint Resolve K_conversion_send K_postSend : lifecycle.

Lemma K_package m h o c : K (package win32 m h o c).
Proof. unfold package, enqueue. lifecycle. Qed.

Lemma K_settle w r m h o c obj : K (settle assertions w r m h o c obj).
Proof. unfold settle. lifecycle. Qed.

Hint Resolve K_package K_settle : lifecycle.

Lemma K_transmit m h o c obj : K (transmit assertions W m h o c obj).
Proof. unfold transmit. lifecycle. Qed.

Hint Resolve K_transmit : lifecycle.

Lemma K__send m h o c : K (_send assertions win32 W m h o c).
Proof. unfold _send. lifecycle. Qed.

Hint Resolve K__send : lifecycle.

Lemma K_send m h o c : K (send assertions win32 W m h o c).
Proof. unfold send, validateObject. lifecycle. Qed.

Lemma K_once n i : K (once n i).
Proof. unfold once. lifecycle. Qed.

Hint Resolve K_send K_once : lifecycle.

Lemma K__disconnect : K (_disconnect assertions).
Proof. unfold _disconnect. lifecycle. Qed.

Lemma K_finish i : K (finish i).
Proof. unfold finish. lifecycle. Qed.

Lemma K_handleMessage m h b : K (handleMessage m h b).
Proof. unfold handleMessage. lifecycle. Qed.

Hint Resolve K__disconnect K_finish K_handleMessage : lifecycle.

Lemma K_got t m h : K (got t m h).
Proof. unfold got, got_ready, new_wrapper. lifecycle. Qed.

Hint Resolve K_got : lifecycle.

Lemma K_onInternalMessage m h : K (onInternalMessage assertions win32 W m h).
Proof. unfold onInternalMessage, resend. lifecycle. Qed.

Hint Resolve K_onInternalMessage : lifecycle.

Lemma K_target_emit n a : K (target_emit assertions win32 W n a).
Proof. unfold target_emit. lifecycle. Qed.

Hint Resolve K_target_emit : lifecycle.

Lemma K_emit e m h : K (emit assertions win32 W e m h).
Proof. unfold emit. lifecycle. Qed.

Lemma K_flush : K (flush assertions win32 W).
Proof. unfold flush. lifecycle. Qed.

Lemma K_disconnect : K (disconnect assertions).
Proof. unfold disconnect. lifecycle. Qed.

Hint Resolve K_emit K_flush K_disconnect : lifecycle.

Lemma K_onread h c : K (onread assertions h c).
Proof. unfold onread, maybeClose. lifecycle. Qed.

Lemma K_req_oncomplete r : K (req_oncomplete r).
Proof. unfold req_oncomplete. lifecycle. Qed.

Hint Resolve K_onread K_req_oncomplete : lifecycle.

Lemma K_step o : K (step assertions win32 W o).
Proof.
  unfold step, tick, run_task, addListener, removeListener, got_ready. lifecycle.
Qed.

Lemma disconnect_again s :
  connected s = false ->
  disconnect assertions s
  = (if (0 <? errorListeners s)%nat then Ret tt else Throw ERR_IPC_DISCONNECTED,
     set_trace (trace s ++ [EEmit "error" [VError ERR_IPC_DISCONNECTED]]) s).
Proof.
  intros H. unfold disconnect, emit_error, unheard. run. known.
  destruct (errorListeners s); reflexivity.
Qed.

Lemma disconnect_deferred s q :
  connected s = true -> _handleQueue s = Some q ->
  disconnect assertions s = (Ret tt, set_connected false s).
Proof.
  intros H Hq. unfold disconnect. run. known. reflexivity.
Qed.

Lemma disconnect_immediate s :
  connected s = true -> channel s = true ->
  _handleQueue s = None -> _pendingMessage s = None ->
  disconnect assertions s
  = (Ret tt,
     let s1 := set_finishCount (S (finishCount s))
                 (set_kChannelHandle false
                    (set_channel false (set_connected false s))) in
     if buffering s
     then set_onceInternalMessage (onceInternalMessage s ++ [finishCount s])
            (set_onceMessage (onceMessage s ++ [finishCount s])
               (set_ticks (ticks s ++ [TFlush; TFlush]) s1))
     else set_ticks (ticks s ++ [TFinish (finishCount s)]) s1).
Proof.
  intros H Hc Hq Hp. unfold disconnect, _disconnect, once. run.
  known. destruct (buffering s); cbn.
  - rewrite <- app_assoc. reflexivity.
  - reflexivity.
Qed.

Lemma drained_disconnects s reply handle :
  connected s = false -> channel s = true ->
  _handleQueue s = Some [] ->
  (reply = NODE_HANDLE_ACK
   /\ forall p, _pendingMessage s = Some p -> truthy (PendingMessage.handle p) = true)
  \/ (reply = NODE_HANDLE_NACK /\ _pendingMessage s = None) ->
  let r := onInternalMessage assertions win32 W
             (VObj [("cmd", VStr reply)]) handle s in
  result r = Ret tt /\ channel (after r) = false
  /\ kChannelHandle (after r) = false /\ _pendingMessage (after r) = None.
Proof.
  intros H Hc Hq Hcmd.
  unfold onInternalMessage, _disconnect, once, closePendingHandle.
  destruct Hcmd as [[-> Hp]|[-> Hp]].
  - destruct (_pendingMessage s) as [p|] eqn:Ep.
    + specialize (Hp p eq_refl). run. known. destruct (buffering s); cbn; auto.
    + clear Hp. run. known. destruct (buffering s); cbn; auto.
  - run. known. destruct (buffering s); cbn; auto.
Qed.

Lemma assert_returns c s s' :
  js_assert assertions c s = (Ret tt, s') -> s' = s.
Proof.
  unfold js_assert. destruct c; [|destruct assertions]; run; congruence.
Qed.


(** Once [_disconnect] has cleared [target.channel], nothing it does sets it
    again. *)
Lemma _disconnect_drops_channel s s' :
  _disconnect assertions s = (Ret tt, s') -> channel s' = false.
Proof.
  unfold _disconnect. intros E.
  apply bind_inv in E as (s0 & s1 & Eg & E). injection Eg as <- <-.
  apply bind_inv in E as ([] & s2 & Ea & E). apply assert_returns in Ea. subst s2.
  apply bind_inv in E as ([] & s3 & Em & E). injection Em as <-.
  match type of E with
  | ?rest _ = _ =>
      assert (D : keeps channel_stays_down rest)
        by (unfold closePendingHandle, once, method_call, tell, nextTick; teardown)
  end.
  specialize (D (set_channel false s) eq_refl). rewrite E in D. exact D.
Qed.

(** On a disconnected target, a reply that the listener handles to the end
    leaves either a backlog behind or no channel. *)
Lemma reply_settles_disconnect s reply handle :
  connected s = false ->
  reply = NODE_HANDLE_ACK \/ reply = NODE_HANDLE_NACK ->
  let r := onInternalMessage assertions win32 W
             (VObj [("cmd", VStr reply)]) handle s in
  result r = Ret tt ->
  channel (after r) = false \/ is_some (_handleQueue (after r)) = true.
Proof.
  intros Hd Hr r Hres.
  pose proof (K_onInternalMessage (VObj [("cmd", VStr reply)]) handle s Hd) as Hk.
  fold r in Hk.
  destruct r as [[[]|e] s'] eqn:E; [|discriminate]. cbn [after snd] in *. clear Hres.
  subst r. unfold onInternalMessage in E.
  remember (_disconnect assertions) as d eqn:Ed.
  remember (resend assertions win32 W) as f eqn:Ef.
  assert (Hcmd : is_str (VStr reply) NODE_HANDLE_ACK
                 || is_str (VStr reply) NODE_HANDLE_NACK = true)
    by (destruct Hr; subst reply; reflexivity).
  cbn [getM] in E. unfold bind at 1 in E.
  cbn [ret get_prop lookup String.eqb Ascii.eqb Bool.eqb] in E.
  rewrite Hcmd in E.
  repeat (let Eq := fresh "Eq" in
          apply bind_inv in E as (? & ? & Eq & E); cbv beta zeta in E;
          try (unfold get in Eq; injection Eq as <- <-); try clear Eq).
  unfold when in E.
  match type of E with
  | (if ?c then _ else _) _ = _ => destruct c eqn:Ec
  end.
  - left. subst d. eapply _disconnect_drops_channel. exact E.
  - injection E as <-.
    match type of Ec with
    | negb (connected ?x) && _ && _ = false =>
        destruct (channel x); [|left; reflexivity];
        destruct (is_some (_handleQueue x)); [right; reflexivity|]
    end.
    rewrite Hk in Ec. discriminate.
Qed.

Lemma finish_closes_once s id :
  existsb (Nat.eqb id) (fired s) = false ->
  finish id s
  = (Ret tt, set_trace (trace s ++ [EChannelClose; EEmit "disconnect" []])
               (set_fired (id :: fired s) s))
  /\ finish id (after (finish id s)) = (Ret tt, after (finish id s)).
Proof.
  intros H. unfold finish. run. known. rewrite Nat.eqb_refl. cbn.
  rewrite <- app_assoc. split; reflexivity.
Qed.

(** C4, amended.  No step of the channel sets [connected] again once it is false.
    The first [disconnect()] clears it at once; with no backlog (and so no
    pending handshake) it also drops [target.channel] and
    [target[kChannelHandle]] in the same call and hands [finish] to the next
    tick, or to the end of the read in progress; [finish] closes the channel
    and emits ["disconnect"] the first time it runs and does nothing the
    second time.  With a backlog the first [disconnect()] changes nothing
    but [connected]; the acknowledgment that finds the backlog drained then
    closes the pending handle, if there is one, and drops the channel, and
    in general a reply handled to the end on a disconnected target leaves
    either a new backlog or no channel.  A [disconnect()] on a
    disconnected target emits ["error"] with [ERR_IPC_DISCONNECTED] and
    changes nothing else, so the channel is not closed again; it returns
    when the target has an ["error"] listener, and when it has none the
    emitter throws the error into the caller of [disconnect()]. *)
Theorem connected_falls_once (o : op) (s : state) (q : list QueuedSend.t)
        (reply : string) (handle : value) (id : nat) :
  (connected s = false -> connected (after (step assertions win32 W o s)) = false)
  /\ (connected s = true -> channel s = true ->
      _handleQueue s = None -> _pendingMessage s = None ->
      disconnect assertions s
      = (Ret tt,
         let s1 := set_finishCount (S (finishCount s))
                     (set_kChannelHandle false
                        (set_channel false (set_connected false s))) in
         if buffering s
         then set_onceInternalMessage (onceInternalMessage s ++ [finishCount s])
                (set_onceMessage (onceMessage s ++ [finishCount s])
                   (set_ticks (ticks s ++ [TFlush; TFlush]) s1))
         else set_ticks (ticks s ++ [TFinish (finishCount s)]) s1))
  /\ (existsb (Nat.eqb id) (fired s) = false ->
      finish id s
      = (Ret tt, set_trace (trace s ++ [EChannelClose; EEmit "disconnect" []])
                   (set_fired (id :: fired s) s))
      /\ finish id (after (finish id s)) = (Ret tt, after (finish id s)))
  /\ (connected s = true -> _handleQueue s = Some q ->
      disconnect assertions s = (Ret tt, set_connected false s))
  /\ (connected s = false -> channel s = true ->
      _handleQueue s = Some [] ->
      (reply = NODE_HANDLE_ACK
       /\ forall p, _pendingMessage s = Some p ->
                    truthy (PendingMessage.handle p) = true)
      \/ (reply = NODE_HANDLE_NACK /\ _pendingMessage s = None) ->
      let r := onInternalMessage assertions win32 W
                 (VObj [("cmd", VStr reply)]) handle s in
      result r = Ret tt /\ channel (after r) = false
      /\ kChannelHandle (after r) = false /\ _pendingMessage (after r) = None)
  /\ (connected s = false ->
      reply = NODE_HANDLE_ACK \/ reply = NODE_HANDLE_NACK ->
      let r := onInternalMessage assertions win32 W
                 (VObj [("cmd", VStr reply)]) handle s in
      result r = Ret tt ->
      channel (after r) = false \/ is_some (_handleQueue (after r)) = true)
  /\ (connected s = false ->
      disconnect assertions s
      = (if (0 <? errorListeners s)%nat then Ret tt
         else Throw ERR_IPC_DISCONNECTED,
         set_trace (trace s ++ [EEmit "error" [VError ERR_IPC_DISCONNECTED]]) s)).
Proof.
  split; [apply K_step|].
  split; [apply disconnect_immediate|].
  split; [apply finish_closes_once|].
  split; [apply disconnect_deferred|].
  split; [apply drained_disconnects|].
  split; [apply reply_settles_disconnect|apply disconnect_again].
Qed.

End Lifecycle.

(** ** [send] on a disconnected target *)

Section Closed.
Variables assertions win32 : bool.
Variable W : nat -> value -> value -> WriteResult.

Lemma send_not_connected s message handle options callback :
  connected s = false ->
  send assertions win32 W message handle options callback s
  = if options_rejected handle options
    then (Throw (ERR_INVALID_ARG_TYPE "options"), s)
    else (Ret false,
          set_ticks (ticks s ++ [closed_task (callback_of handle options callback)]) s).
Proof.
  intros H. unfold send, options_rejected, callback_of, closed_task, validateObject.
  destruct (is_function handle) eqn:Hh; run.
  - rewrite H, Hh. reflexivity.
  - destruct (is_function options) eqn:Ho; cbn.
    + rewrite H, Ho. reflexivity.
    + destruct options; cbn in *; try discriminate; rewrite ?H;
        try reflexivity; destruct (is_function callback); reflexivity.
Qed.

Lemma run_closed_task s callback :
  run_task assertions win32 W (closed_task callback) s
  = (if is_function callback || (0 <? errorListeners s)%nat then Ret tt
     else Throw ERR_IPC_CHANNEL_CLOSED,
     set_trace
       (trace s ++ [if is_function callback
                    then ECall callback (VError ERR_IPC_CHANNEL_CLOSED)
                    else EEmit "error" [VError ERR_IPC_CHANNEL_CLOSED]]) s).
Proof.
  unfold closed_task. destruct (is_function callback); [reflexivity|].
  unfold run_task, emit_error, unheard. run.
  destruct (errorListeners s); reflexivity.
Qed.

(** C3, amended.  A [send()] on a disconnected target whose [options]
    argument passes [validateObject] returns [false], writes nothing and
    delivers nothing in the call itself: all it does is queue one task for
    [process.nextTick], which, when it runs, calls the callback with
    [ERR_IPC_CHANNEL_CLOSED] if a callback was given and emits ["error"]
    with it otherwise (an emit that the emitter ends by throwing the error
    out of the tick when the target has no ["error"] listener). *)
Theorem send_on_closed_channel (s s' : state)
        (message handle options callback : value) :
  connected s = false ->
  options_rejected handle options = false ->
  let cb := callback_of handle options callback in
  send assertions win32 W message handle options callback s
  = (Ret false, set_ticks (ticks s ++ [closed_task cb]) s)
  /\ trace (after (send assertions win32 W message handle options callback s))
     = trace s
  /\ writes (after (send assertions win32 W message handle options callback s))
     = writes s
  /\ run_task assertions win32 W (closed_task cb) s'
     = (if is_function cb || (0 <? errorListeners s')%nat then Ret tt
        else Throw ERR_IPC_CHANNEL_CLOSED,
        set_trace
          (trace s' ++ [if is_function cb
                        then ECall cb (VError ERR_IPC_CHANNEL_CLOSED)
                        else EEmit "error" [VError ERR_IPC_CHANNEL_CLOSED]]) s').
Proof.
  intros H Ho cb. rewrite (send_not_connected s _ _ _ _ H), Ho.
  repeat split. apply run_closed_task.
Qed.

(** C10.  On a disconnected target [send()] never looks at the message or
    at the handle: whatever they are, it returns [false] and queues the
    report of [ERR_IPC_CHANNEL_CLOSED], unless the [options] argument is
    one [validateObject] rejects, the only error it throws.  So
    [ERR_MISSING_ARGS], [ERR_INVALID_ARG_TYPE] for the message and
    [ERR_INVALID_HANDLE_TYPE] out of [send()] mean the target was
    connected. *)
Theorem closed_channel_skips_validation (s : state)
        (message handle options callback : value) :
  (connected s = false ->
   (forall message',
       send assertions win32 W message' handle options callback s
       = send assertions win32 W message handle options callback s)
   /\ (options_rejected handle options = false ->
       send assertions win32 W message handle options callback s
       = (Ret false,
          set_ticks (ticks s ++ [closed_task (callback_of handle options callback)]) s))
   /\ (options_rejected handle options = true ->
       send assertions win32 W message handle options callback s
       = (Throw (ERR_INVALID_ARG_TYPE "options"), s)))
  /\ (forall e,
         result (send assertions win32 W message handle options callback s) = Throw e ->
         e = ERR_MISSING_ARGS "message" \/ e = ERR_INVALID_ARG_TYPE "message"
         \/ e = ERR_INVALID_HANDLE_TYPE ->
         connected s = true).
Proof.
  split.
  - intros H. split; [|split].
    + intros message'. rewrite !(send_not_connected s _ _ _ _ H). reflexivity.
    + intros Ho. rewrite (send_not_connected s _ _ _ _ H), Ho. reflexivity.
    + intros Ho. rewrite (send_not_connected s _ _ _ _ H), Ho. reflexivity.
  - intros e He Hkind. destruct (connected s) eqn:H; [reflexivity|].
    rewrite (send_not_connected s _ _ _ _ H) in He.
    destruct (options_rejected handle options); cbn in He.
    + injection He as <-. destruct Hkind as [Hk|[Hk|Hk]]; discriminate.
    + discriminate.
Qed.

End Closed.

(** ** Classification of inbound messages *)

Lemma isInternal_spec message :
  isInternal message = true <->
  message <> VNull /\ typeof message = TObject
  /\ exists cmd, get_prop message "cmd" = VStr cmd
                 /\ (String.length INTERNAL_PREFIX < String.length cmd)%nat
                 /\ prefix INTERNAL_PREFIX cmd = true.
Proof.
  unfold isInternal. split.
  - intros H. apply andb_prop in H as [H H4]. apply andb_prop in H as [H H3].
    apply andb_prop in H as [H1 H2].
    split; [intros ->; discriminate|].
    split; [destruct (typeof message); try discriminate; reflexivity|].
    destruct (get_prop message "cmd") as [| | | |cmd| | | | | | | | | |]; try discriminate.
    exists cmd. apply andb_prop in H4 as [Hl Hp].
    split; [reflexivity|]. split.
    + apply Nat.ltb_lt. exact Hl.
    + apply prefix_correct. apply String.eqb_eq. exact Hp.
  - intros (Hn & Ht & cmd & Hc & Hl & Hp). rewrite Hc, Ht. cbn.
    apply Nat.ltb_lt in Hl. apply prefix_correct in Hp. apply String.eqb_eq in Hp.
    cbn in Hl, Hp. rewrite Hl. cbn in *. rewrite Hp.
    destruct message; try reflexivity; try discriminate.
Qed.

(** ** What reaches the trace *)

Ltac not_message := intros [? ?]; discriminate.

#[local] Hint Extern 1 (~ is_message_event _) => not_message : tracing.

Ltac tracing :=
  keeps_with ltac:(first
    [ exact (appends_refl _) | exact (appends_trans _)
    | solve [intros; apply appends_none; reflexivity]
    | solve [auto with tracing] ]).

Section Tracing.
Variables assertions win32 : bool.
Variable W : nat -> value -> value -> WriteResult.

Local Abbreviation T := (keeps (appends (fun e => ~ is_message_event e))).

Lemma T_tell e : ~ is_message_event e -> T (tell e).
Proof.
  intros He s. eapply appends_one; [reflexivity | exact He].
Qed.

Lemma T_nextTick t : T (nextTick t).
Proof. unfold nextTick. tracing. Qed.

Lemma T_getM v k : T (getM v k).
Proof. unfold getM. tracing. Qed.

Lemma T_assert c : T (js_assert assertions c).
Proof. unfold js_assert. tracing. Qed.

Hint Resolve T_tell T_nextTick T_getM T_assert : tracing.

Lemma T_method_call h e : ~ is_message_event e -> T (method_call h e).
Proof. intros He. unfold method_call. tracing. Qed.

Hint Resolve T_method_call : tracing.

Lemma T_refCounted : T refCounted.
Proof. unfold refCounted, channel_ref. tracing. Qed.

Lemma T_closePendingHandle : T closePendingHandle.
Proof. unfold closePendingHandle. tracing. Qed.

Lemma T_getSocketList t k : T (getSocketList t k).
Proof. unfold getSocketList. tracing. Qed.

Hint Resolve T_refCounted T_closePendingHandle T_getSocketList : tracing.

Lemma T_conversion_send t m r o : T (conversion_send t m r o).
Proof.
  unfold conversion_send, server_send, socket_send, dgram_send. tracing.
Qed.

Lemma T_postSend m h o c b : T (postSend assertions m h o c b).
Proof. unfold postSend. tracing. Qed.

Hint Resolve T_conversion_send T_postSend : tracing.

Lemma T_package m h o c : T (package win32 m h o c).
Proof. unfold package, enqueue. tracing. Qed.

Lemma T_settle w r m h o c obj : T (settle assertions w r m h o c obj).
Proof. unfold settle. tracing. Qed.

Hint Resolve T_package T_settle : tracing.

Lemma T_transmit m h o c obj : T (transmit assertions W m h o c obj).
Proof. unfold transmit. tracing. Qed.

Hint Resolve T_transmit : tracing.

Lemma T__send m h o c : T (_send assertions win32 W m h o c).
Proof. unfold _send. tracing. Qed.

Lemma T_once n i : T (once n i).
Proof. unfold once. tracing. Qed.

Hint Resolve T__send T_once : tracing.

Lemma T__disconnect : T (_disconnect assertions).
Proof. unfold _disconnect. tracing. Qed.

Lemma T_finish i : T (finish i).
Proof. unfold finish. tracing. Qed.

Lemma T_handleMessage m h b : T (handleMessage m h b).
Proof. unfold handleMessage. tracing. Qed.

Hint Resolve T__disconnect T_finish T_handleMessage : tracing.

Lemma T_got t m h : T (got t m h).
Proof. unfold got, got_ready, new_wrapper. tracing. Qed.

Hint Resolve T_got : tracing.

Lemma T_onInternalMessage m h : T (onInternalMessage assertions win32 W m h).
Proof. unfold onInternalMessage, resend. tracing. Qed.

Hint Resolve T_onInternalMessage : tracing.

Lemma T_emit_internal m h : T (emit assertions win32 W "internalMessage" m h).
Proof. unfold emit, target_emit. cbn. tracing. Qed.

Lemma handleMessage_live s message handle internal :
  channel s = true ->
  handleMessage message handle internal s
  = (Ret tt,
     set_ticks (ticks s ++ [TEmit (if internal then "internalMessage" else "message")
                                  message handle]) s).
Proof. intros H. unfold handleMessage. run. rewrite H. reflexivity. Qed.

Lemma forEach_dispatch (f : value -> M unit) messages :
  (forall m s0, channel s0 = true ->
      exists h s1, f m s0 = (Ret tt, s1) /\ channel s1 = true
                   /\ trace s1 = trace s0
                   /\ ticks s1 = (ticks s0 ++ [TEmit (event_name m) m h])%list) ->
  forall s0, channel s0 = true ->
    let r := forEach f messages s0 in
    result r = Ret tt /\ trace (after r) = trace s0
    /\ exists new, ticks (after r) = (ticks s0 ++ new)%list
                   /\ map envelope_of new
                      = map (fun m => Some (event_name m, m)) messages.
Proof.
  intros Hf. induction messages as [|m ms IH]; intros s0 Hc.
  - cbn. repeat split. exists []. rewrite app_nil_r. auto.
  - cbn [forEach]. unfold bind.
    destruct (Hf m s0 Hc) as (h & s1 & -> & Hc1 & Ht1 & Hk1).
    destruct (IH s1 Hc1) as (Hr & Ht & new & Hn & Hm).
    cbn zeta in *. split; [exact Hr|]. split; [congruence|].
    exists (TEmit (event_name m) m h :: new). split.
    + rewrite Hn, Hk1, <- app_assoc. reflexivity.
    + cbn. rewrite Hm. reflexivity.
Qed.

Lemma onread_dispatch messages s recvHandle :
  channel s = true ->
  let r := onread assertions recvHandle (Some messages) s in
  result r = Ret tt
  /\ trace (after r) = trace s
  /\ exists new, ticks (after r) = (ticks s ++ new)%list
                 /\ map envelope_of new
                    = map (fun m => Some (event_name m, m)) messages.
Proof.
  intros Hc. cbn zeta. unfold onread.
  match goal with |- context [forEach ?f messages] =>
    pose proof (forEach_dispatch f messages) as G end.
  assert (Hf : forall m s0, channel s0 = true ->
             exists h s1,
               (if isInternal m
                then if is_str (get_prop m "cmd") NODE_HANDLE
                     then s <- get ;;
                          handleMessage m (pendingHandle s) true ;;
                          modify (set_pendingHandle VNull)
                     else handleMessage m VUndefined true
                else handleMessage m VUndefined false) s0 = (Ret tt, s1)
               /\ channel s1 = true /\ trace s1 = trace s0
               /\ ticks s1 = (ticks s0 ++ [TEmit (event_name m) m h])%list).
  { intros m s0 Hc0. unfold event_name, handleMessage.
    destruct (isInternal m);
      [destruct (is_str (get_prop m "cmd") NODE_HANDLE)|];
      run; rewrite Hc0; cbn; do 2 eexists;
      (split; [reflexivity|]); cbn; auto. }
  specialize (G Hf). unfold bind at 1. destruct (truthy recvHandle); cbn.
  - apply (G (set_pendingHandle recvHandle s) Hc).
  - apply (G s Hc).
Qed.

Lemma emit_internal_first s message handle :
  exists l,
    trace (after (emit assertions win32 W "internalMessage" message handle s))
    = (trace s ++ EEmit "internalMessage" [message; handle] :: l)%list
    /\ Forall (fun e => ~ is_message_event e) l.
Proof.
  unfold emit, target_emit. cbn.
  match goal with |- context [after (?k ?s1)] =>
    assert (HT : keeps (appends (fun e => ~ is_message_event e)) k) by tracing;
    destruct (HT s1) as (l & Hl & HF) end.
  exists l. rewrite Hl. cbn. rewrite <- app_assoc. auto.
Qed.

Lemma emit_message_delivered s message handle :
  (0 < listenerCount_message s)%nat ->
  exists l,
    trace (after (emit assertions win32 W "message" message handle s))
    = (trace s ++ EEmit "message" [message; handle] :: l)%list.
Proof.
  intros H. apply Nat.ltb_lt in H. unfold emit.
  unfold bind at 1. unfold get at 1. cbv beta iota. rewrite H, orb_true_r.
  unfold target_emit. cbn.
  match goal with |- context [after (?k ?s1)] =>
    assert (HT : keeps (appends (fun e => ~ is_message_event e)) k) by tracing;
    destruct (HT s1) as (l & Hl & HF) end.
  exists l. rewrite Hl. cbn. rewrite <- app_assoc. auto.
Qed.

Lemma emit_message_buffered s message handle :
  listenerCount_message s = 0%nat -> channel s = true ->
  emit assertions win32 W "message" message handle s
  = (Ret tt,
     set_kPendingMessages (kPendingMessages s ++ [("message", message, handle)]) s).
Proof.
  intros H Hc. unfold emit. run. rewrite H, Hc. reflexivity.
Qed.

End Tracing.

(** ** What [_send] does with a message *)

Lemma lookup_assign_other k k' v props :
  String.eqb k' k = false -> lookup k' (assign k v props) = lookup k' props.
Proof.
  intros H. induction props as [|[k0 v0] rest IH]; cbn.
  - rewrite H. reflexivity.
  - destruct (String.eqb k k0) eqn:E; cbn.
    + apply String.eqb_eq in E. subst k0. rewrite H. reflexivity.
    + destruct (String.eqb k' k0); [reflexivity | exact IH].
Qed.

Lemma get_set_other o k k' v :
  String.eqb k' k = false -> get_prop (set_prop o k v) k' = get_prop o k'.
Proof.
  intros H. destruct o; try reflexivity. cbn. apply lookup_assign_other. exact H.
Qed.

Section Sending.
Variables assertions win32 : bool.
Variable W : nat -> value -> value -> WriteResult.

Lemma conversion_send_keeps_msg t message r options :
  returns (fun p => get_prop (fst p) "msg" = get_prop message "msg")
          (conversion_send t message r options).
Proof.
  destruct t; cbn [conversion_send].
  - unfold server_send. apply returns_then; intros s. apply returns_ret. reflexivity.
  - unfold socket_send. apply returns_then; intros s. cbv zeta.
    destruct (negb (truthy (_handle (objs s r)))); [apply returns_ret; reflexivity|].
    apply (returns_bind (fun m => get_prop m "msg" = get_prop message "msg")).
    + destruct (server (objs s r)).
      * repeat (apply returns_then; intros). apply returns_ret.
        apply get_set_other. reflexivity.
      * apply returns_ret. reflexivity.
    + intros m Hm. repeat (apply returns_then; intros). apply returns_ret. exact Hm.
  - unfold dgram_send. apply returns_then; intros s. apply returns_ret.
    apply get_set_other. reflexivity.
Qed.

(** The two pushes onto the backlog throw. *)
Lemma enqueue_throws q entry s : enqueue q entry s = (Throw TypeError, s).
Proof. reflexivity. Qed.

(** A [package] that returns goes on with the message itself or with an
    envelope around it; with a backlog in the way only a reply without a
    handle gets that far. *)
Lemma package_cases message handle options callback s p s1 :
  package win32 message handle options callback s = (Ret p, s1) ->
  (exists message' handle' obj,
      p = Proceed message' handle' obj
      /\ (message' = message \/ get_prop message' "msg" = message))
  /\ (_handleQueue s = None \/ (truthy handle = false /\ is_reply message = true)).
Proof.
  unfold package. destruct (truthy handle).
  - destruct (instanceOf handle) as [[t r]|]; [|discriminate].
    unfold bind at 1, get at 1. cbv zeta.
    destruct (_handleQueue s) as [q|] eqn:Hq.
    + rewrite enqueue_throws. discriminate.
    + intros H. split; [|left; reflexivity].
      revert H.
      match goal with |- ?m s = _ -> _ =>
        assert (R : returns (fun p => exists message' handle' obj,
                                 p = Proceed message' handle' obj
                                 /\ (message' = message
                                     \/ get_prop message' "msg" = message)) m)
      end.
      { apply (returns_bind
                 (fun p => get_prop (fst p) "msg" = message)).
        - intros s0 a s' E.
          apply (conversion_send_keeps_msg _ _ _ _ _ _ _ E).
        - intros [envelope raw] He. cbn in He. apply returns_then; intros _.
          apply returns_ret. destruct (truthy raw); eauto 10. }
      intros H. exact (R _ _ _ H).
  - unfold bind at 1, get at 1.
    destruct (_handleQueue s) as [q|] eqn:Hq.
    + destruct (is_reply message); cbn [negb].
      * intros H. injection H as <- <-.
        split; [exists message, handle, None | right]; auto.
      * rewrite enqueue_throws. discriminate.
    + intros H. injection H as <- <-.
      split; [exists message, handle, None | left]; auto.
Qed.

Lemma settle_result w req message handle options callback obj s b :
  result (settle assertions w req message handle options callback obj s) = Ret b ->
  b = (writeQueueSize
         (after (settle assertions w req message handle options callback obj s))
       <? 65536 * 2).
Proof.
  unfold settle. apply (bind_get_result _ (fun s => writeQueueSize s <? 65536 * 2)).
Qed.

(** [transmit] starts with the write. *)
Lemma transmit_writes message handle options callback obj s :
  exists l,
    trace (after (transmit assertions W message handle options callback obj s))
    = (trace s ++ EWrite message handle :: l)%list
    /\ forall b,
        result (transmit assertions W message handle options callback obj s) = Ret b ->
        b = (writeQueueSize
               (after (transmit assertions W message handle options callback obj s))
             <? 65536 * 2).
Proof.
  unfold transmit. run.
  match goal with |- context [settle ?a ?w ?r ?m ?h ?o ?c ?ob ?s1] =>
    destruct (T_settle a w r m h o c ob s1) as (l & Hl & _);
    pose proof (settle_result w r m h o c ob s1) as Hb
  end.
  exists l. split.
  - rewrite Hl. cbn. rewrite <- app_assoc. reflexivity.
  - exact Hb.
Qed.

Lemma assert_passes c : asserted assertions c -> js_assert assertions c = ret tt.
Proof.
  unfold js_assert. destruct c; [reflexivity|].
  intros [->|H]; [reflexivity | discriminate].
Qed.

(** [_send] past its assertion. *)
Lemma _send_asserted s message handle options callback :
  asserted assertions (connected s || channel s) ->
  _send assertions win32 W message handle options callback s
  = (if is_undefined message then throw (ERR_MISSING_ARGS "message")
     else if negb (sendable message) then throw (ERR_INVALID_ARG_TYPE "message")
     else
       p <- package win32 message handle (legacy options) callback ;;
       match p with
       | Queued first => ret first
       | Proceed message handle obj =>
           transmit assertions W message handle (legacy options) callback obj
       end) s.
Proof.
  intros Ha. unfold _send. unfold bind at 1, get at 1. cbv beta iota.
  rewrite (assert_passes _ Ha). reflexivity.
Qed.

(** A write without a handle: the message goes out, the backlog and the
    pending handshake are left alone, and the only other effect on the
    outside is the [channel.ref()] of the first write in flight. *)
Lemma transmit_plain message handle options callback s :
  truthy handle = false ->
  let r := transmit assertions W message handle options callback None s in
  (exists l, trace (after r) = (trace s ++ EWrite message handle :: l)%list
             /\ (l = [] \/ l = [EChannelRef]))
  /\ _handleQueue (after r) = _handleQueue s
  /\ _pendingMessage (after r) = _pendingMessage s
  /\ objCount (after r) = objCount s.
Proof.
  intros Hh. unfold transmit, settle, obj_postSend, refCounted, channel_ref. run.
  rewrite Hh.
  destruct (err (W (writes s) message handle) =? 0); cbn.
  - destruct (kLastWriteWasAsync (W (writes s) message handle)); cbn.
    + destruct ((refs s + 1 =? 1) && negb (refExplicitlySet s)); written.
    + destruct (is_function callback); written.
  - destruct options; cbn; try solve [written];
      try match goal with
          | |- context [truthy ?v] => destruct (truthy v); cbn
          end;
      try solve [written]; destruct (is_function callback); written.
Qed.

(** The two replies of the handshake, as the listener sends them. *)
Lemma resend_reply s reply :
  asserted assertions (connected s || channel s) ->
  reply = NODE_HANDLE_ACK \/ reply = NODE_HANDLE_NACK ->
  let r := resend assertions win32 W (VObj [("cmd", VStr reply)]) VNull
                  (VBool true) VUndefined s in
  result r = Ret tt
  /\ (exists l, trace (after r)
                = (trace s ++ EWrite (VObj [("cmd", VStr reply)]) VNull :: l)%list
                /\ (l = [] \/ l = [EChannelRef]))
  /\ ticks (after r) = ticks s
  /\ objCount (after r) = objCount s
  /\ channel (after r) = channel s.
Proof.
  intros Ha Hr. cbv zeta. unfold resend.
  assert (E : _send assertions win32 W (VObj [("cmd", VStr reply)]) VNull
                    (VBool true) VUndefined s
              = transmit assertions W (VObj [("cmd", VStr reply)]) VNull
                         (VObj [("swallowErrors", VBool true)]) VUndefined None s).
  { rewrite (_send_asserted _ _ _ _ _ Ha). unfold package.
    destruct Hr; subst reply; run; destruct (_handleQueue s); reflexivity. }
  unfold bind. rewrite E. clear E.
  unfold transmit, settle, obj_postSend, refCounted, channel_ref.
  destruct Hr; subst reply; run;
    match goal with
    | |- context [err ?w =? 0] =>
        destruct (err w =? 0); cbn; [destruct (kLastWriteWasAsync w); cbn|]
    end;
    try (destruct ((refs s + 1 =? 1) && negb (refExplicitlySet s)); cbn);
    written.
Qed.

(** [send] on a connected target is [_send] on the shifted arguments. *)
Lemma send_connected s message handle options callback :
  connected s = true -> options_rejected handle options = false ->
  send assertions win32 W message handle options callback s
  = _send assertions win32 W message (handle_of handle)
          (options_of handle options) (callback_of handle options callback) s.
Proof.
  intros H Ho. unfold send, options_rejected, handle_of, options_of, callback_of,
                 validateObject in *.
  remember (_send assertions win32 W) as f eqn:Ef.
  destruct (is_function handle) eqn:Hh; run.
  - rewrite H. reflexivity.
  - destruct (is_function options) eqn:Hf; cbn in *.
    + rewrite H. reflexivity.
    + destruct options; cbn in *; try discriminate; rewrite ?H; reflexivity.
Qed.

Lemma send_rejected_missing s message handle options callback :
  asserted assertions (connected s || channel s) -> is_undefined message = true ->
  _send assertions win32 W message handle options callback s
  = (Throw (ERR_MISSING_ARGS "message"), s).
Proof. intros Ha Hm. rewrite (_send_asserted _ _ _ _ _ Ha), Hm. reflexivity. Qed.

Lemma send_rejected_type s message handle options callback :
  asserted assertions (connected s || channel s) ->
  is_undefined message = false -> sendable message = false ->
  _send assertions win32 W message handle options callback s
  = (Throw (ERR_INVALID_ARG_TYPE "message"), s).
Proof.
  intros Ha Hm Hs. rewrite (_send_asserted _ _ _ _ _ Ha), Hm, Hs. reflexivity.
Qed.

Lemma send_rejected_handle s q message handle options callback :
  _handleQueue s = Some q -> asserted assertions (connected s || channel s) ->
  is_undefined message = false -> sendable message = true ->
  truthy handle = true -> instanceOf handle = None ->
  _send assertions win32 W message handle options callback s
  = (Throw ERR_INVALID_HANDLE_TYPE, s).
Proof.
  intros Hq Ha Hm Hs Hh Hi. rewrite (_send_asserted _ _ _ _ _ Ha), Hm, Hs.
  unfold package. run. rewrite Hh, Hi. reflexivity.
Qed.

Lemma send_behind_handle s q message handle options callback :
  _handleQueue s = Some q -> asserted assertions (connected s || channel s) ->
  is_undefined message = false -> sendable message = true ->
  truthy handle = true -> instanceOf handle <> None ->
  _send assertions win32 W message handle options callback s = (Throw TypeError, s).
Proof.
  intros Hq Ha Hm Hs Hh Hi. rewrite (_send_asserted _ _ _ _ _ Ha), Hm, Hs.
  unfold package, enqueue, ArrayPrototypePush. run.
  rewrite Hh. destruct (instanceOf handle) as [[t r]|]; [|contradiction].
  cbn. rewrite Hq. reflexivity.
Qed.

Lemma send_behind_plain s q message handle options callback :
  _handleQueue s = Some q -> asserted assertions (connected s || channel s) ->
  is_undefined message = false -> sendable message = true ->
  truthy handle = false -> is_reply message = false ->
  _send assertions win32 W message handle options callback s = (Throw TypeError, s).
Proof.
  intros Hq Ha Hm Hs Hh Hi. rewrite (_send_asserted _ _ _ _ _ Ha), Hm, Hs.
  unfold package, enqueue, ArrayPrototypePush. run.
  rewrite Hh. cbn. rewrite Hq, Hi. reflexivity.
Qed.

Lemma send_reply_bypasses s q message handle options callback :
  _handleQueue s = Some q -> asserted assertions (connected s || channel s) ->
  is_undefined message = false -> sendable message = true ->
  truthy handle = false -> is_reply message = true ->
  _send assertions win32 W message handle options callback s
  = transmit assertions W message handle (legacy options) callback None s.
Proof.
  intros Hq Ha Hm Hs Hh Hi. rewrite (_send_asserted _ _ _ _ _ Ha), Hm, Hs.
  unfold package. unfold bind at 1. rewrite Hh. run. rewrite Hq, Hi. reflexivity.
Qed.

(** C1.  While the backlog exists, [_send] never appends to it.  A sendable
    message that carries a handle of a registered class, or that carries no
    handle and is not a [NODE_HANDLE_ACK] or [NODE_HANDLE_NACK], reaches the
    unbound [ArrayPrototypePush] and comes back as a [TypeError]: it is
    neither queued nor written and the target is as it was.  A handle of no
    registered class is rejected before that; a reply without a handle is
    written at once.  In every case the backlog and [_pendingMessage] stay
    as they were and no handle is written.  [send] on a connected target is
    this [_send] on its shifted arguments. *)
Theorem send_behind_handshake_throws (s : state) (q : list QueuedSend.t)
        (message handle options callback : value) :
  _handleQueue s = Some q ->
  asserted assertions (connected s || channel s) ->
  is_undefined message = false ->
  sendable message = true ->
  let r := _send assertions win32 W message handle options callback s in
  (truthy handle = true -> instanceOf handle = None ->
   r = (Throw ERR_INVALID_HANDLE_TYPE, s))
  /\ ((truthy handle = true /\ instanceOf handle <> None)
      \/ (truthy handle = false /\ is_reply message = false) ->
      r = (Throw TypeError, s))
  /\ (truthy handle = false -> is_reply message = true ->
      exists l,
        trace (after r) = (trace s ++ EWrite message handle :: l)%list
        /\ (l = [] \/ l = [EChannelRef]))
  /\ _handleQueue (after r) = Some q
  /\ _pendingMessage (after r) = _pendingMessage s
  /\ appends (fun e => ~ writes_handle e) s (after r)
  /\ (forall handle0 options0 callback0,
         connected s = true -> options_rejected handle0 options0 = false ->
         send assertions win32 W message handle0 options0 callback0 s
         = _send assertions win32 W message (handle_of handle0)
                 (options_of handle0 options0)
                 (callback_of handle0 options0 callback0) s).
Proof.
  intros Hq Ha Hm Hs r. subst r.
  assert (Hrej : truthy handle = true -> instanceOf handle = None ->
                 _send assertions win32 W message handle options callback s
                 = (Throw ERR_INVALID_HANDLE_TYPE, s))
    by (intros; eapply send_rejected_handle; eauto).
  assert (Hbl : (truthy handle = true /\ instanceOf handle <> None)
                \/ (truthy handle = false /\ is_reply message = false) ->
                _send assertions win32 W message handle options callback s
                = (Throw TypeError, s)).
  { intros [[Hh Hi]|[Hh Hi]].
    - eapply send_behind_handle; eauto.
    - eapply send_behind_plain; eauto. }
  assert (Hby : truthy handle = false -> is_reply message = true ->
                (exists l,
                    trace (after (_send assertions win32 W message handle
                                        options callback s))
                    = (trace s ++ EWrite message handle :: l)%list
                    /\ (l = [] \/ l = [EChannelRef]))
                /\ _handleQueue (after (_send assertions win32 W message handle
                                              options callback s)) = Some q
                /\ _pendingMessage (after (_send assertions win32 W message handle
                                                 options callback s))
                   = _pendingMessage s).
  { intros Hh Hi. rewrite (send_reply_bypasses s q); auto.
    destruct (transmit_plain message handle (legacy options) callback s Hh)
      as (Ht & Hq' & Hp & _).
    cbv zeta in *. rewrite Hq', Hp. auto. }
  split; [exact Hrej|]. split; [exact Hbl|].
  split; [intros Hh Hi; destruct (Hby Hh Hi) as (? & ? & ?); auto|].
  assert (Hall : _handleQueue
                   (after (_send assertions win32 W message handle options callback s))
                 = Some q
                 /\ _pendingMessage
                      (after (_send assertions win32 W message handle options
                                    callback s))
                    = _pendingMessage s
                 /\ appends (fun e => ~ writes_handle e) s
                      (after (_send assertions win32 W message handle
                                    options callback s))).
  { destruct (truthy handle) eqn:Hh.
    - destruct (instanceOf handle) as [p|] eqn:Hi.
      + rewrite Hbl by (left; split; [reflexivity | discriminate]).
        split; [exact Hq|]. split; [reflexivity | apply appends_none; reflexivity].
      + rewrite Hrej by reflexivity.
        split; [exact Hq|]. split; [reflexivity | apply appends_none; reflexivity].
    - destruct (is_reply message) eqn:Hi.
      + destruct (Hby eq_refl eq_refl) as ((l & Hl & Hc) & Hq' & Hp).
        split; [exact Hq'|]. split; [exact Hp|].
        exists (EWrite message handle :: l). split; [exact Hl|].
        constructor.
        * intros (m' & h' & E & Ht). injection E as <- <-. congruence.
        * destruct Hc; subst l; repeat constructor.
          intros (m' & h' & E & _). discriminate.
      + rewrite Hbl by (right; split; reflexivity).
        split; [exact Hq|]. split; [reflexivity | apply appends_none; reflexivity]. }
  destruct Hall as (Hq' & Hp & Hw).
  split; [exact Hq'|]. split; [exact Hp|]. split; [exact Hw|].
  intros. apply send_connected; assumption.
Qed.

(** What a [_send] that returns has done and what it answers. *)
Lemma _send_signal (s : state) (message handle options callback : value)
      (b : bool) :
  result (_send assertions win32 W message handle options callback s) = Ret b ->
  let s' := after (_send assertions win32 W message handle options callback s) in
  (exists l1 message' handle' l2,
      trace s' = (trace s ++ l1 ++ EWrite message' handle' :: l2)%list
      /\ (message' = message \/ get_prop message' "msg" = message)
      /\ b = (writeQueueSize s' <? 65536 * 2))
  /\ (_handleQueue s = None \/ (truthy handle = false /\ is_reply message = true)).
Proof.
  intros H. cbv zeta.
  destruct (_send assertions win32 W message handle options callback s)
    as [[b'|e] s'] eqn:E; [|discriminate].
  cbn in H. injection H as ->. cbn [after snd].
  unfold _send in E.
  apply bind_inv in E as (s0 & s1 & Eg & E). injection Eg as <- <-.
  apply bind_inv in E as ([] & s2 & Ea & E). apply assert_returns in Ea. subst s2.
  destruct (is_undefined message); [discriminate|].
  destruct (negb (sendable message)); [discriminate|].
  apply bind_inv in E as (p & s3 & Ep & E).
  pose proof (T_package win32 message handle (legacy options) callback s) as Tp.
  unfold legacy in Tp. rewrite Ep in Tp. destruct Tp as (l1 & Hl1 & _).
  cbn [after snd] in Hl1.
  apply package_cases in Ep as ((m' & h' & obj & -> & Hm) & Hway).
  split; [|exact Hway].
  destruct (transmit_writes m' h'
              (match options with
               | VBool _ => VObj [("swallowErrors", options)]
               | _ => options
               end) callback obj s3) as (l2 & Hl2 & Hb).
  rewrite E in Hl2, Hb. cbn [after snd result fst] in Hl2, Hb.
  exists l1, m', h', l2. split; [|split; [exact Hm | apply Hb; reflexivity]].
  rewrite Hl2, Hl1, <- app_assoc. reflexivity.
Qed.

Lemma send_rejects_options s message handle options callback :
  options_rejected handle options = true ->
  send assertions win32 W message handle options callback s
  = (Throw (ERR_INVALID_ARG_TYPE "options"), s).
Proof.
  intros Ho. unfold send, options_rejected, validateObject in *.
  destruct (is_function handle); [discriminate|].
  destruct (is_function options); [discriminate|].
  destruct options; cbn in *; try discriminate; reflexivity.
Qed.


End Sending.

(** ** Inbound messages *)

Section Receiving.
Variables assertions win32 : bool.
Variable W : nat -> value -> value -> WriteResult.

(** C8.  [isInternal] holds exactly of the non-null objects whose [cmd] is
    a string longer than ["NODE_"] that starts with it.  On a live channel
    [onread] defers one [emit] per decoded message, in order, under the
    name ["internalMessage"] when [isInternal] holds of the message and
    ["message"] otherwise.  The deferred [emit] of an internal message
    calls [target.emit("internalMessage", message, handle)] and adds no
    ["message"] event to the trace; the deferred [emit] of any other
    message calls [target.emit("message", message, handle)] when the
    target has a ["message"] listener and keeps the message in the buffer
    when it has none.  A deferred [emit] is what a tick runs for a [TEmit]
    task. *)
Theorem internal_messages_bypass_listeners
        (s : state) (message handle recvHandle : value) (messages : list value) :
  (isInternal message = true <->
   message <> VNull /\ typeof message = TObject
   /\ exists cmd, get_prop message "cmd" = VStr cmd
                  /\ (String.length INTERNAL_PREFIX < String.length cmd)%nat
                  /\ prefix INTERNAL_PREFIX cmd = true)
  /\ (channel s = true ->
      let r := onread assertions recvHandle (Some messages) s in
      result r = Ret tt
      /\ trace (after r) = trace s
      /\ exists new, ticks (after r) = (ticks s ++ new)%list
                     /\ map envelope_of new
                        = map (fun m => Some (event_name m, m)) messages)
  /\ (exists l,
         trace (after (emit assertions win32 W "internalMessage" message handle s))
         = (trace s ++ EEmit "internalMessage" [message; handle] :: l)%list
         /\ Forall (fun e => ~ is_message_event e) l)
  /\ ((0 < listenerCount_message s)%nat ->
      exists l,
        trace (after (emit assertions win32 W "message" message handle s))
        = (trace s ++ EEmit "message" [message; handle] :: l)%list)
  /\ (listenerCount_message s = 0%nat -> channel s = true ->
      emit assertions win32 W "message" message handle s
      = (Ret tt,
         set_kPendingMessages
           (kPendingMessages s ++ [("message", message, handle)]) s))
  /\ (forall name,
         run_task assertions win32 W (TEmit name message handle)
         = emit assertions win32 W name message handle).
Proof.
  split; [apply isInternal_spec|].
  split; [apply onread_dispatch|].
  split; [apply emit_internal_first|].
  split; [apply emit_message_delivered|].
  split; [apply emit_message_buffered | reflexivity].
Qed.

(** The receiving side of the handshake. *)

Lemma receive_without_handle s message handle :
  get_prop message "cmd" = VStr NODE_HANDLE ->
  truthy handle = false ->
  onInternalMessage assertions win32 W message handle s
  = resend assertions win32 W (VObj [("cmd", VStr NODE_HANDLE_NACK)]) VNull
           (VBool true) VUndefined s.
Proof.
  intros Hc Hh. unfold onInternalMessage.
  remember (resend assertions win32 W) as f eqn:Ef.
  destruct message; try discriminate. cbn in Hc. run. rewrite Hc, Hh. reflexivity.
Qed.

Lemma receive_with_handle s message handle :
  get_prop message "cmd" = VStr NODE_HANDLE ->
  truthy handle = true ->
  onInternalMessage assertions win32 W message handle s
  = (resend assertions win32 W (VObj [("cmd", VStr NODE_HANDLE_ACK)]) VNull
            (VBool true) VUndefined ;;
     when win32 (tell (ESetSimultaneousAccepts handle false)) ;;
     match handleConversion (get_prop message "type") with
     | None => throw TypeError
     | Some t => got t message handle
     end) s.
Proof.
  intros Hc Hh. unfold onInternalMessage, method_call.
  remember (resend assertions win32 W) as f eqn:Ef.
  destruct message; try discriminate. cbn in Hc.
  unfold getM. unfold bind at 1. cbn [ret get_prop]. rewrite Hc, Hh. reflexivity.
Qed.


(** The buffer of messages that arrive before a listener. *)

Lemma arrivals_buffered arrivals : forall s,
  channel s = true -> messageListeners s = 0%nat -> onceMessage s = [] ->
  let r := forEach (fun a => emit assertions win32 W "message" (fst a) (snd a))
                   arrivals s in
  result r = Ret tt
  /\ trace (after r) = trace s
  /\ ticks (after r) = ticks s
  /\ kPendingMessages (after r)
     = (kPendingMessages s ++ map (fun a => ("message", fst a, snd a)) arrivals)%list
  /\ channel (after r) = true
  /\ messageListeners (after r) = 0%nat
  /\ onceMessage (after r) = [].
Proof.
  induction arrivals as [|a rest IH]; intros s Hc Hl Ho; cbv zeta.
  - cbn. rewrite app_nil_r. repeat split; auto.
  - cbn [forEach]. unfold bind.
    rewrite emit_message_buffered
      by (unfold listenerCount_message; try rewrite Hl, Ho; auto).
    destruct (IH (set_kPendingMessages
                    (kPendingMessages s ++ [("message", fst a, snd a)]) s)
                 Hc Hl Ho) as (Hr & Ht & Hk & Hb & Hc' & Hl' & Ho').
    cbv zeta in *. rewrite Hr, Ht, Hk, Hb, Hc', Hl', Ho'. cbn.
    rewrite <- app_assoc. repeat split; auto.
Qed.

Lemma buffer_replayed arrivals : forall s,
  onceMessage s = [] ->
  let r := forEach (fun m => target_emit assertions win32 W (fst (fst m))
                                         [snd (fst m); snd m])
                   (map (fun a => ("message", fst a, snd a)) arrivals) s in
  result r = Ret tt
  /\ trace (after r)
     = (trace s ++ map (fun a => EEmit "message" [fst a; snd a]) arrivals)%list
  /\ ticks (after r) = ticks s
  /\ channel (after r) = channel s
  /\ messageListeners (after r) = messageListeners s
  /\ onceMessage (after r) = [].
Proof.
  induction arrivals as [|a rest IH]; intros s Ho; cbv zeta.
  - cbn. rewrite app_nil_r. repeat split; auto.
  - cbn [forEach map]. unfold bind at 1. unfold target_emit at 1. run.
    rewrite Ho. cbn.
    match goal with |- context [forEach _ _ ?s1] =>
      destruct (IH s1 eq_refl) as (Hr & Ht & Hk & Hc & Hl & Ho') end.
    cbv zeta in *. rewrite Hr, Ht, Hk, Hc, Hl, Ho'. cbn.
    rewrite <- app_assoc. repeat split; auto.
Qed.

Lemma addListener_message s :
  addListener "message" s
  = (Ret tt, set_messageListeners (S (messageListeners s))
               (set_ticks (ticks s ++ [TFlush]) s)).
Proof. reflexivity. Qed.

Lemma flush_empty s :
  kPendingMessages s = [] -> flush assertions win32 W s = (Ret tt, s).
Proof.
  intros H. unfold flush. run.
  destruct (negb (channel s) || (listenerCount_message s =? 0)%nat);
    [reflexivity|]. rewrite H. reflexivity.
Qed.

Lemma flush_nonempty s :
  channel s = true -> (0 < messageListeners s)%nat ->
  kPendingMessages s <> [] ->
  let replay := forEach (fun m => target_emit assertions win32 W (fst (fst m))
                                              [snd (fst m); snd m])
                        (kPendingMessages s) in
  result (replay s) = Ret tt -> channel (after (replay s)) = true ->
  flush assertions win32 W s
  = (Ret tt, set_kPendingMessages [] (after (replay s))).
Proof.
  intros Hc Hl Hb replay Hr Hc'. subst replay. unfold flush.
  unfold bind at 1, get at 1. rewrite Hc.
  unfold listenerCount_message.
  destruct (messageListeners s) as [|n]; [inversion Hl|].
  cbn [negb orb Nat.add Nat.eqb]. cbv zeta.
  destruct (List.length (kPendingMessages s) =? 0)%nat eqn:El.
  - apply Nat.eqb_eq, length_zero_iff_nil in El. contradiction.
  - rewrite (bind_returned _ _ _ _ Hr).
    set (s' := after (forEach _ (kPendingMessages s) s)) in *. clearbody s'.
    run. rewrite Hc'. reflexivity.
Qed.

Lemma flush_replays s arrivals :
  channel s = true -> (0 < messageListeners s)%nat -> onceMessage s = [] ->
  kPendingMessages s = map (fun a => ("message", fst a, snd a)) arrivals ->
  let r := flush assertions win32 W s in
  result r = Ret tt
  /\ trace (after r)
     = (trace s ++ map (fun a => EEmit "message" [fst a; snd a]) arrivals)%list
  /\ ticks (after r) = ticks s
  /\ kPendingMessages (after r) = [].
Proof.
  intros Hc Hl Ho Hb. cbv zeta.
  destruct arrivals as [|a rest].
  - rewrite flush_empty by exact Hb. cbn. rewrite app_nil_r. auto.
  - destruct (buffer_replayed (a :: rest) s Ho) as (Hr & Ht & Hk & Hc' & _ & _).
    cbv zeta in Hr, Ht, Hk, Hc'. rewrite <- Hb in Hr, Ht, Hk, Hc'.
    assert (Hne : kPendingMessages s <> []) by (rewrite Hb; discriminate).
    rewrite Hc in Hc'.
    rewrite (flush_nonempty s Hc Hl Hne Hr Hc').
    set (s' := after (forEach _ (kPendingMessages s) s)) in *. clearbody s'.
    cbn. rewrite Ht, Hk. auto.
Qed.


End Receiving.

(** ** The negative acknowledgment *)

Section Retransmission.
Variables assertions win32 : bool.
Variable W : nat -> value -> value -> WriteResult.

(** Under the cap the listener counts the retransmission, drops the
    backlog queue and calls [_send] with the pending message and handle.
    The handle stored by [postSend] is the raw one, which the [instanceof]
    chain of [_send] does not recognise: the call throws, nothing is
    written, and the entries of the old backlog are never sent. *)
Lemma nack_resend_rejected s p q handle :
  _pendingMessage s = Some p ->
  _handleQueue s = Some q ->
  PendingMessage.retransmissions p <> MAX_HANDLE_RETRANSMISSIONS ->
  asserted assertions (connected s || channel s) ->
  is_undefined (PendingMessage.message p) = false ->
  sendable (PendingMessage.message p) = true ->
  truthy (PendingMessage.handle p) = true ->
  instanceOf (PendingMessage.handle p) = None ->
  onInternalMessage assertions win32 W (VObj [("cmd", VStr NODE_HANDLE_NACK)]) handle s
  = (Throw ERR_INVALID_HANDLE_TYPE,
     set_handleQueue None
       (set_pendingMessage
          (Some (PendingMessage.Build
                   (PendingMessage.callback p) (PendingMessage.message p)
                   (PendingMessage.handle p) (PendingMessage.options p)
                   (PendingMessage.retransmissions p + 1))) s)).
Proof.
  intros Hp Hq Hn Ha Hm Hs Hh Hi.
  apply Z.eqb_neq in Hn.
  unfold onInternalMessage.
  remember (resend assertions win32 W) as f eqn:Ef.
  run. rewrite Hp. cbn. rewrite Hn. cbn. rewrite Hq. cbn.
  subst f. unfold resend. unfold bind at 1.
  rewrite _send_asserted by exact Ha. rewrite Hm, Hs.
  unfold package. run. rewrite Hh, Hi. reflexivity.
Qed.

(** Past the cap the listener closes the pending handle, warns, and goes
    on to the backlog. *)
Lemma nack_past_cap s p q handle :
  _pendingMessage s = Some p ->
  _handleQueue s = Some q ->
  PendingMessage.retransmissions p = MAX_HANDLE_RETRANSMISSIONS ->
  truthy (PendingMessage.handle p) = true ->
  onInternalMessage assertions win32 W (VObj [("cmd", VStr NODE_HANDLE_NACK)]) handle s
  = (forEach (fun args =>
                resend assertions win32 W
                       (QueuedSend.message args) (QueuedSend.handle args)
                       (QueuedSend.options args) (QueuedSend.callback args)) q ;;
     s <- get ;;
     when (negb (connected s) && channel s && negb (is_some (_handleQueue s)))
          (_disconnect assertions))
      (set_handleQueue None
         (set_trace
            (trace s ++ [EHandleClose (PendingMessage.handle p);
                         EWarning "Handle did not reach the receiving process correctly"
                                  "SentHandleNotReceivedWarning"])
            (set_pendingMessage None s))).
Proof.
  intros Hp Hq Hn Hh.
  unfold onInternalMessage, closePendingHandle.
  remember (resend assertions win32 W) as f eqn:Ef.
  remember (_disconnect assertions) as d eqn:Ed.
  run. rewrite Hp. cbn. rewrite Hn. cbn. rewrite Hh. cbn. rewrite Hq. cbn.
  rewrite <- app_assoc. reflexivity.
Qed.

End Retransmission.

(** ** The statements at concrete channels *)

(** C2, at a failing input.  A socket is sent over a fresh channel and the
    peer answers [NODE_HANDLE_NACK].  The listener counts one retransmission
    and calls [_send] with the pending envelope and the raw handle that
    [postSend] stored; [_send] knows no class for a raw handle and throws
    [ERR_INVALID_HANDLE_TYPE] out of the listener.  The only write of the
    run is the first one: the handle is not retransmitted, and the target is
    left with its pending handshake and no backlog queue. *)
Theorem nack_retransmission_throws :
  let r := steps false false quiet
                 [Send (VStr "hi") (VSocket 0) VUndefined VUndefined;
                  Read VUndefined (Some [VObj [("cmd", VStr NODE_HANDLE_NACK)]]);
                  Tick]
                 with_socket in
  result r = Throw ERR_INVALID_HANDLE_TYPE
  /\ trace (after r)
     = [EReadStart; EHandleDetach (VNative 7); ESetTimeout 0;
        EWrite (VObj [("cmd", VStr NODE_HANDLE); ("type", VStr "net.Socket");
                      ("msg", VStr "hi")])
               (VNative 7);
        EEmit "internalMessage" [VObj [("cmd", VStr NODE_HANDLE_NACK)]; VUndefined]]
  /\ _handleQueue (after r) = None
  /\ option_map PendingMessage.retransmissions (_pendingMessage (after r)) = Some 1
  /\ option_map PendingMessage.handle (_pendingMessage (after r)) = Some (VNative 7)
  /\ instanceOf (VNative 7) = None.
Proof. vm_compute. repeat split; reflexivity. Qed.

(** Counterexample to C3 as stated: on a disconnected target a [send()] with an
    [options] argument that is not an object throws
    [ERR_INVALID_ARG_TYPE] and reports nothing later. *)
Lemma closed_send_checks_options :
  let r := send false false quiet (VStr "m") VUndefined (VNum 42) VUndefined closed in
  connected closed = false
  /\ result r = Throw (ERR_INVALID_ARG_TYPE "options")
  /\ ticks (after r) = ticks closed
  /\ trace (after r) = trace closed.
Proof. vm_compute. repeat split; reflexivity. Qed.

(** Counterexample to C4 as stated: on a target with no ["error"] listener
    the second [disconnect()] does not return; the emitter throws
    [ERR_IPC_DISCONNECTED] into its caller. *)
Lemma second_disconnect_throws :
  let r := steps false false quiet [Disconnect; Disconnect] fresh in
  connected closed = false
  /\ errorListeners closed = 0%nat
  /\ disconnect false closed
     = (Throw ERR_IPC_DISCONNECTED,
        set_trace (trace closed ++ [EEmit "error" [VError ERR_IPC_DISCONNECTED]])
                  closed)
  /\ result r = Throw ERR_IPC_DISCONNECTED
  /\ trace (after r) = [EReadStart; EEmit "error" [VError ERR_IPC_DISCONNECTED]].
Proof. vm_compute. repeat split; reflexivity. Qed.


(** Witness of C1, at [awaiting]: [send("next")] behind the socket throws
    and the target is as it was. *)
Lemma send_behind_handshake_throws_witness :
  _handleQueue awaiting = Some []
  /\ asserted false (connected awaiting || channel awaiting)
  /\ _send false false quiet (VStr "next") VUndefined
           (VObj [("swallowErrors", VBool false)]) VUndefined awaiting
     = (Throw TypeError, awaiting).
Proof.
  split; [reflexivity|]. split; [left; reflexivity|].
  apply (proj1 (proj2 (send_behind_handshake_throws
                         false false quiet awaiting [] (VStr "next") VUndefined
                         (VObj [("swallowErrors", VBool false)]) VUndefined
                         eq_refl (or_introl eq_refl) eq_refl eq_refl))).
  right. split; reflexivity.
Defined.

(** Witness of C3, at [closed]: the callback is called with the error on a later tick. *)
Lemma send_on_closed_channel_witness :
  connected closed = false
  /\ options_rejected VUndefined VUndefined = false
  /\ send false false quiet (VStr "m") VUndefined VUndefined (VFun 1) closed
     = (Ret false,
        set_ticks (ticks closed ++ [TCall (VFun 1) (VError ERR_IPC_CHANNEL_CLOSED)])
                  closed).
Proof.
  split; [reflexivity|]. split; [reflexivity|].
  exact (proj1 (send_on_closed_channel
                  false false quiet closed closed (VStr "m") VUndefined VUndefined
                  (VFun 1) eq_refl eq_refl)).
Defined.

Lemma draining_handle :
  forall p, _pendingMessage draining = Some p ->
            truthy (PendingMessage.handle p) = true.
Proof. intros p H. vm_compute in H. injection H as <-. reflexivity. Defined.

(** Witness of C4, at [closed], [fresh], [awaiting] and [draining]; the
    second [disconnect()] on a target that listens for ["error"]. *)
Lemma connected_falls_once_witness :
  connected (after (step false false quiet
                         (Send (VStr "m") VUndefined VUndefined VUndefined) closed))
  = false
  /\ channel (after (disconnect false fresh)) = false
  /\ result (finish 0 fresh) = Ret tt
  /\ disconnect false awaiting = (Ret tt, set_connected false awaiting)
  /\ channel (after (onInternalMessage false false quiet
                       (VObj [("cmd", VStr NODE_HANDLE_ACK)]) VUndefined
                       draining)) = false
  /\ result (disconnect false (after (addListener "error" closed))) = Ret tt.
Proof.
  split.
  { exact (proj1 (connected_falls_once
                    false false quiet
                    (Send (VStr "m") VUndefined VUndefined VUndefined)
                    closed [] NODE_HANDLE_ACK VUndefined 0%nat) eq_refl). }
  split.
  { rewrite (proj1 (proj2 (connected_falls_once
                             false false quiet Disconnect fresh []
                             NODE_HANDLE_ACK VUndefined 0%nat))
                   eq_refl eq_refl eq_refl eq_refl).
    reflexivity. }
  split.
  { rewrite (proj1 (proj1 (proj2 (proj2 (connected_falls_once
                                           false false quiet Disconnect fresh []
                                           NODE_HANDLE_ACK VUndefined 0%nat)))
                          eq_refl)).
    reflexivity. }
  split.
  { exact (proj1 (proj2 (proj2 (proj2 (connected_falls_once
                                         false false quiet Disconnect awaiting []
                                         NODE_HANDLE_ACK VUndefined 0%nat))))
                 eq_refl eq_refl). }
  split.
  { exact (proj1 (proj2
             (proj1 (proj2 (proj2 (proj2 (proj2
                (connected_falls_once
                   false false quiet Disconnect draining []
                   NODE_HANDLE_ACK VUndefined 0%nat)))))
                eq_refl eq_refl eq_refl
                (or_introl (conj eq_refl draining_handle))))). }
  rewrite (proj2 (proj2 (proj2 (proj2 (proj2 (proj2
             (connected_falls_once
                false false quiet Disconnect
                (after (addListener "error" closed)) []
                NODE_HANDLE_ACK VUndefined 0%nat))))))
             eq_refl).
  reflexivity.
Defined.




(** Witness of C8, at [fresh]: a chunk with one internal and one user message. *)
Lemma internal_messages_bypass_listeners_witness :
  channel fresh = true
  /\ listenerCount_message fresh = 0%nat
  /\ exists new,
      ticks (after (onread false VUndefined
                           (Some [VObj [("cmd", VStr "NODE_X")]; VStr "hello"])
                           fresh))
      = (ticks fresh ++ new)%list
      /\ map envelope_of new
         = [Some ("internalMessage", VObj [("cmd", VStr "NODE_X")]);
            Some ("message", VStr "hello")].
Proof.
  repeat (split; [reflexivity|]).
  destruct (proj1 (proj2 (internal_messages_bypass_listeners
                            false false quiet fresh (VStr "hello") VUndefined
                            VUndefined
                            [VObj [("cmd", VStr "NODE_X")]; VStr "hello"]))
                  eq_refl)
    as (_ & _ & new & Hn & Hm).
  exists new. split; [exact Hn | exact Hm].
Defined.

(** Witness of C10, at [closed] and [fresh]: an undefined message is not noticed on the
    disconnected target and is rejected on the connected one. *)
Lemma closed_channel_skips_validation_witness :
  connected closed = false
  /\ options_rejected VUndefined VUndefined = false
  /\ result (send false false quiet VUndefined VUndefined VUndefined VUndefined closed)
     = Ret false
  /\ result (send false false quiet VUndefined VUndefined VUndefined VUndefined fresh)
     = Throw (ERR_MISSING_ARGS "message")
  /\ connected fresh = true.
Proof.
  split; [reflexivity|]. split; [reflexivity|]. split.
  { rewrite (proj1 (proj2 (proj1 (closed_channel_skips_validation
                                    false false quiet closed VUndefined VUndefined
                                    VUndefined VUndefined) eq_refl)) eq_refl).
    reflexivity. }
  split; [reflexivity|].
  exact (proj2 (closed_channel_skips_validation
                  false false quiet fresh VUndefined VUndefined VUndefined VUndefined)
               (ERR_MISSING_ARGS "message") eq_refl (or_introl eq_refl)).
Defined.

(** * Further properties *)

(** ** What [send] throws *)

Section Raises.
Variable Q : error -> Prop.

Lemma raises_ret {A : Type} (a : A) : raises Q (ret a).
Proof. intros s e s' E. discriminate. Qed.

Lemma raises_throw {A : Type} (e : error) : Q e -> raises Q (@throw A e).
Proof. intros H s e' s' E. injection E as <- _. exact H. Qed.

Lemma raises_get : raises Q get.
Proof. intros s e s' E. discriminate. Qed.

Lemma raises_modify f : raises Q (modify f).
Proof. intros s e s' E. discriminate. Qed.

Lemma raises_bind {A B : Type} (m : M A) (k : A -> M B) :
  raises Q m -> (forall a, raises Q (k a)) -> raises Q (bind m k).
Proof.
  intros Hm Hk s e s' E. unfold bind in E.
  destruct (m s) as [[a|e0] s1] eqn:Em.
  - exact (Hk a _ _ _ E).
  - injection E as <- <-. exact (Hm _ _ _ Em).
Qed.

Lemma raises_when b m : raises Q m -> raises Q (when b m).
Proof. intros H. destruct b; cbn; [exact H | apply raises_ret]. Qed.

Lemma raises_forEach {A : Type} (f : A -> M unit) (l : list A) :
  (forall a, raises Q (f a)) -> raises Q (forEach f l).
Proof.
  intros H. induction l; cbn.
  - apply raises_ret.
  - apply raises_bind; auto.
Qed.
End Raises.

Ltac raises_with tac :=
  repeat first
    [ solve [tac]
    | apply raises_ret
    | apply raises_throw; tac
    | apply raises_get
    | apply raises_modify
    | apply raises_when
    | apply raises_forEach; intros
    | apply raises_bind; [ | intros]
    | match goal with
      | |- raises _ (match ?x with _ => _ end) => destruct x
      end
    | progress cbv zeta ].

Create HintDb usage.

Ltac usage :=
  raises_with ltac:(first [ solve [unfold thrown_by_send; cbn; auto 10]
                          | solve [auto with usage] ]).

Section Usage.
Variables assertions win32 : bool.
Variable W : nat -> value -> value -> WriteResult.

Local Abbreviation U := (raises thrown_by_send).

Lemma U_tell e : U (tell e).
Proof. unfold tell. usage. Qed.
Lemma U_nextTick t : U (nextTick t).
Proof. unfold nextTick. usage. Qed.
Lemma U_getM v k : U (getM v k).
Proof. unfold getM. usage. Qed.
Lemma U_assert c : U (js_assert assertions c).
Proof. unfold js_assert. usage. Qed.
Hint Resolve U_tell U_nextTick U_getM U_assert : usage.
Lemma U_method_call h e : U (method_call h e).
Proof. unfold method_call. usage. Qed.
Hint Resolve U_method_call : usage.
Lemma U_refCounted : U refCounted.
Proof. unfold refCounted, channel_ref. usage. Qed.
Lemma U_getSocketList t k : U (getSocketList t k).
Proof. unfold getSocketList. usage. Qed.
Hint Resolve U_refCounted U_getSocketList : usage.
Lemma U_conversion_send t m r o : U (conversion_send t m r o).
Proof. unfold conversion_send, server_send, socket_send, dgram_send. usage. Qed.
Lemma U_postSend m h o c b : U (postSend assertions m h o c b).
Proof. unfold postSend. usage. Qed.
Hint Resolve U_conversion_send U_postSend : usage.
Lemma U_package m h o c : U (package win32 m h o c).
Proof. unfold package, enqueue. usage. Qed.
Lemma U_settle w r m h o c obj : U (settle assertions w r m h o c obj).
Proof. unfold settle. usage. Qed.
Hint Resolve U_package U_settle : usage.
Lemma U_transmit m h o c obj : U (transmit assertions W m h o c obj).
Proof. unfold transmit. usage. Qed.
Hint Resolve U_transmit : usage.
Lemma U__send m h o c : U (_send assertions win32 W m h o c).
Proof. unfold _send. usage. Qed.
Hint Resolve U__send : usage.
Lemma U_send m h o c : U (send assertions win32 W m h o c).
Proof. unfold send, validateObject. usage. Qed.

(** X1.  Whatever the state of the channel and the answer of the transport,
    an exception that leaves [send] is a rejection of its arguments
    ([ERR_MISSING_ARGS] or [ERR_INVALID_ARG_TYPE] for the message,
    [ERR_INVALID_ARG_TYPE] for the options, [ERR_INVALID_HANDLE_TYPE]), a
    [TypeError] of the runtime or a failed assertion: a closed channel and a
    failed write are never reported by a throw. *)
Theorem send_throws_only_rejections
        (s : state) (message handle options callback : value) (e : error) :
  result (send assertions win32 W message handle options callback s) = Throw e ->
  thrown_by_send e
  /\ e <> ERR_IPC_CHANNEL_CLOSED
  /\ forall errno syscall, e <> ErrnoException errno syscall.
Proof.
  intros H.
  assert (Ht : thrown_by_send e).
  { destruct (send assertions win32 W message handle options callback s)
      as [o s'] eqn:E. cbn in H. subst o. exact (U_send _ _ _ _ _ _ _ E). }
  split; [exact Ht|].
  unfold thrown_by_send in Ht. cbn in Ht.
  split; [|intros errno syscall]; intros ->;
    repeat (destruct Ht as [Ht|Ht]; [discriminate|]); exact Ht.
Qed.
End Usage.

(** ** Writes without a handle *)

Section Plain.
Variables assertions win32 : bool.
Variable W : nat -> value -> value -> WriteResult.

(** A message without a handle, with no backlog in its way, goes straight to
    the write. *)
Lemma send_plain_transmits s message handle options callback :
  _handleQueue s = None ->
  asserted assertions (connected s || channel s) ->
  is_undefined message = false -> sendable message = true ->
  truthy handle = false ->
  _send assertions win32 W message handle options callback s
  = transmit assertions W message handle (legacy options) callback None s.
Proof.
  intros Hq Ha Hm Hs Hh. rewrite (_send_asserted _ _ _ _ _ _ _ _ Ha), Hm, Hs.
  unfold package. unfold bind at 1. rewrite Hh. run. rewrite Hq. reflexivity.
Qed.

(** A write without a handle and with an options object always returns. *)
Lemma transmit_plain_returns message handle props callback s :
  truthy handle = false ->
  exists b,
    result (transmit assertions W message handle (VObj props) callback None s) = Ret b.
Proof.
  intros Hh. unfold transmit, settle, obj_postSend, refCounted, channel_ref. run.
  rewrite Hh.
  destruct (err (W (writes s) message handle) =? 0); cbn.
  - destruct (kLastWriteWasAsync (W (writes s) message handle)); cbn.
    + destruct ((refs s + 1 =? 1) && negb (refExplicitlySet s)); cbn; eauto.
    + destruct (is_function callback); cbn; eauto.
  - destruct (truthy (lookup "swallowErrors" props)); cbn; eauto.
    destruct (is_function callback); cbn; eauto.
Qed.

(** A failed write without a handle. *)
Lemma transmit_plain_failed message handle props callback s :
  truthy handle = false ->
  err (W (writes s) message handle) <> 0 ->
  let w := W (writes s) message handle in
  let r := transmit assertions W message handle (VObj props) callback None s in
  result r = Ret (queueSize w <? 65536 * 2)
  /\ trace (after r) = (trace s ++ [EWrite message handle])%list
  /\ ticks (after r)
     = (ticks s ++ if truthy (lookup "swallowErrors" props) then []
                   else [write_error_task callback (err w)])%list
  /\ refs (after r) = refs s
  /\ oncomplete (after r) = oncomplete s
  /\ _handleQueue (after r) = _handleQueue s
  /\ _pendingMessage (after r) = _pendingMessage s.
Proof.
  intros Hh He. apply Z.eqb_neq in He.
  unfold transmit, settle, obj_postSend, write_error_task. run.
  rewrite Hh, He. cbn.
  destruct (truthy (lookup "swallowErrors" props)); cbn.
  - rewrite app_nil_r. repeat split; reflexivity.
  - destruct (is_function callback); cbn; repeat split; reflexivity.
Qed.

Lemma options_of_object handle options :
  exists props, options_of handle options = VObj props.
Proof. unfold options_of. eauto. Qed.

(** X2.  On a connected target, take a [send] whose options are accepted,
    whose message is defined and of a sendable type and which carries no
    handle.  With no backlog in its way, or when the message is a
    [NODE_HANDLE_ACK] or [NODE_HANDLE_NACK], it returns: a failed write does
    not make it throw.  Behind a backlog any other message is thrown back as
    a [TypeError] and the target is as it was. *)
Theorem plain_send_outcome (s : state) (message handle options callback : value) :
  connected s = true ->
  options_rejected handle options = false ->
  is_undefined message = false ->
  sendable message = true ->
  truthy (handle_of handle) = false ->
  (_handleQueue s = None \/ is_reply message = true ->
   exists b, result (send assertions win32 W message handle options callback s) = Ret b)
  /\ (_handleQueue s <> None -> is_reply message = false ->
      send assertions win32 W message handle options callback s
      = (Throw TypeError, s)).
Proof.
  intros Hc Ho Hm Hs Hh.
  rewrite (send_connected _ _ _ s _ _ _ _ Hc Ho).
  assert (Ha : asserted assertions (connected s || channel s))
    by (right; rewrite Hc; reflexivity).
  destruct (options_of_object handle options) as [props Ep]. rewrite Ep.
  destruct (_handleQueue s) as [q|] eqn:Hq.
  - split.
    + intros [Hn|Hr]; [discriminate|].
      rewrite (send_reply_bypasses _ _ _ s q) by assumption.
      apply transmit_plain_returns. exact Hh.
    + intros _ Hr. apply (send_behind_plain _ _ _ s q); assumption.
  - split; [|intros Hn; contradiction].
    intros _. rewrite send_plain_transmits by assumption.
    apply transmit_plain_returns. exact Hh.
Qed.

(** X3.  A write that fails.  When the transport refuses a message sent
    without a handle, [send] still returns the backpressure signal; the
    message was handed to the transport once, and the [ErrnoException] of
    the write is deferred to a later tick, to the callback or else as an
    ["error"] event, unless [swallowErrors] is set.  No completion is
    awaited for the write, and no handshake starts. *)
Theorem write_failure_is_deferred (s : state) (message handle options callback : value) :
  connected s = true ->
  options_rejected handle options = false ->
  is_undefined message = false ->
  sendable message = true ->
  truthy (handle_of handle) = false ->
  _handleQueue s = None ->
  err (W (writes s) message (handle_of handle)) <> 0 ->
  let w := W (writes s) message (handle_of handle) in
  let r := send assertions win32 W message handle options callback s in
  result r = Ret (queueSize w <? 65536 * 2)
  /\ trace (after r) = (trace s ++ [EWrite message (handle_of handle)])%list
  /\ ticks (after r)
     = (ticks s ++ if truthy (get_prop (options_of handle options) "swallowErrors")
                   then []
                   else [write_error_task (callback_of handle options callback)
                                          (err w)])%list
  /\ refs (after r) = refs s
  /\ _handleQueue (after r) = None
  /\ _pendingMessage (after r) = _pendingMessage s.
Proof.
  intros Hc Ho Hm Hs Hh Hq He. cbv zeta.
  rewrite (send_connected _ _ _ s _ _ _ _ Hc Ho).
  assert (Ha : asserted assertions (connected s || channel s))
    by (right; rewrite Hc; reflexivity).
  rewrite send_plain_transmits by assumption.
  destruct (options_of_object handle options) as [props Ep]. rewrite Ep.
  destruct (transmit_plain_failed message (handle_of handle) props
              (callback_of handle options callback) s Hh He)
    as (H1 & H2 & H3 & H4 & _ & H6 & H7).
  cbv zeta in *. cbn [legacy get_prop]. rewrite H6 in *. auto 10.
Qed.
End Plain.

(** ** Writes with a handle *)

Lemma mem_app_snoc k l : mem k (l ++ [k]) = true.
Proof.
  induction l as [|k' l IH]; cbn.
  - rewrite String.eqb_refl. reflexivity.
  - rewrite IH. apply orb_true_r.
Qed.

Section Handles.
Variables assertions win32 : bool.
Variable W : nat -> value -> value -> WriteResult.

(** X4.  Sending a socket that still has its raw handle and belongs to no
    server, without [keepOpen], over a channel with no backlog and no
    handshake pending, when the write succeeds: the raw handle is detached
    from the socket and written with the envelope, an empty backlog is
    opened, and the handle is kept as the pending message, to be closed at
    its acknowledgment. *)
Theorem socket_send_starts_handshake
        (s : state) (r : nat) (message callback : value)
        (props : list (string * value)) :
  _handleQueue s = None ->
  _pendingMessage s = None ->
  asserted assertions (connected s || channel s) ->
  is_undefined message = false ->
  sendable message = true ->
  truthy (_handle (objs s r)) = true ->
  server (objs s r) = None ->
  truthy (lookup "keepOpen" props) = false ->
  err (W (writes s) (envelope net_Socket message) (_handle (objs s r))) = 0 ->
  let raw := _handle (objs s r) in
  let res := _send assertions win32 W message (VSocket r) (VObj props) callback s in
  (exists b, result res = Ret b)
  /\ (exists l,
         trace (after res)
         = (trace s ++ [EHandleDetach raw; ESetTimeout r;
                        EWrite (envelope net_Socket message) raw] ++ l)%list
         /\ (l = [] \/ l = [EChannelRef]))
  /\ _handleQueue (after res) = Some []
  /\ _pendingMessage (after res)
     = Some (PendingMessage.Build callback (envelope net_Socket message) raw
                                  (VObj props) 0)
  /\ _handle (objs (after res) r) = VNull.
Proof.
  intros Hq Hp Ha Hm Hs Ht Hsv Hk He. cbv zeta.
  rewrite (_send_asserted _ _ _ _ _ _ _ _ Ha), Hm, Hs.
  unfold package, conversion_send, socket_send, transmit, settle, postSend,
    obj_postSend, refCounted, channel_ref, envelope in *.
  apply Z.eqb_eq in He. cbn in He. unfold update. run.
  repeat (progress (cbn; rewrite ?Hq, ?Ht, ?Hsv, ?Hk, ?He, ?Hp, ?Nat.eqb_refl)).
  destruct (kLastWriteWasAsync _); cbn.
  - destruct ((refs s + 1 =? 1) && negb (refExplicitlySet s)); cbn;
      rewrite ?Nat.eqb_refl; cbn; rewrite <- ?app_assoc; cbn;
      repeat split; eauto.
  - destruct (is_function callback); cbn; rewrite ?Nat.eqb_refl; cbn;
      rewrite <- ?app_assoc; cbn; repeat split; eauto.
Qed.

(** X5.  The same send with [keepOpen]: the handle is written and the
    backlog opened, but the socket keeps its handle and nothing is held
    back to be closed at the acknowledgment. *)
Theorem socket_send_keep_open
        (s : state) (r : nat) (message callback : value)
        (props : list (string * value)) :
  _handleQueue s = None ->
  asserted assertions (connected s || channel s) ->
  is_undefined message = false ->
  sendable message = true ->
  truthy (_handle (objs s r)) = true ->
  server (objs s r) = None ->
  truthy (lookup "keepOpen" props) = true ->
  err (W (writes s) (envelope net_Socket message) (_handle (objs s r))) = 0 ->
  let raw := _handle (objs s r) in
  let res := _send assertions win32 W message (VSocket r) (VObj props) callback s in
  (exists b, result res = Ret b)
  /\ (exists l,
         trace (after res)
         = (trace s ++ [EWrite (envelope net_Socket message) raw] ++ l)%list
         /\ (l = [] \/ l = [EChannelRef]))
  /\ _handleQueue (after res) = Some []
  /\ _pendingMessage (after res) = _pendingMessage s
  /\ objs (after res) = objs s.
Proof.
  intros Hq Ha Hm Hs Ht Hsv Hk He. cbv zeta.
  rewrite (_send_asserted _ _ _ _ _ _ _ _ Ha), Hm, Hs.
  unfold package, conversion_send, socket_send, transmit, settle, postSend,
    obj_postSend, refCounted, channel_ref, envelope in *.
  apply Z.eqb_eq in He. cbn in He. run.
  repeat (progress (cbn; rewrite ?Hq, ?Ht, ?Hsv, ?Hk, ?He)).
  destruct (kLastWriteWasAsync _); cbn.
  - destruct ((refs s + 1 =? 1) && negb (refExplicitlySet s)); cbn;
      rewrite <- ?app_assoc; cbn; repeat split; eauto.
  - destruct (is_function callback); cbn;
      rewrite <- ?app_assoc; cbn; repeat split; eauto.
Qed.

(** X6.  When the write of a socket's handle fails, the handle, already
    detached from the socket, is closed at once; no backlog is opened and no
    handshake awaited, and the failure is reported on a later tick unless
    [swallowErrors] is set. *)
Theorem socket_send_failed_write
        (s : state) (r : nat) (message callback : value)
        (props : list (string * value)) :
  _handleQueue s = None ->
  asserted assertions (connected s || channel s) ->
  is_undefined message = false ->
  sendable message = true ->
  truthy (_handle (objs s r)) = true ->
  server (objs s r) = None ->
  truthy (lookup "keepOpen" props) = false ->
  err (W (writes s) (envelope net_Socket message) (_handle (objs s r))) <> 0 ->
  let raw := _handle (objs s r) in
  let w := W (writes s) (envelope net_Socket message) raw in
  let res := _send assertions win32 W message (VSocket r) (VObj props) callback s in
  result res = Ret (queueSize w <? 65536 * 2)
  /\ trace (after res)
     = (trace s ++ [EHandleDetach raw; ESetTimeout r;
                    EWrite (envelope net_Socket message) raw;
                    EHandleClose raw])%list
  /\ ticks (after res)
     = (ticks s ++ if truthy (lookup "swallowErrors" props) then []
                   else [write_error_task callback (err w)])%list
  /\ _handleQueue (after res) = None
  /\ _pendingMessage (after res) = _pendingMessage s
  /\ _handle (objs (after res) r) = VNull.
Proof.
  intros Hq Ha Hm Hs Ht Hsv Hk He. cbv zeta.
  rewrite (_send_asserted _ _ _ _ _ _ _ _ Ha), Hm, Hs.
  unfold package, conversion_send, socket_send, transmit, settle, postSend,
    obj_postSend, write_error_task, envelope in *.
  apply Z.eqb_neq in He. cbn in He. unfold update. run.
  repeat (progress (cbn; rewrite ?Hq, ?Ht, ?Hsv, ?Hk, ?He, ?Nat.eqb_refl)).
  destruct (truthy (lookup "swallowErrors" props)); cbn.
  - rewrite ?Nat.eqb_refl, ?app_nil_r, <- ?app_assoc. repeat split; auto.
  - destruct (is_function callback); cbn;
      rewrite ?Nat.eqb_refl, <- ?app_assoc; repeat split; auto.
Qed.

(** X7.  A wrapper that has no raw handle left (a socket that was already
    sent, a closed server): the message is written bare, without envelope
    and without handle, and no handshake starts.  On win32 this holds of
    sockets and datagram sockets only. *)
Theorem handle_gone_sends_text
        (s : state) (t : handleType) (r : nat)
        (message handle options callback : value) :
  _handleQueue s = None ->
  asserted assertions (connected s || channel s) ->
  is_undefined message = false ->
  sendable message = true ->
  instanceOf handle = Some (t, r) ->
  truthy (_handle (objs s r)) = false ->
  simultaneousAccepts t && win32 = false ->
  let res := _send assertions win32 W message handle options callback s in
  (exists l,
      trace (after res)
      = (trace s ++ EWrite message (missing_handle t (objs s r)) :: l)%list
      /\ (l = [] \/ l = [EChannelRef]))
  /\ _handleQueue (after res) = None
  /\ _pendingMessage (after res) = _pendingMessage s
  /\ objs (after res) = objs s.
Proof.
  intros Hq Ha Hm Hs Hi Ht Hw. cbv zeta.
  assert (Hh : truthy handle = true)
    by (destruct handle; try discriminate; reflexivity).
  rewrite (_send_asserted _ _ _ _ _ _ _ _ Ha), Hm, Hs.
  unfold package. rewrite Hh, Hi.
  unfold conversion_send, server_send, socket_send, dgram_send, transmit, settle,
    postSend, obj_postSend, refCounted, channel_ref, missing_handle.
  destruct t; cbn in Hw; rewrite ?Hw; run;
    repeat (progress (cbn; rewrite ?Hq, ?Ht));
    (match goal with
     | |- context [err ?w =? 0] =>
         destruct (err w =? 0); cbn; [destruct (kLastWriteWasAsync w); cbn|]
     end;
     [ destruct ((refs s + 1 =? 1) && negb (refExplicitlySet s))
     | destruct (is_function callback)
     | destruct (legacy options); cbn;
       try match goal with
           | |- context [truthy ?v] => destruct (truthy v); cbn
           end;
       try destruct (is_function callback) ];
     cbn; rewrite <- ?app_assoc; cbn; repeat split; eauto).
Qed.

(** X8.  On win32, sending a [net.Server] that has no raw handle left
    throws a [TypeError] ([setSimultaneousAccepts] is called on the missing
    handle) before anything is written or changed. *)
Theorem closed_server_throws_on_win32
        (s : state) (r : nat) (message options callback : value) :
  _handleQueue s = None ->
  asserted assertions (connected s || channel s) ->
  is_undefined message = false ->
  sendable message = true ->
  truthy (_handle (objs s r)) = false ->
  _send assertions true W message (VServer r) options callback s
  = (Throw TypeError, s).
Proof.
  intros Hq Ha Hm Hs Ht.
  rewrite (_send_asserted _ _ _ _ _ _ _ _ Ha), Hm, Hs.
  unfold package, conversion_send, server_send. run.
  rewrite Hq. cbn. rewrite Ht. reflexivity.
Qed.

(** X9.  A [net.Server] or [dgram.Socket] is shared, not handed over: its raw
    handle is written with the envelope (which carries the [dgramType] of a
    datagram socket), the backlog is opened, and the wrapper keeps its
    handle, which is never held back to be closed. *)
Theorem shared_handle_stays_open
        (s : state) (t : handleType) (r : nat)
        (message handle options callback : value) :
  _handleQueue s = None ->
  asserted assertions (connected s || channel s) ->
  is_undefined message = false ->
  sendable message = true ->
  instanceOf handle = Some (t, r) ->
  t <> net_Socket ->
  truthy (_handle (objs s r)) = true ->
  let raw := _handle (objs s r) in
  let wire :=
    match t with
    | dgram_Socket => set_prop (envelope t message) "dgramType" (type (objs s r))
    | _ => envelope t message
    end in
  err (W (writes s) wire raw) = 0 ->
  let res := _send assertions win32 W message handle options callback s in
  (exists b, result res = Ret b)
  /\ (exists l,
         trace (after res)
         = (trace s
            ++ (if simultaneousAccepts t && win32
                then [ESetSimultaneousAccepts raw true] else [])
            ++ [EWrite wire raw] ++ l)%list
         /\ (l = [] \/ l = [EChannelRef]))
  /\ _handleQueue (after res) = Some []
  /\ _pendingMessage (after res) = _pendingMessage s
  /\ objs (after res) = objs s.
Proof.
  intros Hq Ha Hm Hs Hi Hn Ht. cbv zeta. intros He.
  assert (Hh : truthy handle = true)
    by (destruct handle; try discriminate; reflexivity).
  rewrite (_send_asserted _ _ _ _ _ _ _ _ Ha), Hm, Hs.
  unfold package. rewrite Hh, Hi.
  unfold conversion_send, server_send, dgram_send, transmit, settle,
    postSend, obj_postSend, refCounted, channel_ref, envelope in *.
  apply Z.eqb_eq in He.
  destruct t; [|contradiction|]; cbn in He; run;
    repeat (progress (cbn; rewrite ?Hq, ?Ht, ?He));
    destruct win32; cbn;
    repeat (progress (cbn; rewrite ?Hq, ?Ht, ?He));
    destruct (kLastWriteWasAsync _); cbn;
    try (destruct ((refs s + 1 =? 1) && negb (refExplicitlySet s)); cbn);
    try (destruct (is_function callback); cbn);
    rewrite <- ?app_assoc; cbn; repeat split; eauto.
Qed.

(** X10.  A socket that was accepted by a server.  Its envelope carries the
    connection key of the server; the socket list of the key is created on
    the channel if it is not there yet, and only then is the server told to
    set up its worker; the server counts one connection less; the rest is
    the handshake of any socket. *)
Theorem accepted_socket_is_tracked
        (s : state) (r sv : nat) (message callback : value)
        (props : list (string * value)) :
  _handleQueue s = None ->
  _pendingMessage s = None ->
  asserted assertions (connected s || channel s) ->
  kChannelHandle s = true ->
  is_undefined message = false ->
  sendable message = true ->
  truthy (_handle (objs s r)) = true ->
  server (objs s r) = Some sv ->
  sv <> r ->
  truthy (lookup "keepOpen" props) = false ->
  let key := _connectionKey (objs s sv) in
  let raw := _handle (objs s r) in
  let wire := set_prop (envelope net_Socket message) "key" (VStr key) in
  err (W (writes s) wire raw) = 0 ->
  let res := _send assertions win32 W message (VSocket r) (VObj props) callback s in
  (exists b, result res = Ret b)
  /\ (exists l,
         trace (after res)
         = (trace s
            ++ (if mem key (sockets_send s) then [] else [ESetupWorker sv key])
            ++ [EHandleDetach raw; ESetTimeout r; EWrite wire raw] ++ l)%list
         /\ (l = [] \/ l = [EChannelRef]))
  /\ mem key (sockets_send (after res)) = true
  /\ _connections (objs (after res) sv) = _connections (objs s sv) - 1
  /\ _handle (objs (after res) r) = VNull
  /\ _pendingMessage (after res)
     = Some (PendingMessage.Build callback wire raw (VObj props) 0).
Proof.
  intros Hq Hp Ha Hch Hm Hs Ht Hsv Hne Hk. cbv zeta. intros He.
  rewrite (_send_asserted _ _ _ _ _ _ _ _ Ha), Hm, Hs.
  unfold package, conversion_send, socket_send, getSocketList, transmit, settle,
    postSend, obj_postSend, refCounted, channel_ref, envelope in *.
  apply Z.eqb_eq in He. cbn in He.
  assert (Hn1 : Nat.eqb r sv = false) by (apply Nat.eqb_neq; congruence).
  assert (Hn2 : Nat.eqb sv r = false) by (apply Nat.eqb_neq; congruence).
  unfold update. run.
  repeat (progress (cbn; rewrite ?Hq, ?Ht, ?Hsv, ?Hk, ?Hch, ?Hp, ?Hn1, ?Hn2,
                      ?Nat.eqb_refl)).
  destruct (mem (_connectionKey (objs s sv)) (sockets_send s)) eqn:Hmem;
    repeat (progress (cbn; rewrite ?Hq, ?Ht, ?Hsv, ?Hk, ?Hch, ?Hp, ?Hn1, ?Hn2, ?He,
                        ?Nat.eqb_refl));
    (destruct (kLastWriteWasAsync _); cbn;
     [destruct ((refs s + 1 =? 1) && negb (refExplicitlySet s))
     |destruct (is_function callback)]);
    repeat (progress (cbn; rewrite ?Hn1, ?Hn2, ?Nat.eqb_refl, ?mem_app_snoc));
    rewrite <- ?app_assoc; cbn; repeat split; eauto.
Qed.
End Handles.

(** ** The acknowledgment and the backlog *)

Lemma writes_of_app l1 l2 : writes_of (l1 ++ l2) = (writes_of l1 ++ writes_of l2)%list.
Proof.
  induction l1 as [|e l1 IH]; [reflexivity|].
  destruct e; cbn; rewrite IH; reflexivity.
Qed.

Section Draining.
Variables assertions win32 : bool.
Variable W : nat -> value -> value -> WriteResult.

(** One message of the backlog, sent again once the backlog is gone. *)
Lemma resend_plain s message handle props callback :
  _handleQueue s = None ->
  asserted assertions (connected s || channel s) ->
  is_undefined message = false -> sendable message = true ->
  truthy handle = false ->
  let r := resend assertions win32 W message handle (VObj props) callback s in
  result r = Ret tt
  /\ (exists l, trace (after r) = (trace s ++ EWrite message handle :: l)%list
                /\ writes_of l = [])
  /\ _handleQueue (after r) = None
  /\ _pendingMessage (after r) = _pendingMessage s
  /\ connected (after r) = connected s
  /\ channel (after r) = channel s.
Proof.
  intros Hq Ha Hm Hs Hh. cbv zeta. unfold resend, bind.
  rewrite (send_plain_transmits _ _ _ _ _ _ _ _ Hq Ha Hm Hs Hh). cbn [legacy].
  unfold transmit, settle, obj_postSend, refCounted, channel_ref. run.
  rewrite Hh.
  destruct (err (W (writes s) message handle) =? 0); cbn.
  - destruct (kLastWriteWasAsync (W (writes s) message handle)); cbn.
    + destruct ((refs s + 1 =? 1) && negb (refExplicitlySet s)); cbn;
        rewrite <- ?app_assoc; cbn; repeat split; eauto.
    + destruct (is_function callback); cbn; repeat split; eauto.
  - destruct (truthy (lookup "swallowErrors" props)); cbn; [repeat split; eauto|].
    destruct (is_function callback); cbn; repeat split; eauto.
Qed.

(** The backlog, sent again entry by entry. *)
Lemma drain_plain q :
  Forall plain_entry q ->
  forall s,
    _handleQueue s = None ->
    asserted assertions (connected s || channel s) ->
    let r := forEach (fun args =>
                        resend assertions win32 W
                               (QueuedSend.message args) (QueuedSend.handle args)
                               (QueuedSend.options args) (QueuedSend.callback args))
                     q s in
    result r = Ret tt
    /\ (exists l, trace (after r) = (trace s ++ l)%list
                  /\ writes_of l
                     = map (fun e => (QueuedSend.message e, QueuedSend.handle e)) q)
    /\ _handleQueue (after r) = None
    /\ _pendingMessage (after r) = _pendingMessage s
    /\ connected (after r) = connected s
    /\ channel (after r) = channel s.
Proof.
  induction 1 as [|e q (Hh & Hm & Hs & props & Ho) _ IH]; intros s Hq Ha; cbv zeta.
  - cbn. repeat split; try reflexivity; try assumption.
    exists []. rewrite app_nil_r. split; reflexivity.
  - cbn [forEach map]. rewrite Ho.
    destruct (resend_plain s (QueuedSend.message e) (QueuedSend.handle e) props
                (QueuedSend.callback e) Hq Ha Hm Hs Hh)
      as (R1 & (l & R2 & R2') & R3 & R4 & R5 & R6).
    unfold bind.
    destruct (resend assertions win32 W (QueuedSend.message e) (QueuedSend.handle e)
                     (VObj props) (QueuedSend.callback e) s) as [o s1].
    cbn in R1, R2, R3, R4, R5, R6. subst o.
    assert (Ha1 : asserted assertions (connected s1 || channel s1))
      by (rewrite R5, R6; exact Ha).
    destruct (IH s1 R3 Ha1) as (I1 & (l' & I2 & I3) & I4 & I5 & I6 & I7).
    repeat split.
    + exact I1.
    + exists (EWrite (QueuedSend.message e) (QueuedSend.handle e) :: l ++ l')%list.
      split.
      * rewrite I2, R2, <- app_assoc. reflexivity.
      * cbn. rewrite writes_of_app, R2', I3. reflexivity.
    + exact I4.
    + rewrite I5. exact R4.
    + rewrite I6. exact R5.
    + rewrite I7. exact R6.
Qed.

(** What the listener does with an acknowledgment: the handle that was
    held back is closed, the backlog queue is dropped, and every entry of
    the backlog is sent again; a disconnect that was waiting for the
    backlog follows. *)
Lemma ack_runs_backlog s q handle :
  (forall p, _pendingMessage s = Some p -> truthy (PendingMessage.handle p) = true) ->
  _handleQueue s = Some q ->
  onInternalMessage assertions win32 W (VObj [("cmd", VStr NODE_HANDLE_ACK)]) handle s
  = (forEach (fun args =>
                resend assertions win32 W
                       (QueuedSend.message args) (QueuedSend.handle args)
                       (QueuedSend.options args) (QueuedSend.callback args))
             q ;;
     s2 <- get ;;
     when (negb (connected s2) && channel s2 && negb (is_some (_handleQueue s2)))
       (_disconnect assertions))
      (set_handleQueue None
         (set_pendingMessage None
            (set_trace (trace s
                        ++ match _pendingMessage s with
                           | Some p => [EHandleClose (PendingMessage.handle p)]
                           | None => []
                           end) s))).
Proof.
  intros Hh Hq. unfold onInternalMessage, closePendingHandle.
  remember (resend assertions win32 W) as f. remember (_disconnect assertions) as d.
  destruct (_pendingMessage s) as [p|] eqn:Hp.
  - specialize (Hh p eq_refl).
    run. repeat (progress (cbn; rewrite ?Hp, ?Hh, ?Hq)). reflexivity.
  - run. repeat (progress (cbn; rewrite ?Hp, ?Hq)).
    clear -Hp. destruct s. cbn in *. subst. rewrite app_nil_r. reflexivity.
Qed.

(** X11.  The listener on an acknowledgment (the [NODE_HANDLE_ACK] of the
    peer).  It first closes the handle that was held back, if one was, then
    drops the backlog queue and sends again the entries it held, in the
    order of the array; when these carry no handles, nothing is left queued
    or pending afterwards.  The backlog the listener meets after a [_send]
    is the empty one: the pushes of [_send] throw. *)
Theorem ack_drains_backlog_in_order
        (s : state) (q : list QueuedSend.t) (handle : value) :
  (forall p, _pendingMessage s = Some p -> truthy (PendingMessage.handle p) = true) ->
  _handleQueue s = Some q ->
  Forall plain_entry q ->
  asserted assertions (connected s || channel s) ->
  let closing :=
    match _pendingMessage s with
    | Some p => [EHandleClose (PendingMessage.handle p)]
    | None => []
    end in
  let res := onInternalMessage assertions win32 W
               (VObj [("cmd", VStr NODE_HANDLE_ACK)]) handle s in
  result res = Ret tt
  /\ (exists l,
         trace (after res) = (trace s ++ closing ++ l)%list
         /\ writes_of l
            = map (fun e => (QueuedSend.message e, QueuedSend.handle e)) q)
  /\ _handleQueue (after res) = None
  /\ _pendingMessage (after res) = None.
Proof.
  intros Hh Hq Hf Ha. cbv zeta.
  rewrite (ack_runs_backlog s q handle Hh Hq).
  set (closing := match _pendingMessage s with
                  | Some p => [EHandleClose (PendingMessage.handle p)]
                  | None => []
                  end).
  set (s1 := set_handleQueue None
               (set_pendingMessage None (set_trace (trace s ++ closing) s))).
  assert (Hq1 : _handleQueue s1 = None) by reflexivity.
  assert (Ha1 : asserted assertions (connected s1 || channel s1)) by exact Ha.
  match goal with |- context [result ?m] => destruct m as [o sf] eqn:E0 end.
  unfold bind at 1 in E0.
  destruct (drain_plain q Hf s1 Hq1 Ha1) as (D1 & (l & D2 & D3) & D4 & D5 & D6 & D7).
  destruct (forEach _ q s1) as [o' s2]. cbn in D1, D2, D4, D5, D6, D7. subst o'.
  unfold bind at 1, get at 1 in E0.
  assert (F : o = Ret tt /\ trace sf = trace s2
              /\ _handleQueue sf = None /\ _pendingMessage sf = None).
  { destruct (negb (connected s2) && channel s2 && negb (is_some (_handleQueue s2)))
      eqn:C; cbn [when] in E0.
    - apply andb_prop in C as [C _]. apply andb_prop in C as [_ C].
      revert E0. unfold _disconnect, once. unfold bind at 1, get at 1. cbv beta.
      rewrite (assert_passes assertions) by (right; exact C).
      run. rewrite D5. cbn.
      destruct (buffering s2); cbn; intros E0; injection E0 as <- <-; cbn; auto.
    - unfold ret in E0. injection E0 as <- <-. auto. }
  destruct F as (-> & F2 & F3 & F4). cbn. rewrite F2, F3, F4.
  repeat split; auto.
  exists l. rewrite D2. cbn. rewrite <- app_assoc. split; [reflexivity | exact D3].
Qed.
End Draining.

(** ** The wire format *)

Lemma silent_refl s : writes_nothing s s.
Proof. reflexivity. Qed.

Lemma silent_trans a b c :
  writes_nothing a b -> writes_nothing b c -> writes_nothing a c.
Proof. unfold writes_nothing. congruence. Qed.

Create HintDb silent.

#[local] Hint Extern 1 (forall m h, _ <> EWrite m h) => (intros; discriminate) : silent.

Ltac silent :=
  keeps_with ltac:(first
    [ exact silent_refl | exact silent_trans
    | solve [intros ?; reflexivity]
    | solve [auto with silent] ]).

Lemma envelope_carries t message : carries (envelope t message) t message.
Proof. destruct t; repeat split; reflexivity. Qed.

(** A property added to the envelope under another name leaves what the
    receiver reads of it. *)
Lemma carries_set_prop wire t message k v :
  String.eqb "cmd" k = false -> String.eqb "type" k = false ->
  String.eqb "msg" k = false ->
  carries wire t message -> carries (set_prop wire k v) t message.
Proof.
  intros Hc Ht Hm (H1 & H2 & H3 & H4).
  assert (Ec : get_prop (set_prop wire k v) "cmd" = get_prop wire "cmd")
    by (apply get_set_other; exact Hc).
  unfold carries. rewrite !get_set_other by assumption.
  repeat split; try assumption.
  unfold isInternal in *. rewrite Ec.
  destruct wire; cbn in *; try discriminate; assumption.
Qed.

Section Wire.
Variables assertions win32 : bool.
Variable W : nat -> value -> value -> WriteResult.

Local Abbreviation N := (keeps writes_nothing).

Lemma S_tell e : (forall m h, e <> EWrite m h) -> N (tell e).
Proof.
  intros He s. unfold writes_nothing. cbn. rewrite writes_of_app.
  destruct e; cbn; rewrite ?app_nil_r; try reflexivity.
  exfalso. eapply He. reflexivity.
Qed.
Lemma S_nextTick t : N (nextTick t).
Proof. unfold nextTick. silent. Qed.
Lemma S_getM v k : N (getM v k).
Proof. unfold getM. silent. Qed.
Lemma S_assert c : N (js_assert assertions c).
Proof. unfold js_assert. silent. Qed.
Hint Resolve S_tell S_nextTick S_getM S_assert : silent.
Lemma S_method_call h e : (forall m h', e <> EWrite m h') -> N (method_call h e).
Proof. intros He. unfold method_call. silent. Qed.
Hint Resolve S_method_call : silent.
Lemma S_refCounted : N refCounted.
Proof. unfold refCounted, channel_ref. silent. Qed.
Lemma S_getSocketList t k : N (getSocketList t k).
Proof. unfold getSocketList. silent. Qed.
Hint Resolve S_refCounted S_getSocketList : silent.
Lemma S_conversion_send t m r o : N (conversion_send t m r o).
Proof. unfold conversion_send, server_send, socket_send, dgram_send. silent. Qed.
Lemma S_postSend m h o c b : N (postSend assertions m h o c b).
Proof. unfold postSend. silent. Qed.
Hint Resolve S_conversion_send S_postSend : silent.
Lemma S_package m h o c : N (package win32 m h o c).
Proof. unfold package, enqueue. silent. Qed.
Lemma S_settle w r m h o c obj : N (settle assertions w r m h o c obj).
Proof. unfold settle. silent. Qed.

(** [transmit] writes its message and its handle, and nothing else. *)
Lemma transmit_writes_once message handle options callback obj s :
  writes_of (trace (after (transmit assertions W message handle options callback
                                    obj s)))
  = (writes_of (trace s) ++ [(message, handle)])%list.
Proof.
  unfold transmit. run.
  match goal with |- context [settle ?a ?w ?r ?m ?h ?o ?c ?ob ?s1] =>
    rewrite (S_settle w r m h o c ob s1)
  end.
  cbn. rewrite writes_of_app. reflexivity.
Qed.

(** What a [send] strategy makes of the envelope. *)
Lemma conversion_send_carries t message r options :
  returns (fun p => carries (fst p) t message)
          (conversion_send t (envelope t message) r options).
Proof.
  pose proof (envelope_carries t message) as He.
  destruct t; cbn [conversion_send].
  - unfold server_send. apply returns_then; intros s. apply returns_ret. exact He.
  - unfold socket_send. apply returns_then; intros s. cbv zeta.
    destruct (negb (truthy (_handle (objs s r)))); [apply returns_ret; exact He|].
    apply (returns_bind (fun m => carries m net_Socket message)).
    + destruct (server (objs s r)).
      * repeat (apply returns_then; intros). apply returns_ret.
        apply carries_set_prop; try reflexivity. exact He.
      * apply returns_ret. exact He.
    + intros m Hm. repeat (apply returns_then; intros). apply returns_ret. exact Hm.
  - unfold dgram_send. apply returns_then; intros s. apply returns_ret.
    apply carries_set_prop; try reflexivity. exact He.
Qed.

(** What [package] hands to the write. *)
Lemma package_proceeds message handle options callback s wire raw obj s1 :
  package win32 message handle options callback s = (Ret (Proceed wire raw obj), s1) ->
  (truthy raw = false -> wire = message)
  /\ (truthy raw = true ->
      exists t r, instanceOf handle = Some (t, r) /\ carries wire t message).
Proof.
  unfold package. destruct (truthy handle) eqn:Hh.
  - destruct (instanceOf handle) as [[t r]|]; [|discriminate].
    unfold bind at 1, get at 1. cbv zeta.
    destruct (_handleQueue s) as [q|]; [discriminate|].
    fold (envelope t message).
    intros H. apply bind_inv in H as ([env raw'] & s2 & Ec & H).
    pose proof (conversion_send_carries t message r options _ _ _ Ec) as Hc.
    pose proof Hc as (_ & _ & _ & Hmsg).
    cbn in Hc, Hmsg. apply bind_inv in H as (? & ? & _ & H).
    unfold ret in H. injection H as <- <- _ _. split.
    + intros ->. exact Hmsg.
    + intros ->. eauto.
  - unfold bind at 1, get at 1.
    destruct (_handleQueue s) as [q|].
    + destruct (negb (is_reply message)); [discriminate|].
      intros H. injection H as <- <- _ _. split; [reflexivity | congruence].
    + intros H. injection H as <- <- _ _. split; [reflexivity | congruence].
Qed.

(** X12.  The wire format of [_send].  A call writes at most one message.
    What it writes without a handle is the message as it was given; what it
    writes with a handle is an envelope the receiving side takes for an
    internal [NODE_HANDLE] message, whose [type] names the conversion of the
    handle's class and whose [msg] is the message. *)
Theorem handle_travels_in_envelope
        (s : state) (message handle options callback : value) :
  asserted assertions (connected s || channel s) ->
  let res := _send assertions win32 W message handle options callback s in
  writes_of (trace (after res)) = writes_of (trace s)
  \/ exists wire raw,
      writes_of (trace (after res)) = (writes_of (trace s) ++ [(wire, raw)])%list
      /\ (truthy raw = false -> wire = message)
      /\ (truthy raw = true ->
          exists t r, instanceOf handle = Some (t, r) /\ carries wire t message).
Proof.
  intros Ha. cbv zeta. rewrite (_send_asserted _ _ _ _ _ _ _ _ Ha).
  destruct (is_undefined message); [left; reflexivity|].
  destruct (negb (sendable message)); [left; reflexivity|].
  unfold bind.
  pose proof (S_package message handle (legacy options) callback s) as Hs.
  destruct (package win32 message handle (legacy options) callback s)
    as [[[first|wire raw obj]|e] s1] eqn:Ep; unfold writes_nothing in Hs; cbn in Hs.
  - left. exact Hs.
  - right. exists wire, raw. rewrite transmit_writes_once, Hs.
    split; [reflexivity|]. exact (package_proceeds _ _ _ _ _ _ _ _ _ Ep).
  - left. exact Hs.
Qed.
End Wire.

(** ** Handles that arrive *)

Section Arrival.
Variables assertions win32 : bool.
Variable W : nat -> value -> value -> WriteResult.

(** The acknowledgment, as the listener sends it: one write, and the rest
    of the target untouched. *)
Lemma acknowledgment_sent s :
  asserted assertions (connected s || channel s) ->
  let r := resend assertions win32 W ACK VNull (VBool true) VUndefined s in
  result r = Ret tt
  /\ (exists l, trace (after r) = (trace s ++ EWrite ACK VNull :: l)%list
                /\ (l = [] \/ l = [EChannelRef]))
  /\ ticks (after r) = ticks s
  /\ objCount (after r) = objCount s
  /\ channel (after r) = channel s
  /\ kChannelHandle (after r) = kChannelHandle s
  /\ sockets_got (after r) = sockets_got s.
Proof.
  intros Ha. cbv zeta. unfold resend, ACK.
  assert (E : _send assertions win32 W (VObj [("cmd", VStr NODE_HANDLE_ACK)]) VNull
                    (VBool true) VUndefined s
              = transmit assertions W (VObj [("cmd", VStr NODE_HANDLE_ACK)]) VNull
                         (VObj [("swallowErrors", VBool true)]) VUndefined None s).
  { rewrite (_send_asserted _ _ _ _ _ _ _ _ Ha). unfold package.
    run; destruct (_handleQueue s); reflexivity. }
  unfold bind. rewrite E. clear E.
  unfold transmit, settle, obj_postSend, refCounted, channel_ref. run.
  match goal with
  | |- context [err ?w =? 0] =>
      destruct (err w =? 0); cbn; [destruct (kLastWriteWasAsync w); cbn|]
  end;
  try (destruct ((refs s + 1 =? 1) && negb (refExplicitlySet s)); cbn);
  written.
Qed.

(** X13.  A socket that arrives with its handle is rebuilt and delivered at
    once: after the acknowledgment a new [net.Socket] wraps the received
    handle, it joins the socket list of its connection key when the
    envelope has one, and the message of the envelope is deferred with the
    new socket as its handle, under the event name its own content picks. *)
Theorem received_socket_is_delivered
        (s : state) (wire handle message : value) :
  carries wire net_Socket message ->
  truthy handle = true ->
  channel s = true ->
  kChannelHandle s = true ->
  let key := get_prop wire "key" in
  let r := objCount s in
  let res := onInternalMessage assertions win32 W wire handle s in
  result res = Ret tt
  /\ (exists l,
         trace (after res)
         = (trace s ++ [EWrite ACK VNull] ++ l
            ++ (if truthy key then [ESocketListAdd (property_key key) r] else []))%list
         /\ Forall (fun e => e = EChannelRef
                             \/ e = ESetSimultaneousAccepts handle false) l)
  /\ objCount (after res) = S r
  /\ _handle (objs (after res) r) = handle
  /\ (truthy key = true -> mem (property_key key) (sockets_got (after res)) = true)
  /\ ticks (after res)
     = (ticks s ++ [TEmit (event_name message) message (VSocket r)])%list.
Proof.
  intros (_ & Hc & Ht & Hm) Hh Hch Hk. cbv zeta.
  assert (Hcmd : get_prop wire "cmd" = VStr NODE_HANDLE).
  { destruct (get_prop wire "cmd"); try discriminate.
    apply String.eqb_eq in Hc. subst. reflexivity. }
  assert (Ha : asserted assertions (connected s || channel s))
    by (right; rewrite Hch; apply orb_true_r).
  rewrite (receive_with_handle _ _ _ s wire handle Hcmd Hh), Ht.
  destruct (acknowledgment_sent s Ha)
    as (Hr & (l & Hl & Hcase) & Hti & Ho & Hc' & Hk' & Hg).
  cbv zeta in *. fold ACK.
  rewrite (bind_returned _ _ _ _ Hr).
  set (s0 := after (resend assertions win32 W ACK VNull (VBool true) VUndefined s)) in *.
  clearbody s0. rewrite Hch in Hc'. rewrite Hk in Hk'.
  unfold got, new_wrapper, got_ready, handleMessage, getSocketList, event_name.
  unfold update. rewrite Hm.
  destruct win32; run;
    repeat (progress (cbn; rewrite ?Hc', ?Hk', ?Hl, ?Hti, ?Ho, ?Hg, ?Nat.eqb_refl));
    (destruct (truthy (get_prop wire "key")) eqn:Hkey;
     repeat (progress (cbn; rewrite ?Hc', ?Hk', ?Hl, ?Hti, ?Ho, ?Hg, ?Nat.eqb_refl));
     [destruct (mem (property_key (get_prop wire "key")) (sockets_got s)) eqn:Hmem;
      repeat (progress (cbn; rewrite ?Hc', ?Hk', ?Hl, ?Hti, ?Ho, ?Hg, ?Nat.eqb_refl))|]).
  all: assert (Hf : Forall (fun e => e = EChannelRef
                                     \/ e = ESetSimultaneousAccepts handle false) l)
    by (destruct Hcase; subst l; repeat (apply Forall_cons || apply Forall_nil); auto).
  all: split; [reflexivity|].
  all: split;
    [|repeat split; try reflexivity;
      intros Hx; first [discriminate Hx | exact Hmem | apply mem_app_snoc]].
  all: first
    [ exists l; split; [rewrite <- ?app_assoc; cbn; rewrite ?app_nil_r; reflexivity
                       | exact Hf]
    | exists (l ++ [ESetSimultaneousAccepts handle false])%list; split;
      [ rewrite <- ?app_assoc; cbn; rewrite <- ?app_assoc, ?app_nil_r; reflexivity
      | apply Forall_app; split; [exact Hf | apply Forall_cons; auto] ] ].
Qed.

(** X14.  A server or a datagram socket that arrives with its handle is
    not delivered by the listener: after the acknowledgment the new wrapper
    only starts to listen on (or is bound to) the received handle, and
    nothing is deferred.  The message of the envelope is deferred, with the
    new wrapper as its handle, when the callback of [listen] or [bind]
    fires on a target whose channel is still up. *)
Theorem received_server_waits_for_listen
        (s : state) (t : handleType) (wire handle message : value) :
  carries wire t message ->
  t <> net_Socket ->
  truthy handle = true ->
  asserted assertions (connected s || channel s) ->
  let r := objCount s in
  let res := onInternalMessage assertions win32 W wire handle s in
  result res = Ret tt
  /\ (exists l,
         trace (after res)
         = (trace s ++ [EWrite ACK VNull] ++ l ++ [starts t r handle])%list
         /\ Forall (fun e => e = EChannelRef
                             \/ e = ESetSimultaneousAccepts handle false) l)
  /\ objCount (after res) = S r
  /\ ticks (after res) = ticks s
  /\ (t = dgram_Socket -> type (objs (after res) r) = get_prop wire "dgramType")
  /\ forall s',
      channel s' = true ->
      step assertions win32 W (Ready wire (rebuilt t r)) s'
      = (Ret tt,
         set_ticks (ticks s' ++ [TEmit (event_name message) message (rebuilt t r)])
                   s').
Proof.
  intros (_ & Hc & Ht & Hm) Hn Hh Ha. cbv zeta.
  assert (Hcmd : get_prop wire "cmd" = VStr NODE_HANDLE).
  { destruct (get_prop wire "cmd"); try discriminate.
    apply String.eqb_eq in Hc. subst. reflexivity. }
  rewrite (receive_with_handle _ _ _ s wire handle Hcmd Hh), Ht.
  destruct (acknowledgment_sent s Ha)
    as (Hr & (l & Hl & Hcase) & Hti & Ho & _).
  cbv zeta in *. fold ACK.
  rewrite (bind_returned _ _ _ _ Hr).
  set (s0 := after (resend assertions win32 W ACK VNull (VBool true) VUndefined s)) in *.
  clearbody s0.
  assert (Hf : Forall (fun e => e = EChannelRef
                                \/ e = ESetSimultaneousAccepts handle false) l)
    by (destruct Hcase; subst l; repeat (apply Forall_cons || apply Forall_nil); auto).
  assert (Hready : forall s',
             channel s' = true ->
             step assertions win32 W (Ready wire (rebuilt t (objCount s))) s'
             = (Ret tt,
                set_ticks (ticks s' ++ [TEmit (event_name message) message
                                              (rebuilt t (objCount s))]) s')).
  { intros s' Hs'. unfold step, got_ready, handleMessage, event_name. run.
    rewrite Hs', Hm. cbn. destruct (isInternal message); reflexivity. }
  unfold got, new_wrapper, starts, update.
  destruct t; [|contradiction|]; destruct win32; run;
    repeat (progress (cbn; rewrite ?Hl, ?Hti, ?Ho, ?Nat.eqb_refl)).
  all: split; [reflexivity|].
  all: split; [|repeat split; try reflexivity; try exact Hready; discriminate].
  all: first
    [ exists l; split; [rewrite <- ?app_assoc; cbn; rewrite ?app_nil_r; reflexivity
                       | exact Hf]
    | exists (l ++ [ESetSimultaneousAccepts handle false])%list; split;
      [ rewrite <- ?app_assoc; cbn; rewrite <- ?app_assoc, ?app_nil_r; reflexivity
      | apply Forall_app; split; [exact Hf | apply Forall_cons; auto] ] ].
Qed.

(** Messages read once [target.channel] is null are dropped one by one. *)
Lemma dropped_one_by_one messages :
  forall s,
    channel s = false ->
    let f := fun message =>
               if isInternal message then
                 if is_str (get_prop message "cmd") NODE_HANDLE then
                   s <- get ;;
                   handleMessage message (pendingHandle s) true ;;
                   modify (set_pendingHandle VNull)
                 else handleMessage message VUndefined true
               else handleMessage message VUndefined false in
    let r := forEach f messages s in
    result r = Ret tt /\ ticks (after r) = ticks s /\ trace (after r) = trace s
    /\ kPendingMessages (after r) = kPendingMessages s /\ channel (after r) = false.
Proof.
  induction messages as [|m rest IH]; intros s Hc; cbv zeta; [cbn; auto|].
  cbn [forEach]. unfold bind at 1.
  destruct (isInternal m); [destruct (is_str (get_prop m "cmd") NODE_HANDLE)|];
    unfold handleMessage; run; rewrite Hc; cbn;
    match goal with
    | |- context [forEach ?f rest ?s1] =>
        destruct (IH s1 Hc) as (I1 & I2 & I3 & I4 & I5)
    end; cbv zeta in *; auto.
Qed.

(** X15.  Once the channel of the target is torn down, what is still read
    from the transport is dropped: no message of the chunk is deferred,
    emitted or buffered, and a wrapper whose [listen] or [bind] callback
    fires afterwards is not delivered either. *)
Theorem reads_after_teardown_are_dropped
        (s : state) (recvHandle wire obj : value) (messages : list value) :
  channel s = false ->
  let r := onread assertions recvHandle (Some messages) s in
  result r = Ret tt
  /\ ticks (after r) = ticks s
  /\ trace (after r) = trace s
  /\ kPendingMessages (after r) = kPendingMessages s
  /\ channel (after r) = false
  /\ step assertions win32 W (Ready wire obj) s = (Ret tt, s).
Proof.
  intros Hc. cbv zeta. unfold onread. unfold bind at 1, bind at 2, bind at 3, bind at 4, bind at 5.
  split; [|split; [|split; [|split; [|split]]]].
  6:{ unfold step, got_ready, handleMessage. run. rewrite Hc. reflexivity. }
  all: unfold bind at 1;
    destruct (truthy recvHandle); cbn [when]; unfold modify, ret;
    match goal with
    | |- context [forEach ?f ?ms ?s1] =>
        destruct (dropped_one_by_one ms s1 Hc) as (I1 & I2 & I3 & I4 & I5)
    end; cbv zeta in *; assumption.
Qed.
End Arrival.

(** ** The counter of [Control] *)

Lemma counted_step a s :
  refExplicitlySet s = false ->
  refed s = (0 <? refs s) ->
  let r := run_automatic a s in
  result r = Ret tt
  /\ refExplicitlySet (after r) = false
  /\ refed (after r) = (0 <? refs (after r))
  /\ refs (after r) = refs s + balance [a].
Proof.
  intros Hf Hr. destruct a; cbn [run_automatic balance];
    unfold refCounted, unrefCounted, channel_ref, channel_unref; run;
    rewrite Hf; cbn; rewrite andb_true_r;
    match goal with |- context [?a =? ?b] => destruct (Z.eqb_spec a b) as [E|E] end;
    cbn; repeat split; try assumption; try lia; rewrite ?Hr;
    repeat match goal with
           | |- context [?a <? ?b] => destruct (Z.ltb_spec a b)
           end;
    first [reflexivity | exfalso; lia].
Qed.

(** X16.  As long as the user has not called [ref()] or [unref()], the
    counted calls keep the channel referenced exactly while the counter is
    positive: once the two agree, they agree after every sequence of
    [refCounted] and [unrefCounted] calls, whatever its order, and the
    counter moves by the balance of the calls. *)
Theorem counted_refs_follow_counter (calls : list automatic) (s : state) :
  refExplicitlySet s = false ->
  refed s = (0 <? refs s) ->
  let r := forEach run_automatic calls s in
  result r = Ret tt
  /\ refExplicitlySet (after r) = false
  /\ refed (after r) = (0 <? refs (after r))
  /\ refs (after r) = refs s + balance calls.
Proof.
  revert s. induction calls as [|a calls IH]; intros s Hf Hr; cbv zeta.
  - cbn. repeat split; try assumption. lia.
  - cbn [forEach]. unfold bind.
    destruct (counted_step a s Hf Hr) as (S1 & S2 & S3 & S4). cbv zeta in *.
    destruct (run_automatic a s) as [o s1]. cbn in S1, S2, S3, S4. subst o.
    destruct (IH s1 S2 S3) as (I1 & I2 & I3 & I4). cbv zeta in *.
    repeat split; try assumption.
    rewrite I4, S4. destruct a; cbn [balance]; lia.
Qed.

(** ** The counter and the writes in flight *)

Lemma accounted_refl s : stays_accounted s s.
Proof. intros H; exact H. Qed.

Lemma accounted_trans a b c :
  stays_accounted a b -> stays_accounted b c -> stays_accounted a c.
Proof. unfold stays_accounted; auto. Qed.

Create HintDb accounting.

Ltac accounting :=
  keeps_with ltac:(first [ exact accounted_refl | exact accounted_trans
                          | solve [intros ? H; exact H]
                          | solve [auto with accounting] ]).

(** A step that leaves the counter and the completions alone. *)
Lemma in_flight_same n s s' :
  refs s' = refs s -> oncomplete s' = oncomplete s ->
  refExplicitlySet s' = refExplicitlySet s -> refed s' = refed s ->
  in_flight n s -> in_flight (S n) s'.
Proof.
  intros E1 E2 E3 E4 (H1 & H2 & H3 & H4). unfold in_flight.
  rewrite E1, E2, E3, E4. repeat split; try assumption.
  eapply Forall_impl; [|exact H3]. cbn. intros; lia.
Qed.

(** The write numbered [n] waits for its completion. *)
Lemma in_flight_push n s s' callback :
  oncomplete s' = (oncomplete s ++ [(n, callback)])%list ->
  refs s' = refs s + 1 ->
  refExplicitlySet s' = refExplicitlySet s ->
  refed s' = (if (refs s + 1 =? 1) && negb (refExplicitlySet s)
              then true else refed s) ->
  in_flight n s -> in_flight (S n) s'.
Proof.
  intros E1 E2 E3 E4 (H1 & H2 & H3 & H4). unfold in_flight.
  rewrite E1, E2, E3, E4. repeat split.
  - rewrite length_app, H1. cbn. lia.
  - rewrite map_app. cbn.
    apply NoDup_app; [exact H2 | apply NoDup_cons; [intros []|apply NoDup_nil] |].
    intros x Hx Hn. destruct Hn as [Hn|[]]. subst x.
    apply in_map_iff in Hx as (y & Hy & Hin).
    rewrite Forall_forall in H3. specialize (H3 y Hin). lia.
  - apply Forall_app. split.
    + eapply Forall_impl; [|exact H3]. cbn. intros; lia.
    + apply Forall_cons; [cbn; lia | apply Forall_nil].
  - intros Hf _. rewrite Hf. cbn. rewrite andb_true_r.
    destruct (refs s + 1 =? 1) eqn:E; [reflexivity|].
    apply H4; [exact Hf|]. intros Hn. rewrite Hn in H1. cbn in H1.
    rewrite H1 in E. discriminate.
Qed.

(** The completion of a write is awaited once. *)
Lemma completion_removed req (l : list (nat * value)) e :
  NoDup (map fst l) ->
  find (fun x => Nat.eqb (fst x) req) l = Some e ->
  S (List.length (filter (fun x => negb (Nat.eqb (fst x) req)) l)) = List.length l.
Proof.
  induction l as [|x l IH]; cbn; [discriminate|].
  intros Hn Hf. inversion Hn as [|? ? Hx Hl]; subst.
  destruct (Nat.eqb (fst x) req) eqn:E; cbn.
  - f_equal. apply Nat.eqb_eq in E.
    assert (Hall : forallb (fun y => negb (Nat.eqb (fst y) req)) l = true).
    { apply forallb_forall. intros y Hy.
      destruct (Nat.eqb (fst y) req) eqn:Ey; [|reflexivity].
      apply Nat.eqb_eq in Ey. exfalso. apply Hx. rewrite E, <- Ey.
      apply in_map. exact Hy. }
    clear -Hall. induction l as [|y l IH]; [reflexivity|]. cbn in *.
    apply andb_prop in Hall as [Hy Hall]. rewrite Hy. cbn. f_equal. auto.
  - f_equal. apply IH; assumption.
Qed.

Lemma NoDup_map_filter (f : nat * value -> bool) (l : list (nat * value)) :
  NoDup (map fst l) -> NoDup (map fst (filter f l)).
Proof.
  induction l as [|x l IH]; cbn; [auto|].
  intros Hn. inversion Hn as [|? ? Hx Hl]; subst.
  destruct (f x); cbn; [|auto].
  apply NoDup_cons; [|auto].
  intros Hin. apply Hx. apply in_map_iff in Hin as (y & Hy & Hin).
  apply filter_In in Hin as [Hin _]. rewrite <- Hy. apply in_map. exact Hin.
Qed.

Lemma Forall_filter_keeps {A : Type} (P : A -> Prop) (f : A -> bool) (l : list A) :
  Forall P l -> Forall P (filter f l).
Proof.
  intros H. apply Forall_forall. intros x Hx. apply filter_In in Hx as [Hx _].
  rewrite Forall_forall in H. auto.
Qed.


Lemma settles_refl n s : settles n n s s.
Proof. split; auto. Qed.

Lemma settles_trans a b c s1 s2 s3 :
  settles a b s1 s2 -> settles b c s2 s3 -> settles a c s1 s3.
Proof. intros [H1 E1] [H2 E2]. split; [auto | congruence]. Qed.

Lemma in_flight_mono n s : in_flight n s -> in_flight (S n) s.
Proof. apply in_flight_same; reflexivity. Qed.

Lemma settles_later n s s' : settles n n s s' -> settles n (S n) s s'.
Proof. intros [H E]. split; [|exact E]. intros Hs. apply in_flight_mono. auto. Qed.

Lemma keeps_seq {A B : Type} (a b c : nat) (m : M A) (k : A -> M B) :
  keeps (settles a b) m -> (forall x, keeps (settles b c) (k x)) ->
  (forall s s', settles a b s s' -> settles a c s s') ->
  keeps (settles a c) (bind m k).
Proof.
  intros Hm Hk Hmono s. unfold bind, after. specialize (Hm s). unfold after in Hm.
  destruct (m s) as [[x|e] s1]; cbn in *.
  - eapply settles_trans; [exact Hm|]. apply Hk.
  - apply Hmono. exact Hm.
Qed.

Create HintDb booking.

Ltac booking :=
  keeps_with ltac:(first
    [ exact (settles_refl _) | exact (settles_trans _ _ _)
    | solve [intros ?; split; [intros H; exact H | reflexivity]]
    | solve [auto with booking] ]).

Section Accounting.
Variables assertions win32 : bool.
Variable W : nat -> value -> value -> WriteResult.

Lemma B_nextTick n t : keeps (settles n n) (nextTick t).
Proof. unfold nextTick. booking. Qed.
Lemma B_tell n e : keeps (settles n n) (tell e).
Proof. unfold tell. booking. Qed.
Lemma B_getM n v k : keeps (settles n n) (getM v k).
Proof. unfold getM. booking. Qed.
Lemma B_assert n c : keeps (settles n n) (js_assert assertions c).
Proof. unfold js_assert. booking. Qed.
Hint Resolve B_nextTick B_tell B_getM B_assert : booking.
Lemma B_method_call n h e : keeps (settles n n) (method_call h e).
Proof. unfold method_call. booking. Qed.
Hint Resolve B_method_call : booking.
Lemma B_postSend n m h o c b : keeps (settles n n) (postSend assertions m h o c b).
Proof. unfold postSend. booking. Qed.
Hint Resolve B_postSend : booking.

(** The completion of the write numbered [req] is awaited, with a
    reference. *)
Lemma await_accounts req callback :
  keeps (settles req (S req))
        (modify (fun s => set_oncomplete (oncomplete s ++ [(req, callback)]) s) ;;
         refCounted).
Proof.
  intros s. unfold refCounted, channel_ref. run.
  destruct ((refs s + 1 =? 1) && negb (refExplicitlySet s)) eqn:E; cbn;
    (split; [|reflexivity]); intros H;
    (eapply in_flight_push; [reflexivity | reflexivity | reflexivity | | exact H]);
    cbn; rewrite E; reflexivity.
Qed.

Lemma settle_accounts w req message handle options callback obj :
  keeps (settles req (S req))
        (settle assertions w req message handle options callback obj).
Proof.
  unfold settle.
  apply (keeps_seq req (S req) (S req)); [|intros; booking|auto].
  destruct (err w =? 0).
  - apply (keeps_seq req req (S req)); [booking| |apply settles_later].
    intros _. destruct (kLastWriteWasAsync w); [apply await_accounts|].
    intros s. apply settles_later. revert s.
    change (keeps (settles req req)
                  (when (is_function callback) (nextTick (TCall callback VNull)))).
    booking.
  - intros s. apply settles_later. revert s.
    match goal with |- forall s, settles _ _ s (after (?m s)) =>
      change (keeps (settles req req) m)
    end.
    booking.
Qed.

Local Abbreviation Acc := (keeps stays_accounted).

Lemma A_transmit m h o c obj : Acc (transmit assertions W m h o c obj).
Proof.
  intros s H. unfold transmit. run.
  match goal with |- context [settle ?a ?w ?r ?m ?h ?o ?c ?ob ?s1] =>
    destruct (settle_accounts w r m h o c ob s1) as [Hs Hw]
  end.
  unfold accounted. rewrite Hw. cbn. apply Hs.
  destruct H as (H1 & H2 & H3 & H4). repeat split; assumption.
Qed.

Lemma A_req_oncomplete r : Acc (req_oncomplete r).
Proof.
  intros s (H1 & H2 & H3 & H4). unfold req_oncomplete. unfold bind at 1, get at 1.
  destruct (find (fun x => Nat.eqb (fst x) r) (oncomplete s)) as [[r' callback]|] eqn:Ef;
    [|repeat split; assumption].
  pose proof (completion_removed r (oncomplete s) _ H2 Ef) as Hl.
  unfold unrefCounted, channel_unref. run.
  set (rest := filter (fun x => negb (Nat.eqb (fst x) r)) (oncomplete s)) in *.
  assert (Hr : refs s - 1 = Z.of_nat (List.length rest)) by lia.
  assert (Hnd : NoDup (map fst rest)) by (apply NoDup_map_filter; exact H2).
  assert (Hfa : Forall (fun x => (fst x < writes s)%nat) rest)
    by (apply Forall_filter_keeps; exact H3).
  destruct ((refs s - 1 =? 0) && negb (refExplicitlySet s)) eqn:E; cbn;
    destruct (is_function callback); cbn; repeat split; try assumption.
  all: intros Hf Hne.
  1,2: apply andb_prop in E as [E _]; apply Z.eqb_eq in E;
    exfalso; apply Hne; destruct rest; [reflexivity | cbn in Hr; lia].
  all: apply H4; [exact Hf|]; intros Hn; rewrite Hn in Hl; discriminate.
Qed.

Lemma A_ref : Acc ref.
Proof.
  intros s (H1 & H2 & H3 & H4). unfold ref, channel_ref. run.
  repeat split; try assumption; try discriminate.
Qed.

Lemma A_unref : Acc unref.
Proof.
  intros s (H1 & H2 & H3 & H4). unfold unref, channel_unref. run.
  repeat split; try assumption; try discriminate.
Qed.

Lemma A_tell e : Acc (tell e).
Proof. unfold tell. accounting. Qed.
Lemma A_nextTick t : Acc (nextTick t).
Proof. unfold nextTick. accounting. Qed.
Lemma A_getM v k : Acc (getM v k).
Proof. unfold getM. accounting. Qed.
Lemma A_assert c : Acc (js_assert assertions c).
Proof. unfold js_assert. accounting. Qed.
Hint Resolve A_tell A_nextTick A_getM A_assert A_transmit A_req_oncomplete
  A_ref A_unref : accounting.
Lemma A_method_call h e : Acc (method_call h e).
Proof. unfold method_call. accounting. Qed.
Hint Resolve A_method_call : accounting.
Lemma A_closePendingHandle : Acc closePendingHandle.
Proof. unfold closePendingHandle. accounting. Qed.
Lemma A_getSocketList t k : Acc (getSocketList t k).
Proof. unfold getSocketList. accounting. Qed.
Hint Resolve A_closePendingHandle A_getSocketList : accounting.
Lemma A_conversion_send t m r o : Acc (conversion_send t m r o).
Proof. unfold conversion_send, server_send, socket_send, dgram_send. accounting. Qed.
Hint Resolve A_conversion_send : accounting.
Lemma A_package m h o c : Acc (package win32 m h o c).
Proof. unfold package, enqueue. accounting. Qed.
Hint Resolve A_package : accounting.
Lemma A__send m h o c : Acc (_send assertions win32 W m h o c).
Proof. unfold _send. accounting. Qed.
Hint Resolve A__send : accounting.
Lemma A_send m h o c : Acc (send assertions win32 W m h o c).
Proof. unfold send, validateObject. accounting. Qed.
Lemma A_once n i : Acc (once n i).
Proof. unfold once. accounting. Qed.
Hint Resolve A_send A_once : accounting.
Lemma A__disconnect : Acc (_disconnect assertions).
Proof. unfold _disconnect. accounting. Qed.
Lemma A_finish i : Acc (finish i).
Proof. unfold finish. accounting. Qed.
Lemma A_handleMessage m h b : Acc (handleMessage m h b).
Proof. unfold handleMessage. accounting. Qed.
Hint Resolve A__disconnect A_finish A_handleMessage : accounting.
Lemma A_got t m h : Acc (got t m h).
Proof. unfold got, got_ready, new_wrapper. accounting. Qed.
Hint Resolve A_got : accounting.
Lemma A_onInternalMessage m h : Acc (onInternalMessage assertions win32 W m h).
Proof. unfold onInternalMessage, resend. accounting. Qed.
Hint Resolve A_onInternalMessage : accounting.
Lemma A_target_emit n a : Acc (target_emit assertions win32 W n a).
Proof. unfold target_emit. accounting. Qed.
Hint Resolve A_target_emit : accounting.
Lemma A_emit e m h : Acc (emit assertions win32 W e m h).
Proof. unfold emit. accounting. Qed.
Lemma A_flush : Acc (flush assertions win32 W).
Proof. unfold flush. accounting. Qed.
Lemma A_disconnect : Acc (disconnect assertions).
Proof. unfold disconnect. accounting. Qed.
Hint Resolve A_emit A_flush A_disconnect : accounting.
Lemma A_onread h c : Acc (onread assertions h c).
Proof. unfold onread, maybeClose. accounting. Qed.
Hint Resolve A_onread : accounting.
Lemma A_step o : Acc (step assertions win32 W o).
Proof.
  unfold step, tick, run_task, addListener, removeListener, got_ready. accounting.
Qed.

(** X17.  The counter of [Control] counts the writes in flight.  Over
    every run of the channel (sends, reads, ticks, completions, listeners,
    [disconnect], explicit [ref] and [unref]) the counter equals the number
    of writes whose completion is awaited, so it is never negative, no
    completion is awaited twice, and while a completion is awaited the
    channel is referenced unless the user called [ref()] or [unref()]. *)
Theorem counter_counts_writes_in_flight (ops : list op) (s : state) :
  accounted s ->
  let s' := after (steps assertions win32 W ops s) in
  refs s' = Z.of_nat (List.length (oncomplete s'))
  /\ 0 <= refs s'
  /\ NoDup (map fst (oncomplete s'))
  /\ (refExplicitlySet s' = false -> oncomplete s' <> [] -> refed s' = true).
Proof.
  intros H. cbv zeta.
  assert (Hs : accounted (after (steps assertions win32 W ops s))).
  { revert s H. induction ops as [|o ops IH]; intros s H; [exact H|].
    cbn [steps]. unfold bind. pose proof (A_step o s H) as Ho.
    destruct (step assertions win32 W o s) as [[[]|e] s1]; cbn in *; auto. }
  destruct Hs as (H1 & H2 & _ & H4). repeat split; try assumption. lia.
Qed.
End Accounting.

(** ** The end of a channel *)

Section Ending.
Variables assertions win32 : bool.
Variable W : nat -> value -> value -> WriteResult.

(** X18.  The end of the transport.  When [onread] is called without a
    buffer on a target that is still connected, or that listens for
    ["error"], the target ends up disconnected with its channel gone and its
    read callback replaced by [nop], so that later reads do nothing.  A
    target that was still connected is disconnected on the way, and its
    [finish] is deferred when no backlog stood in the way; one that was
    already disconnected gets an ["error"] event instead.  The channel is
    closed at once, and ["close"] is emitted there and then when this was
    the last close awaited.  On a target that was already disconnected and
    has no ["error"] listener the emitter throws [ERR_IPC_DISCONNECTED] out
    of [onread]: the channel is not closed, the read callback stays and no
    ["close"] is emitted. *)
Theorem end_of_transport (s : state) (recvHandle h : value)
        (c : option (list value)) :
  (connected s = true -> _handleQueue s = None ->
   asserted assertions (channel s) /\ _pendingMessage s = None) ->
  let res := onread assertions recvHandle None s in
  (connected s = true \/ (0 < errorListeners s)%nat ->
   result res = Ret tt
   /\ connected (after res) = false
   /\ channel (after res) = false
   /\ onread_live (after res) = false
   /\ trace (after res)
      = (trace s
         ++ (if connected s then [] else [EEmit "error" [VError ERR_IPC_DISCONNECTED]])
         ++ [EChannelClose]
         ++ (if _closesGot s + 1 =? _closesNeeded s
             then [EEmit "close" [exitCode s; signalCode s]] else []))%list
   /\ ticks (after res)
      = (ticks s ++ (if connected s && negb (is_some (_handleQueue s))
                     then [TFinish (finishCount s)] else []))%list
   /\ step assertions win32 W (Read h c) (after res) = (Ret tt, after res))
  /\ (connected s = false -> errorListeners s = 0%nat ->
      res = (Throw ERR_IPC_DISCONNECTED,
             set_trace (trace s ++ [EEmit "error" [VError ERR_IPC_DISCONNECTED]])
                       (set_buffering false s))).
Proof.
  intros H. cbv zeta. split.
  - intros Hl.
    assert (E : exists s',
               onread assertions recvHandle None s = (Ret tt, s')
               /\ connected s' = false /\ channel s' = false /\ onread_live s' = false
               /\ trace s'
                  = (trace s
                     ++ (if connected s then []
                         else [EEmit "error" [VError ERR_IPC_DISCONNECTED]])
                     ++ [EChannelClose]
                     ++ (if _closesGot s + 1 =? _closesNeeded s
                         then [EEmit "close" [exitCode s; signalCode s]] else []))%list
               /\ ticks s'
                  = (ticks s ++ (if connected s && negb (is_some (_handleQueue s))
                                 then [TFinish (finishCount s)] else []))%list).
    { unfold onread, disconnect, _disconnect, maybeClose, once, emit_error, unheard.
      destruct (connected s) eqn:Hc; [destruct (_handleQueue s) as [q|] eqn:Hq|].
      - run. rewrite Hc. cbn. rewrite Hq. cbn.
        destruct (_closesGot s + 1 =? _closesNeeded s); cbn; eexists;
          repeat split; cbn; rewrite ?Hc, ?app_nil_r, <- ?app_assoc; reflexivity.
      - destruct (H eq_refl eq_refl) as [Ha Hp].
        destruct Ha as [Ha|Ha]; run;
          repeat (progress (cbn; rewrite ?Hc, ?Hq, ?Ha, ?Hp));
          destruct (channel s); cbn; rewrite ?Hp; cbn;
          destruct (_closesGot s + 1 =? _closesNeeded s); cbn; eexists;
          repeat split; cbn; rewrite ?Hc, ?app_nil_r, <- ?app_assoc; reflexivity.
      - destruct Hl as [Hl|Hl]; [discriminate|].
        destruct (errorListeners s) as [|n] eqn:Hn; [inversion Hl|].
        run. rewrite Hc. cbn. rewrite Hn. cbn.
        destruct (_closesGot s + 1 =? _closesNeeded s); cbn; eexists;
          repeat split; cbn; rewrite ?Hc, ?app_nil_r, <- ?app_assoc; reflexivity. }
    destruct E as (s' & E & E1 & E2 & E3 & E4 & E5). rewrite E. cbn.
    repeat split; try assumption.
    unfold step. run. rewrite E3. reflexivity.
  - intros Hc Hn. unfold onread, disconnect, emit_error, unheard.
    run. rewrite Hc. cbn. rewrite Hn. reflexivity.
Qed.

Lemma disconnect_while_reading s :
  connected s = true ->
  asserted assertions (channel s) ->
  _handleQueue s = None ->
  _pendingMessage s = None ->
  buffering s = true ->
  onceMessage s = [] ->
  onceInternalMessage s = [] ->
  disconnect assertions s = (Ret tt, waiting s).
Proof.
  intros Hc Ha Hq Hp Hb Hm Hi. unfold disconnect, _disconnect, once, waiting.
  destruct Ha as [Ha|Ha]; run;
    repeat (progress (cbn; rewrite ?Hc, ?Hq, ?Ha, ?Hp, ?Hb, ?Hm, ?Hi));
    destruct (channel s); cbn; rewrite ?Hp; cbn; rewrite ?Hb; cbn;
    rewrite ?Hm, ?Hi, <- ?app_assoc; reflexivity.
Qed.

Lemma first_event_finishes s message handle :
  existsb (Nat.eqb (finishCount s)) (fired s) = false ->
  target_emit assertions win32 W "message" [message; handle] (waiting s)
  = (Ret tt,
     set_trace (trace s ++ [EEmit "message" [message; handle];
                            EChannelClose; EEmit "disconnect" []])
       (set_fired (finishCount s :: fired s)
          (set_onceMessage [] (waiting s)))).
Proof.
  intros Hf. unfold target_emit, finish, waiting. run. run. rewrite Hf. cbn.
  rewrite <- !app_assoc. reflexivity.
Qed.

Lemma second_event_passes s id internal handle :
  get_prop internal "cmd" = VUndefined ->
  is_undefined internal || is_null internal = false ->
  onceInternalMessage s = [id] ->
  existsb (Nat.eqb id) (fired s) = true ->
  target_emit assertions win32 W "internalMessage" [internal; handle] s
  = (Ret tt,
     set_onceInternalMessage []
       (set_trace (trace s ++ [EEmit "internalMessage" [internal; handle]]) s)).
Proof.
  intros Hcmd Hn Ho Hf. unfold target_emit, onInternalMessage, finish.
  remember (resend assertions win32 W) as f.
  destruct internal; try discriminate; cbn in Hcmd;
    repeat (progress (run; rewrite ?Ho, ?Hf, ?Hcmd, ?Nat.eqb_refl)); reflexivity.
Qed.

(** X19.  [disconnect()] while a message is being read.  Nothing is closed
    by the call: the channel of the target is dropped and one [finish]
    closure is registered for the next ["message"] and the next
    ["internalMessage"].  The first of the two events to be emitted closes
    the channel and emits ["disconnect"]; the other one, emitted later,
    closes nothing. *)
Theorem buffered_disconnect_closes_once
        (s : state) (message handle internal handle' : value) :
  connected s = true ->
  asserted assertions (channel s) ->
  _handleQueue s = None ->
  _pendingMessage s = None ->
  buffering s = true ->
  onceMessage s = [] ->
  onceInternalMessage s = [] ->
  existsb (Nat.eqb (finishCount s)) (fired s) = false ->
  get_prop internal "cmd" = VUndefined ->
  is_undefined internal || is_null internal = false ->
  let r1 := disconnect assertions s in
  let r2 := target_emit assertions win32 W "message" [message; handle] (after r1) in
  let r3 := target_emit assertions win32 W "internalMessage" [internal; handle']
                        (after r2) in
  result r1 = Ret tt
  /\ trace (after r1) = trace s
  /\ connected (after r1) = false
  /\ channel (after r1) = false
  /\ ticks (after r1) = (ticks s ++ [TFlush; TFlush])%list
  /\ result r2 = Ret tt
  /\ trace (after r2)
     = (trace s ++ [EEmit "message" [message; handle]; EChannelClose;
                    EEmit "disconnect" []])%list
  /\ result r3 = Ret tt
  /\ trace (after r3)
     = (trace (after r2) ++ [EEmit "internalMessage" [internal; handle']])%list.
Proof.
  intros Hc Ha Hq Hp Hb Hm Hi Hf Hcmd Hn. cbv zeta.
  rewrite (disconnect_while_reading s Hc Ha Hq Hp Hb Hm Hi).
  cbn [result after fst snd].
  rewrite (first_event_finishes s message handle Hf).
  cbn [result after fst snd].
  rewrite (second_event_passes _ (finishCount s) internal handle' Hcmd Hn);
    [|reflexivity|cbn; rewrite Nat.eqb_refl; reflexivity].
  cbn [result after fst snd].
  repeat split; reflexivity.
Qed.

(** X20.  A message deferred before [disconnect()] and emitted after it.
    On a target without a ["message"] listener, a message that was read and
    is still waiting for its tick when [disconnect()] tears the channel
    down makes that tick throw a [TypeError]: the buffer of early messages
    lives on the channel object, which is gone. *)
Theorem message_deferred_across_disconnect
        (s : state) (message recvHandle : value) :
  onread_live s = true ->
  connected s = true ->
  channel s = true ->
  _handleQueue s = None ->
  _pendingMessage s = None ->
  buffering s = false ->
  ticks s = [] ->
  listenerCount_message s = 0%nat ->
  isInternal message = false ->
  result (steps assertions win32 W
                [Read recvHandle (Some [message]); Disconnect; Tick] s)
  = Throw TypeError.
Proof.
  intros Hl Hc Hch Hq Hp Hb Ht Hn Hi.
  unfold steps, step, onread, disconnect, _disconnect, handleMessage, tick,
    run_task, emit, listenerCount_message in *.
  remember (target_emit assertions win32 W) as f.
  run. rewrite Hl. cbn.
  destruct (truthy recvHandle);
    repeat (progress (run; rewrite ?Hi, ?Hch, ?Hc, ?Hq, ?Hp, ?Hb, ?Ht, ?Hn));
    reflexivity.
Qed.

(** X21.  The events of an ending transport, in order.  When the transport
    of a connected target with no backlog ends and the deferred [finish]
    runs, [channel.close()] is called twice, once by [onread] and once by
    [finish]; ["close"], when this was the last close awaited, is emitted
    between the two, before ["disconnect"]. *)
Theorem close_comes_before_disconnect (s : state) (recvHandle : value) :
  onread_live s = true ->
  connected s = true ->
  asserted assertions (channel s) ->
  _handleQueue s = None ->
  _pendingMessage s = None ->
  ticks s = [] ->
  existsb (Nat.eqb (finishCount s)) (fired s) = false ->
  let res := steps assertions win32 W [Read recvHandle None; Tick] s in
  result res = Ret tt
  /\ trace (after res)
     = (trace s ++ [EChannelClose]
        ++ (if _closesGot s + 1 =? _closesNeeded s
            then [EEmit "close" [exitCode s; signalCode s]] else [])
        ++ [EChannelClose; EEmit "disconnect" []])%list
  /\ ticks (after res) = [].
Proof.
  intros Hl Hc Ha Hq Hp Ht Hf. cbv zeta.
  assert (E : exists s',
             steps assertions win32 W [Read recvHandle None; Tick] s = (Ret tt, s')
             /\ trace s'
                = (trace s ++ [EChannelClose]
                   ++ (if _closesGot s + 1 =? _closesNeeded s
                       then [EEmit "close" [exitCode s; signalCode s]] else [])
                   ++ [EChannelClose; EEmit "disconnect" []])%list
             /\ ticks s' = []).
  { unfold steps, step, onread, disconnect, _disconnect, maybeClose, tick, run_task,
      finish.
    destruct Ha as [Ha|Ha];
      repeat (progress (run; rewrite ?Hl, ?Hc, ?Hq, ?Ha, ?Hp, ?Ht, ?Hf));
      destruct (channel s);
      repeat (progress (run; rewrite ?Hl, ?Hc, ?Hq, ?Hp, ?Ht, ?Hf));
      destruct (_closesGot s + 1 =? _closesNeeded s);
      repeat (progress (run; rewrite ?Hl, ?Hc, ?Hq, ?Hp, ?Ht, ?Hf));
      eexists; (split; [reflexivity|]); cbn; rewrite <- ?app_assoc; cbn; auto. }
  destruct E as (s' & E & E1 & E2). rewrite E. cbn. auto.
Qed.
End Ending.

(** ** What [send] leaves for later *)

Create HintDb deferring.

#[local] Hint Extern 1 (~ runs_user_code _) => (intros []) : deferring.

Ltac deferring :=
  keeps_with ltac:(first
    [ exact (appends_refl _) | exact (appends_trans _)
    | solve [intros; apply appends_none; reflexivity]
    | solve [auto with deferring] ]).

Section Deferring.
Variables assertions win32 : bool.
Variable W : nat -> value -> value -> WriteResult.

Local Abbreviation D := (keeps (appends (fun e => ~ runs_user_code e))).

Lemma D_tell e : ~ runs_user_code e -> D (tell e).
Proof. intros He s. eapply appends_one; [reflexivity | exact He]. Qed.
Lemma D_nextTick t : D (nextTick t).
Proof. unfold nextTick. deferring. Qed.
Lemma D_getM v k : D (getM v k).
Proof. unfold getM. deferring. Qed.
Lemma D_assert c : D (js_assert assertions c).
Proof. unfold js_assert. deferring. Qed.
Hint Resolve D_tell D_nextTick D_getM D_assert : deferring.
Lemma D_method_call h e : ~ runs_user_code e -> D (method_call h e).
Proof. intros He. unfold method_call. deferring. Qed.
Hint Resolve D_method_call : deferring.
Lemma D_refCounted : D refCounted.
Proof. unfold refCounted, channel_ref. deferring. Qed.
Lemma D_getSocketList t k : D (getSocketList t k).
Proof. unfold getSocketList. deferring. Qed.
Hint Resolve D_refCounted D_getSocketList : deferring.
Lemma D_conversion_send t m r o : D (conversion_send t m r o).
Proof. unfold conversion_send, server_send, socket_send, dgram_send. deferring. Qed.
Lemma D_postSend m h o c b : D (postSend assertions m h o c b).
Proof. unfold postSend. deferring. Qed.
Hint Resolve D_conversion_send D_postSend : deferring.
Lemma D_package m h o c : D (package win32 m h o c).
Proof. unfold package, enqueue. deferring. Qed.
Lemma D_settle w r m h o c obj : D (settle assertions w r m h o c obj).
Proof. unfold settle. deferring. Qed.
Hint Resolve D_package D_settle : deferring.
Lemma D_transmit m h o c obj : D (transmit assertions W m h o c obj).
Proof. unfold transmit. deferring. Qed.
Hint Resolve D_transmit : deferring.
Lemma D__send m h o c : D (_send assertions win32 W m h o c).
Proof. unfold _send. deferring. Qed.
Hint Resolve D__send : deferring.

(** X22.  [send] never runs code of the user before it returns: whatever
    the state of the channel, the arguments and the answer of the
    transport, it calls no callback and emits no event on the target; the
    success and the failure of a write, and the closed channel, are all
    reported on a later tick or at the completion of the write. *)
Theorem send_reports_later (s : state) (message handle options callback : value) :
  exists l,
    trace (after (send assertions win32 W message handle options callback s))
    = (trace s ++ l)%list
    /\ Forall (fun e => ~ runs_user_code e) l.
Proof.
  assert (H : D (send assertions win32 W message handle options callback)).
  { unfold send, validateObject. deferring. }
  exact (H s).
Qed.
End Deferring.

(** ** Order across a handshake *)

Section Ordering.
Variables assertions win32 : bool.
Variable W : nat -> value -> value -> WriteResult.

(** [send(message, socket)] on a connected target with no backlog: the
    handshake starts, and the rest of the target is as it was. *)
Lemma handshake_started s r message :
  connected s = true ->
  _handleQueue s = None ->
  _pendingMessage s = None ->
  is_undefined message = false ->
  sendable message = true ->
  truthy (_handle (objs s r)) = true ->
  server (objs s r) = None ->
  err (W (writes s) (envelope net_Socket message) (_handle (objs s r))) = 0 ->
  exists b s1 p,
    send assertions win32 W message (VSocket r) VUndefined VUndefined s = (Ret b, s1)
    /\ writes_of (trace s1)
       = (writes_of (trace s)
          ++ [(envelope net_Socket message, _handle (objs s r))])%list
    /\ _handleQueue s1 = Some []
    /\ _pendingMessage s1 = Some p
    /\ PendingMessage.handle p = _handle (objs s r)
    /\ connected s1 = true
    /\ channel s1 = channel s
    /\ onread_live s1 = onread_live s
    /\ ticks s1 = ticks s
    /\ onceInternalMessage s1 = onceInternalMessage s.
Proof.
  intros Hc Hq Hp Hm Hs Ht Hsv He.
  rewrite (send_connected _ _ _ s message (VSocket r) VUndefined VUndefined Hc eq_refl).
  assert (Ha : asserted assertions (connected s || channel s))
    by (right; rewrite Hc; reflexivity).
  rewrite (_send_asserted _ _ _ _ _ _ _ _ Ha), Hm, Hs.
  unfold package, conversion_send, socket_send, transmit, settle, postSend,
    obj_postSend, refCounted, channel_ref, envelope, handle_of, options_of,
    callback_of in *.
  apply Z.eqb_eq in He. cbn in He. unfold update. run.
  repeat (progress (cbn; rewrite ?Hq, ?Ht, ?Hsv, ?He, ?Hp, ?Nat.eqb_refl)).
  destruct (kLastWriteWasAsync _); cbn;
    try (destruct ((refs s + 1 =? 1) && negb (refExplicitlySet s)); cbn);
    do 3 eexists; (split; [reflexivity|]); cbn;
    rewrite ?writes_of_app; cbn; rewrite ?app_nil_r;
    repeat split; try reflexivity; assumption.
Qed.

(** With no backlog in the way every [send(message)] is written. *)
Lemma plain_sends_written ms : forall s rest,
  connected s = true ->
  _handleQueue s = None ->
  Forall accepted ms ->
  exists s',
    steps assertions win32 W (map plain ms ++ rest) s
    = steps assertions win32 W rest s'
    /\ writes_of (trace s')
       = (writes_of (trace s) ++ map (fun m => (m, VUndefined)) ms)%list
    /\ _handleQueue s' = None
    /\ _pendingMessage s' = _pendingMessage s
    /\ connected s' = true.
Proof.
  induction ms as [|m ms IH]; intros s rest Hc Hq Hf.
  - exists s. cbn. rewrite app_nil_r. repeat split; auto.
  - inversion Hf as [|? ? (Hm & Hs) Hf']; subst.
    assert (Ha : asserted assertions (connected s || channel s))
      by (right; rewrite Hc; reflexivity).
    destruct (resend_plain assertions win32 W s m VUndefined
                [("swallowErrors", VBool false)] VUndefined Hq Ha Hm Hs eq_refl)
      as (R1 & (l & R2 & R3) & R4 & R5 & R6 & _).
    cbv zeta in *.
    assert (E : step assertions win32 W (plain m) s
                = resend assertions win32 W m VUndefined
                         (VObj [("swallowErrors", VBool false)]) VUndefined s).
    { unfold step, plain, resend. unfold bind.
      rewrite (send_connected _ _ _ s m VUndefined VUndefined VUndefined
                              Hc eq_refl).
      reflexivity. }
    cbn [map app steps]. unfold bind at 1. rewrite E.
    destruct (resend assertions win32 W m VUndefined
                     (VObj [("swallowErrors", VBool false)]) VUndefined s)
      as [o s1].
    cbn in R1, R2, R4, R5, R6. subst o.
    rewrite Hc in R6.
    destruct (IH s1 rest R6 R4 Hf') as (s' & E' & I1 & I2 & I3 & I4).
    exists s'. split; [exact E'|].
    rewrite I1, I3, R2, R5, writes_of_app. cbn. rewrite R3, <- app_assoc.
    repeat split; auto.
Qed.

(** The [finish] closures of a disconnect write nothing. *)
Lemma finish_all_quiet l : forall s,
  let r := forEach finish l s in
  result r = Ret tt
  /\ writes_of (trace (after r)) = writes_of (trace s)
  /\ _handleQueue (after r) = _handleQueue s
  /\ _pendingMessage (after r) = _pendingMessage s
  /\ connected (after r) = connected s.
Proof.
  induction l as [|id l IH]; intros s; cbv zeta; [cbn; auto|].
  cbn [forEach]. unfold bind.
  assert (E : exists s1, finish id s = (Ret tt, s1)
                         /\ writes_of (trace s1) = writes_of (trace s)
                         /\ _handleQueue s1 = _handleQueue s
                         /\ _pendingMessage s1 = _pendingMessage s
                         /\ connected s1 = connected s).
  { unfold finish. run. destruct (existsb (Nat.eqb id) (fired s)); cbn; eexists;
      (split; [reflexivity|]); cbn; rewrite ?writes_of_app; cbn;
      rewrite ?app_nil_r; auto. }
  destruct E as (s1 & E & E1 & E2 & E3 & E4). rewrite E.
  destruct (IH s1) as (I1 & I2 & I3 & I4 & I5). cbv zeta in *.
  rewrite I2, I3, I4, I5, E1, E2, E3, E4. auto.
Qed.

(** The acknowledgment is read, and its tick ends the handshake. *)
Lemma handshake_acknowledged s p :
  connected s = true ->
  channel s = true ->
  onread_live s = true ->
  ticks s = [] ->
  _pendingMessage s = Some p ->
  truthy (PendingMessage.handle p) = true ->
  _handleQueue s = Some [] ->
  let res := steps assertions win32 W acknowledged s in
  result res = Ret tt
  /\ writes_of (trace (after res)) = writes_of (trace s)
  /\ _handleQueue (after res) = None
  /\ _pendingMessage (after res) = None
  /\ connected (after res) = true.
Proof.
  intros Hc Hch Hl Ht Hp Hh Hq. cbv zeta.
  set (s1 := set_trace (trace s ++ [EEmit "internalMessage" [ACK; VUndefined]])
               (set_ticks [] (set_ticks [TEmit "internalMessage" ACK VUndefined] s))).
  assert (E : steps assertions win32 W acknowledged s
              = ((onInternalMessage assertions win32 W ACK VUndefined ;;
                  modify (fun s0 =>
                            set_onceInternalMessage
                              (filter (fun id =>
                                         negb (existsb (Nat.eqb id)
                                                       (onceInternalMessage s)))
                                      (onceInternalMessage s0)) s0) ;;
                  forEach finish (onceInternalMessage s)) ;;
                 ret tt) s1).
  { unfold acknowledged, steps, step, onread, handleMessage, tick, run_task, emit,
      target_emit, s1, ACK.
    remember (onInternalMessage assertions win32 W) as f.
    repeat (progress (run; rewrite ?Hl, ?Hch, ?Ht)). reflexivity. }
  rewrite E. clear E. unfold ACK.
  assert (Hh1 : forall p', _pendingMessage s1 = Some p' ->
                           truthy (PendingMessage.handle p') = true).
  { intros p' Hp'. change (_pendingMessage s = Some p') in Hp'.
    rewrite Hp in Hp'. injection Hp' as <-. exact Hh. }
  assert (Hq1 : _handleQueue s1 = Some []) by exact Hq.
  match goal with |- context [result ?m] => destruct m as [o5 s5] eqn:E0 end.
  unfold bind at 1, bind at 1 in E0.
  rewrite (ack_runs_backlog assertions win32 W s1 _ VUndefined Hh1 Hq1) in E0.
  match type of E0 with context [(_ ;; _) ?x] => set (s2 := x) in E0 end.
  unfold bind at 1 in E0. cbn [forEach] in E0. unfold ret at 1 in E0.
  unfold bind at 1, get at 1 in E0.
  change (connected s2) with (connected s) in E0. rewrite Hc in E0.
  cbn [negb andb when] in E0. unfold ret at 1 in E0.
  unfold bind at 1, modify at 1 in E0.
  match type of E0 with context [forEach finish ?l ?x] =>
    destruct (finish_all_quiet l x) as (F1 & F2 & F3 & F4 & F5);
    cbv zeta in *; destruct (forEach finish l x) as [o s4]
  end.
  cbn in F1, F2, F3, F4, F5. subst o. unfold ret in E0. injection E0 as <- <-. cbn.
  rewrite F2, F3, F4, F5. repeat split; try reflexivity; try exact Hc.
  unfold s2, s1. cbn. rewrite Hp, !writes_of_app. cbn.
  rewrite !app_nil_r. reflexivity.
Qed.

(** X23.  A handshake from its start to its end.  A socket is sent on a
    connected target with no backlog.  A message sent before the
    acknowledgment of the peer is thrown back as a [TypeError] and only the
    socket is on the channel.  Once the acknowledgment is read and its tick
    has run, the target is back to no backlog and no pending handle, and
    the messages sent from then on are written: the channel carries the
    envelope of the socket and then every message, in the order of the
    [send] calls. *)
Theorem handshake_round_trip
        (s : state) (r : nat) (message early : value) (ms : list value) :
  connected s = true ->
  channel s = true ->
  onread_live s = true ->
  _handleQueue s = None ->
  _pendingMessage s = None ->
  ticks s = [] ->
  is_undefined message = false ->
  sendable message = true ->
  truthy (_handle (objs s r)) = true ->
  server (objs s r) = None ->
  err (W (writes s) (envelope net_Socket message) (_handle (objs s r))) = 0 ->
  accepted early ->
  is_reply early = false ->
  Forall accepted ms ->
  let first := Send message (VSocket r) VUndefined VUndefined in
  let blocked := steps assertions win32 W [first; plain early] s in
  let done := steps assertions win32 W (first :: acknowledged) s in
  let res := steps assertions win32 W (first :: acknowledged ++ map plain ms) s in
  result blocked = Throw TypeError
  /\ writes_of (trace (after blocked))
     = (writes_of (trace s)
        ++ [(envelope net_Socket message, _handle (objs s r))])%list
  /\ result done = Ret tt
  /\ _handleQueue (after done) = None
  /\ _pendingMessage (after done) = None
  /\ result res = Ret tt
  /\ writes_of (trace (after res))
     = (writes_of (trace s)
        ++ (envelope net_Socket message, _handle (objs s r))
           :: map (fun m => (m, VUndefined)) ms)%list
  /\ _handleQueue (after res) = None
  /\ _pendingMessage (after res) = None.
Proof.
  intros Hc Hch Hl Hq Hp Ht Hm Hs Hh Hsv He (Hem & Hes) Her Hf. cbv zeta.
  destruct (handshake_started s r message Hc Hq Hp Hm Hs Hh Hsv He)
    as (b & s1 & p & E1 & W1 & Q1 & P1 & P1' & C1 & Ch1 & L1 & T1 & O1).
  assert (Hfirst : forall rest,
             steps assertions win32 W
                   (Send message (VSocket r) VUndefined VUndefined :: rest) s
             = steps assertions win32 W rest s1).
  { intros rest. cbn [steps step]. unfold bind. rewrite E1. reflexivity. }
  rewrite Hch in Ch1. rewrite Hl in L1. rewrite Ht in T1. rewrite <- P1' in Hh.
  destruct (handshake_acknowledged s1 p C1 Ch1 L1 T1 P1 Hh Q1)
    as (A1 & A2 & A3 & A4 & A5).
  cbv zeta in *.
  assert (Hb : steps assertions win32 W [plain early] s1 = (Throw TypeError, s1)).
  { cbn [steps step plain]. unfold bind.
    rewrite (send_connected _ _ _ s1 early VUndefined VUndefined VUndefined
                            C1 eq_refl).
    rewrite (send_behind_plain assertions win32 W s1 [] early) by
        (try assumption; try reflexivity; right; rewrite C1; reflexivity).
    reflexivity. }
  rewrite !Hfirst, Hb. cbn [result after fst snd].
  split; [reflexivity|]. split; [exact W1|].
  split; [exact A1|]. split; [exact A3|]. split; [exact A4|].
  destruct (steps assertions win32 W acknowledged s1) as [o2 s2] eqn:E2.
  cbn in A1, A2, A3, A4, A5. subst o2.
  assert (E3 : steps assertions win32 W (acknowledged ++ map plain ms) s1
               = steps assertions win32 W (map plain ms ++ []) s2).
  { rewrite app_nil_r. revert E2. unfold acknowledged. cbn [app steps].
    unfold bind.
    destruct (step assertions win32 W (Read VUndefined (Some [ACK])) s1)
      as [[[]|e] sa]; [|discriminate].
    destruct (step assertions win32 W Tick sa) as [[[]|e] sb]; [|discriminate].
    cbn. intros E2. injection E2 as <-. reflexivity. }
  rewrite E3.
  destruct (plain_sends_written ms s2 [] A5 A3 Hf) as (s3 & E4 & I1 & I2 & I3 & I4).
  rewrite E4. cbn. rewrite I1, I2, I3, A2, A4, W1, <- app_assoc. auto.
Qed.
End Ordering.

(** ** Witnesses of the further properties *)

(** Witness of X1, at [fresh]: a missing message is a rejection. *)
Lemma send_throws_only_rejections_witness :
  result (send false false quiet VUndefined VUndefined VUndefined VUndefined fresh)
  = Throw (ERR_MISSING_ARGS "message")
  /\ thrown_by_send (ERR_MISSING_ARGS "message").
Proof.
  split; [reflexivity|].
  exact (proj1 (send_throws_only_rejections false false quiet fresh
                  VUndefined VUndefined VUndefined VUndefined
                  (ERR_MISSING_ARGS "message") eq_refl)).
Defined.

(** Witness of X2, at [fresh], where the message is written, and at
    [awaiting], where it is thrown back. *)
Lemma plain_send_outcome_witness :
  connected fresh = true
  /\ connected awaiting = true
  /\ options_rejected VUndefined VUndefined = false
  /\ sendable (VStr "m") = true
  /\ (exists b,
         result (send false false quiet (VStr "m") VUndefined VUndefined VUndefined
                      fresh)
         = Ret b)
  /\ send false false quiet (VStr "m") VUndefined VUndefined VUndefined awaiting
     = (Throw TypeError, awaiting).
Proof.
  split; [reflexivity|]. split; [reflexivity|]. split; [reflexivity|].
  split; [reflexivity|]. split.
  - exact (proj1 (plain_send_outcome false false quiet fresh (VStr "m") VUndefined
                    VUndefined VUndefined eq_refl eq_refl eq_refl eq_refl eq_refl)
                 (or_introl eq_refl)).
  - apply (proj2 (plain_send_outcome false false quiet awaiting (VStr "m") VUndefined
                    VUndefined VUndefined eq_refl eq_refl eq_refl eq_refl eq_refl)).
    + discriminate.
    + reflexivity.
Defined.

(** Witness of X3, at [fresh] over a broken transport: the error goes to
    the callback on a later tick. *)
Lemma write_failure_is_deferred_witness :
  connected fresh = true
  /\ err (broken (writes fresh) (VStr "m") VUndefined) <> 0
  /\ result (send false false broken (VStr "m") VUndefined VUndefined (VFun 1) fresh)
     = Ret true
  /\ ticks (after (send false false broken (VStr "m") VUndefined VUndefined (VFun 1)
                        fresh))
     = [TCall (VFun 1) (VError (ErrnoException (-32) "write"))].
Proof.
  assert (He : err (broken (writes fresh) (VStr "m") (handle_of VUndefined)) <> 0)
    by (cbn; lia).
  split; [reflexivity|]. split; [exact He|].
  pose proof (write_failure_is_deferred false false broken fresh (VStr "m")
                VUndefined VUndefined (VFun 1)
                eq_refl eq_refl eq_refl eq_refl eq_refl eq_refl He) as H.
  split; [exact (proj1 H) | exact (proj1 (proj2 (proj2 H)))].
Defined.

(** Witness of X4, at [with_socket]. *)
Lemma socket_send_starts_handshake_witness :
  _handleQueue with_socket = None
  /\ _pendingMessage with_socket = None
  /\ truthy (_handle (objs with_socket 0%nat)) = true
  /\ _handleQueue (after (_send false false quiet (VStr "hi") (VSocket 0) (VObj [])
                                VUndefined with_socket)) = Some []
  /\ _handle (objs (after (_send false false quiet (VStr "hi") (VSocket 0) (VObj [])
                                 VUndefined with_socket)) 0%nat) = VNull.
Proof.
  split; [reflexivity|]. split; [reflexivity|]. split; [reflexivity|].
  pose proof (socket_send_starts_handshake false false quiet with_socket 0%nat
                (VStr "hi") VUndefined []
                eq_refl eq_refl (or_introl eq_refl) eq_refl eq_refl eq_refl eq_refl
                eq_refl eq_refl) as H.
  split; [exact (proj1 (proj2 (proj2 H))) | exact (proj2 (proj2 (proj2 (proj2 H))))].
Defined.

(** Witness of X5, at [with_socket]. *)
Lemma socket_send_keep_open_witness :
  _handleQueue with_socket = None
  /\ truthy (lookup "keepOpen" [("keepOpen", VBool true)]) = true
  /\ objs (after (_send false false quiet (VStr "hi") (VSocket 0)
                        (VObj [("keepOpen", VBool true)]) VUndefined with_socket))
     = objs with_socket.
Proof.
  split; [reflexivity|]. split; [reflexivity|].
  exact (proj2 (proj2 (proj2 (proj2
           (socket_send_keep_open false false quiet with_socket 0%nat
              (VStr "hi") VUndefined [("keepOpen", VBool true)]
              eq_refl (or_introl eq_refl) eq_refl eq_refl eq_refl eq_refl
              eq_refl eq_refl))))).
Defined.

(** Witness of X6, at [with_socket] over a broken transport. *)
Lemma socket_send_failed_write_witness :
  _handleQueue with_socket = None
  /\ err (broken (writes with_socket) (envelope net_Socket (VStr "hi"))
                 (_handle (objs with_socket 0%nat))) <> 0
  /\ trace (after (_send false false broken (VStr "hi") (VSocket 0) (VObj [])
                         VUndefined with_socket))
     = (trace with_socket
        ++ [EHandleDetach (VNative 7); ESetTimeout 0;
            EWrite (envelope net_Socket (VStr "hi")) (VNative 7);
            EHandleClose (VNative 7)])%list.
Proof.
  assert (He : err (broken (writes with_socket) (envelope net_Socket (VStr "hi"))
                           (_handle (objs with_socket 0%nat))) <> 0)
    by (cbn; lia).
  split; [reflexivity|]. split; [exact He|].
  exact (proj1 (proj2
           (socket_send_failed_write false false broken with_socket 0%nat
              (VStr "hi") VUndefined []
              eq_refl (or_introl eq_refl) eq_refl eq_refl eq_refl eq_refl
              eq_refl He))).
Defined.

(** Witness of X7, at [fresh], for a socket without a handle. *)
Lemma handle_gone_sends_text_witness :
  _handleQueue fresh = None
  /\ instanceOf (VSocket 0) = Some (net_Socket, 0%nat)
  /\ truthy (_handle (objs fresh 0%nat)) = false
  /\ _handleQueue (after (_send false false quiet (VStr "hi") (VSocket 0) VUndefined
                                VUndefined fresh)) = None.
Proof.
  split; [reflexivity|]. split; [reflexivity|]. split; [reflexivity|].
  exact (proj1 (proj2
           (handle_gone_sends_text false false quiet fresh net_Socket 0%nat
              (VStr "hi") (VSocket 0) VUndefined VUndefined
              eq_refl (or_introl eq_refl) eq_refl eq_refl eq_refl eq_refl eq_refl))).
Defined.

(** Witness of X8, at [fresh], for a server without a handle. *)
Lemma closed_server_throws_on_win32_witness :
  _handleQueue fresh = None
  /\ truthy (_handle (objs fresh 0%nat)) = false
  /\ _send false true quiet (VStr "hi") (VServer 0) VUndefined VUndefined fresh
     = (Throw TypeError, fresh).
Proof.
  split; [reflexivity|]. split; [reflexivity|].
  exact (closed_server_throws_on_win32 false quiet fresh 0%nat (VStr "hi")
           VUndefined VUndefined
           eq_refl (or_introl eq_refl) eq_refl eq_refl eq_refl).
Defined.

(** Witness of X9, at [with_server]. *)
Lemma shared_handle_stays_open_witness :
  _handleQueue with_server = None
  /\ instanceOf (VServer 1) = Some (net_Server, 1%nat)
  /\ truthy (_handle (objs with_server 1%nat)) = true
  /\ _handleQueue (after (_send false false quiet (VStr "hi") (VServer 1) VUndefined
                                VUndefined with_server)) = Some []
  /\ objs (after (_send false false quiet (VStr "hi") (VServer 1) VUndefined
                        VUndefined with_server)) = objs with_server.
Proof.
  split; [reflexivity|]. split; [reflexivity|]. split; [reflexivity|].
  assert (Hn : net_Server <> net_Socket) by discriminate.
  pose proof (shared_handle_stays_open false false quiet with_server net_Server
                1%nat (VStr "hi") (VServer 1) VUndefined VUndefined
                eq_refl (or_introl eq_refl) eq_refl eq_refl eq_refl Hn eq_refl
                eq_refl) as H.
  split; [exact (proj1 (proj2 (proj2 H))) | exact (proj2 (proj2 (proj2 (proj2 H))))].
Defined.

(** Witness of X10, at [with_server], for the socket the server accepted. *)
Lemma accepted_socket_is_tracked_witness :
  _handleQueue with_server = None
  /\ kChannelHandle with_server = true
  /\ server (objs with_server 2%nat) = Some 1%nat
  /\ mem "4:0.0.0.0:80"
         (sockets_send (after (_send false false quiet (VStr "hi") (VSocket 2)
                                     (VObj []) VUndefined with_server))) = true
  /\ _connections (objs (after (_send false false quiet (VStr "hi") (VSocket 2)
                                      (VObj []) VUndefined with_server)) 1%nat)
     = 0.
Proof.
  split; [reflexivity|]. split; [reflexivity|]. split; [reflexivity|].
  assert (Hn : 1%nat <> 2%nat) by lia.
  pose proof (accepted_socket_is_tracked false false quiet with_server 2%nat 1%nat
                (VStr "hi") VUndefined []
                eq_refl eq_refl (or_introl eq_refl) eq_refl eq_refl eq_refl eq_refl
                eq_refl Hn eq_refl eq_refl) as H.
  split; [exact (proj1 (proj2 (proj2 H))) | exact (proj1 (proj2 (proj2 (proj2 H))))].
Defined.

(** The handle [awaiting] holds back is a handle. *)
Lemma awaiting_handle :
  forall p, _pendingMessage awaiting = Some p ->
            truthy (PendingMessage.handle p) = true.
Proof. intros p H. vm_compute in H. injection H as <-. reflexivity. Defined.

(** Witness of X11, at [awaiting]: the handle is closed; the backlog is
    empty and nothing is written. *)
Lemma ack_drains_backlog_in_order_witness :
  _handleQueue awaiting = Some []
  /\ (exists l,
         trace (after (onInternalMessage false false quiet
                         (VObj [("cmd", VStr NODE_HANDLE_ACK)]) VUndefined awaiting))
         = (trace awaiting ++ [EHandleClose (VNative 7)] ++ l)%list
         /\ writes_of l = [])
  /\ _handleQueue (after (onInternalMessage false false quiet
                            (VObj [("cmd", VStr NODE_HANDLE_ACK)]) VUndefined
                            awaiting)) = None.
Proof.
  split; [reflexivity|].
  pose proof (ack_drains_backlog_in_order false false quiet awaiting [] VUndefined
                awaiting_handle eq_refl (Forall_nil _) (or_introl eq_refl)) as H.
  split; [exact (proj1 (proj2 H)) | exact (proj1 (proj2 (proj2 H)))].
Defined.

(** Witness of X12, at [with_socket]: the socket goes out in an envelope. *)
Lemma handle_travels_in_envelope_witness :
  asserted false (connected with_socket || channel with_socket)
  /\ (writes_of (trace (after (_send false false quiet (VStr "hi") (VSocket 0)
                                     (VObj []) VUndefined with_socket)))
      = writes_of (trace with_socket)
      \/ exists wire raw,
          writes_of (trace (after (_send false false quiet (VStr "hi") (VSocket 0)
                                         (VObj []) VUndefined with_socket)))
          = (writes_of (trace with_socket) ++ [(wire, raw)])%list
          /\ (truthy raw = false -> wire = VStr "hi")
          /\ (truthy raw = true ->
              exists t r, instanceOf (VSocket 0) = Some (t, r)
                          /\ carries wire t (VStr "hi"))).
Proof.
  split; [left; reflexivity|].
  exact (handle_travels_in_envelope false false quiet with_socket (VStr "hi")
           (VSocket 0) (VObj []) VUndefined (or_introl eq_refl)).
Defined.

Lemma handle_message_carries : carries handle_message net_Socket (VNum 1).
Proof. repeat split; reflexivity. Defined.

(** Witness of X13, at [fresh]: the socket is rebuilt around the handle. *)
Lemma received_socket_is_delivered_witness :
  truthy (VNative 3) = true
  /\ channel fresh = true
  /\ kChannelHandle fresh = true
  /\ _handle (objs (after (onInternalMessage false false quiet handle_message
                                             (VNative 3) fresh)) (objCount fresh))
     = VNative 3
  /\ ticks (after (onInternalMessage false false quiet handle_message (VNative 3)
                                     fresh))
     = (ticks fresh
        ++ [TEmit (event_name (VNum 1)) (VNum 1) (VSocket (objCount fresh))])%list.
Proof.
  split; [reflexivity|]. split; [reflexivity|]. split; [reflexivity|].
  pose proof (received_socket_is_delivered false false quiet fresh handle_message
                (VNative 3) (VNum 1) handle_message_carries eq_refl eq_refl eq_refl)
    as H.
  split; [exact (proj1 (proj2 (proj2 (proj2 H))))
         | exact (proj2 (proj2 (proj2 (proj2 (proj2 H)))))].
Defined.

Lemma server_message_carries :
  carries (envelope net_Server (VNum 1)) net_Server (VNum 1).
Proof. repeat split; reflexivity. Defined.

(** Witness of X14, at [fresh]: nothing is deferred before [listen] calls
    back. *)
Lemma received_server_waits_for_listen_witness :
  truthy (VNative 3) = true
  /\ asserted false (connected fresh || channel fresh)
  /\ ticks (after (onInternalMessage false false quiet (envelope net_Server (VNum 1))
                                     (VNative 3) fresh))
     = ticks fresh.
Proof.
  split; [reflexivity|]. split; [left; reflexivity|].
  assert (Hn : net_Server <> net_Socket) by discriminate.
  exact (proj1 (proj2 (proj2 (proj2
           (received_server_waits_for_listen false false quiet fresh net_Server
              (envelope net_Server (VNum 1)) (VNative 3) (VNum 1)
              server_message_carries Hn eq_refl (or_introl eq_refl)))))).
Defined.

(** Witness of X15, at [closed]. *)
Lemma reads_after_teardown_are_dropped_witness :
  channel closed = false
  /\ ticks (after (onread false VUndefined (Some [VStr "late"]) closed)) = ticks closed.
Proof.
  split; [reflexivity|].
  exact (proj1 (proj2
           (reads_after_teardown_are_dropped false false quiet closed VUndefined
              VUndefined VUndefined [VStr "late"] eq_refl))).
Defined.

(** Witness of X16, after the first [refCounted] of a fresh channel. *)
Lemma counted_refs_follow_counter_witness :
  refExplicitlySet (after (refCounted fresh)) = false
  /\ refed (after (refCounted fresh)) = (0 <? refs (after (refCounted fresh)))
  /\ refed (after (forEach run_automatic [RefCounted; UnrefCounted; UnrefCounted]
                           (after (refCounted fresh))))
     = (0 <? refs (after (forEach run_automatic
                                  [RefCounted; UnrefCounted; UnrefCounted]
                                  (after (refCounted fresh))))).
Proof.
  split; [reflexivity|]. split; [reflexivity|].
  exact (proj1 (proj2 (proj2
           (counted_refs_follow_counter [RefCounted; UnrefCounted; UnrefCounted]
              (after (refCounted fresh)) eq_refl eq_refl)))).
Defined.

Lemma fresh_accounted : accounted fresh.
Proof.
  split; [reflexivity|]. split; [apply NoDup_nil|]. split; [apply Forall_nil|].
  intros _ H. exfalso. apply H. reflexivity.
Defined.

(** Witness of X17, at [fresh] over a slow transport: one write in flight,
    then completed. *)
Lemma counter_counts_writes_in_flight_witness :
  accounted fresh
  /\ refs (after (steps false false slow
                        [Send (VStr "m") VUndefined VUndefined VUndefined;
                         Complete 0] fresh))
     = Z.of_nat (List.length
                   (oncomplete
                      (after (steps false false slow
                                [Send (VStr "m") VUndefined VUndefined VUndefined;
                                 Complete 0] fresh)))).
Proof.
  split; [exact fresh_accounted|].
  exact (proj1 (counter_counts_writes_in_flight false false slow
                  [Send (VStr "m") VUndefined VUndefined VUndefined; Complete 0]
                  fresh fresh_accounted)).
Defined.

Lemma fresh_can_disconnect :
  connected fresh = true -> _handleQueue fresh = None ->
  asserted false (channel fresh) /\ _pendingMessage fresh = None.
Proof. intros _ _. split; [left; reflexivity | reflexivity]. Defined.

(** Witness of X18, at [fresh], which is connected, and at [closed], which
    is not and has no ["error"] listener. *)
Lemma end_of_transport_witness :
  connected fresh = true
  /\ connected closed = false
  /\ errorListeners closed = 0%nat
  /\ channel (after (onread false VUndefined None fresh)) = false
  /\ ticks (after (onread false VUndefined None fresh))
     = (ticks fresh ++ [TFinish (finishCount fresh)])%list
  /\ result (onread false VUndefined None closed) = Throw ERR_IPC_DISCONNECTED.
Proof.
  split; [reflexivity|]. split; [reflexivity|]. split; [reflexivity|].
  pose proof (proj1 (end_of_transport false false quiet fresh VUndefined VUndefined
                       None fresh_can_disconnect) (or_introl eq_refl)) as H.
  split; [exact (proj1 (proj2 (proj2 H)))|].
  split; [exact (proj1 (proj2 (proj2 (proj2 (proj2 (proj2 H))))))|].
  rewrite (proj2 (end_of_transport false false quiet closed VUndefined VUndefined
                    None (fun H0 : connected closed = true =>
                            False_ind _ (Bool.diff_false_true H0)))
                 eq_refl eq_refl).
  reflexivity.
Defined.

(** Witness of X19, at [reading]. *)
Lemma buffered_disconnect_closes_once_witness :
  connected reading = true
  /\ buffering reading = true
  /\ trace (after (disconnect false reading)) = trace reading
  /\ trace (after (target_emit false false quiet "message" [VStr "m"; VUndefined]
                               (after (disconnect false reading))))
     = (trace reading ++ [EEmit "message" [VStr "m"; VUndefined]; EChannelClose;
                          EEmit "disconnect" []])%list.
Proof.
  split; [reflexivity|]. split; [reflexivity|].
  pose proof (buffered_disconnect_closes_once false false quiet reading (VStr "m")
                VUndefined (VObj []) VUndefined
                eq_refl (or_introl eq_refl) eq_refl eq_refl eq_refl eq_refl eq_refl
                eq_refl eq_refl eq_refl) as H.
  split; [exact (proj1 (proj2 H))
         | exact (proj1 (proj2 (proj2 (proj2 (proj2 (proj2 (proj2 H)))))))].
Defined.

(** Witness of X20, at [fresh]. *)
Lemma message_deferred_across_disconnect_witness :
  onread_live fresh = true
  /\ listenerCount_message fresh = 0%nat
  /\ isInternal (VStr "early") = false
  /\ result (steps false false quiet
                   [Read VUndefined (Some [VStr "early"]); Disconnect; Tick] fresh)
     = Throw TypeError.
Proof.
  split; [reflexivity|]. split; [reflexivity|]. split; [reflexivity|].
  exact (message_deferred_across_disconnect false false quiet fresh (VStr "early")
           VUndefined eq_refl eq_refl eq_refl eq_refl eq_refl eq_refl eq_refl eq_refl
           eq_refl).
Defined.

Lemma a_b_accepted : Forall accepted [VStr "a"; VStr "b"].
Proof.
  repeat (apply Forall_cons || apply Forall_nil); repeat split; reflexivity.
Defined.

(** Witness of X23, at [with_socket]: "early" is thrown back; after the
    acknowledgment the channel carries the socket, then "a", then "b". *)
Lemma handshake_round_trip_witness :
  connected with_socket = true
  /\ ticks with_socket = []
  /\ truthy (_handle (objs with_socket 0%nat)) = true
  /\ result (steps false false quiet
                   [Send (VStr "hi") (VSocket 0) VUndefined VUndefined;
                    plain (VStr "early")] with_socket)
     = Throw TypeError
  /\ writes_of (trace (after (steps false false quiet
                                (Send (VStr "hi") (VSocket 0) VUndefined VUndefined
                                 :: acknowledged ++ map plain [VStr "a"; VStr "b"])
                                with_socket)))
     = (writes_of (trace with_socket)
        ++ [(envelope net_Socket (VStr "hi"), VNative 7);
            (VStr "a", VUndefined); (VStr "b", VUndefined)])%list.
Proof.
  split; [reflexivity|]. split; [reflexivity|]. split; [reflexivity|].
  pose proof (handshake_round_trip false false quiet with_socket 0%nat
                (VStr "hi") (VStr "early") [VStr "a"; VStr "b"]
                eq_refl eq_refl eq_refl eq_refl eq_refl eq_refl eq_refl eq_refl
                eq_refl eq_refl eq_refl (conj eq_refl eq_refl) eq_refl
                a_b_accepted) as H.
  split; [exact (proj1 H)|].
  exact (proj1 (proj2 (proj2 (proj2 (proj2 (proj2 (proj2 H))))))).
Defined.

Lemma fresh_asserted : asserted false (channel fresh).
Proof. left. reflexivity. Defined.

(** Witness of X21, at [fresh], where one close is awaited. *)
Lemma close_comes_before_disconnect_witness :
  onread_live fresh = true
  /\ connected fresh = true
  /\ ticks fresh = []
  /\ trace (after (steps false false quiet [Read VUndefined None; Tick] fresh))
     = (trace fresh
        ++ [EChannelClose]
        ++ (if _closesGot fresh + 1 =? _closesNeeded fresh
            then [EEmit "close" [exitCode fresh; signalCode fresh]] else [])
        ++ [EChannelClose; EEmit "disconnect" []])%list.
Proof.
  split; [reflexivity|]. split; [reflexivity|]. split; [reflexivity|].
  exact (proj1 (proj2
           (close_comes_before_disconnect false false quiet fresh VUndefined
              eq_refl eq_refl fresh_asserted eq_refl eq_refl eq_refl eq_refl))).
Defined.
